(** * python_logo.interpreter: a shallow embedding and its properties

    The interpreter of [src/python_logo/interpreter.py] walks a parsed Logo
    tree (nested Python dicts and lists), keeps three tables ([_variables],
    [_fuctions], [_lists]) and yields drawing commands from a generator.

    The embedding keeps what the Python code relies on:
    - the tree lives in a store of mutable objects (dicts and lists) that
      are referred to by address, because the interpreter writes into the
      tree ([setpos], [list_make]) and keeps references into it ([_lists],
      function bodies);
    - exceptions are values, [try]/[except] is a combinator that catches
      exactly what the source catches;
    - a generator that is pulled to its end is a computation that returns
      the sequence of yielded items together with the way it ended;
    - recursion through function calls and loops over stored lists is
      bounded by a fuel argument; [OutOfFuel] is not an exception and is
      never caught. Python's own recursion limit is not modelled.

    Python behaviour that the embedding does not cover (exponentiation,
    mixed integer and float arithmetic, [int] of most strings, deep equality of
    two distinct containers, iteration over a dict or a string, dict keys
    that are not strings, lengths of strings outside ASCII) ends in the
    outcome [Unmodelled]; no statement
    below attributes a result to the program on such a path. *)

From Stdlib Require Import ZArith String Ascii List Bool Lia PrimFloat FloatOps SpecFloat.
From stdpp Require Import base list.
Import ListNotations.
Local Open Scope Z_scope.
Local Open Scope string_scope.

(** ** Python values and the object store *)

(** Immutable values are kept inline, mutable containers by address. *)
Inductive val : Type :=
| VNone
| VBool (b : bool)
| VInt (z : Z)
| VFloat (f : float)
| VStr (s : string)
| VRef (a : nat).

(** A stored object: a Python list, or a dict with string keys in
    insertion order. *)
Inductive obj : Type :=
| OList (xs : list val)
| ODict (kvs : list (string * val)).

(** ** Insertion-ordered dicts with string keys *)

Section Dict.
Context {V : Type}.

Fixpoint dict_get (d : list (string * V)) (k : string) : option V :=
  match d with
  | [] => None
  | (k', v) :: d' => if String.eqb k' k then Some v else dict_get d' k
  end.

(** [d[k] = v]: an existing key keeps its position, a new key goes last. *)
Fixpoint dict_set (d : list (string * V)) (k : string) (v : V) : list (string * V) :=
  match d with
  | [] => [(k, v)]
  | (k', v') :: d' =>
      if String.eqb k' k then (k', v) :: d' else (k', v') :: dict_set d' k v
  end.

Definition dict_mem (d : list (string * V)) (k : string) : bool :=
  match dict_get d k with Some _ => true | None => false end.

End Dict.

(** ** Exceptions *)

(** Modelled from the spec: the module [python_logo/exceptions.py] is not
    among the sources. Its classes are the [Interpreter...Error]
    constructors below, with the fields the interpreter passes to them
    (spec section 7). They are taken to be plain [Exception] subclasses,
    so none of them is caught by [except KeyError] or [except TypeError].
    [InterpreterFunctionExecutionError] keeps the exception it was raised
    from ([raise ... from execution_err]). The other constructors are the
    built-in exceptions the Python operations used by the interpreter
    raise. *)
Inductive exn : Type :=
| KeyError
| TypeError
| IndexError
| ValueError
| OverflowError
| ZeroDivisionError
| AttributeError
| UnboundLocalError
| InterpreterInvalidTreeError
| InterpreterInvalidCommandError
| InterpreterUnboundVariableError (name : string)
| InterpreterUnboundVariableListError
| InterpreterUndefinedFunctionError (func_name : val)
| InterpreterInvalidFunctionArgumentsError (func_name : val) (expected_args received_args : Z)
| InterpreterInvalidColorError (color : val) (supported_colors : list string)
| InterpreterFunctionExecutionError (func_name : val) (cause : exn).

(** How a computation ends. *)
Inductive outcome (A : Type) : Type :=
| Ok (a : A)
| Raise (e : exn)
| OutOfFuel
| Unmodelled.
Arguments Ok {A} a.
Arguments Raise {A} e.
Arguments OutOfFuel {A}.
Arguments Unmodelled {A}.

(** ** Built-in operations on values *)

Definition bool_to_Z (b : bool) : Z := if b then 1 else 0.

(** [int(f)] for a float: truncation toward zero. *)
Definition float_to_int (f : float) : outcome Z :=
  match Prim2SF f with
  | S754_zero _ => Ok 0
  | S754_infinity _ => Raise OverflowError
  | S754_nan => Raise ValueError
  | S754_finite s m e =>
      let a := match e with
               | Z0 => Zpos m
               | Zpos _ => Zpos m * 2 ^ e
               | Zneg p => Zpos m / 2 ^ (Zpos p)
               end in
      Ok (if s then - a else a)
  end.

(** [int(s)] for a string, in two plain cases: ASCII decimal digits only
    give their number (up to the 4300 digits Python converts by default),
    ASCII letters only are a [ValueError]. Signs, blanks, underscores and
    other characters are left out. *)
Definition is_digit (c : ascii) : bool :=
  let n := nat_of_ascii c in (48 <=? n)%nat && (n <=? 57)%nat.
Definition is_letter (c : ascii) : bool :=
  let n := nat_of_ascii c in
  ((65 <=? n)%nat && (n <=? 90)%nat) || ((97 <=? n)%nat && (n <=? 122)%nat).

Fixpoint string_forall (p : ascii -> bool) (s : string) : bool :=
  match s with
  | EmptyString => true
  | String c s' => p c && string_forall p s'
  end.

(** Strings are byte strings here; a Python [str] counts characters, so
    lengths and positions are given for ASCII strings only. *)
Definition is_ascii (s : string) : bool :=
  string_forall (fun c => (nat_of_ascii c <? 128)%nat) s.

Fixpoint digits_value (acc : Z) (s : string) : Z :=
  match s with
  | EmptyString => acc
  | String c s' => digits_value (10 * acc + Z.of_nat (nat_of_ascii c - 48)) s'
  end.

Definition str_to_int (s : string) : outcome Z :=
  match s with
  | EmptyString => Raise ValueError
  | _ =>
      if string_forall is_digit s then
        if (String.length s <=? 4300)%nat then Ok (digits_value 0 s) else Unmodelled
      else if string_forall is_letter s then Raise ValueError
      else Unmodelled
  end.

(** [int(v)]. *)
Definition py_int (v : val) : outcome Z :=
  match v with
  | VInt z => Ok z
  | VBool b => Ok (bool_to_Z b)
  | VFloat f => float_to_int f
  | VStr s => str_to_int s
  | VNone | VRef _ => Raise TypeError
  end.

(** Exact comparison of a float with an integer, as [float.__eq__] does. *)
Definition float_eq_int (f : float) (z : Z) : bool :=
  match Prim2SF f with
  | S754_zero _ => Z.eqb z 0
  | S754_finite s m e =>
      let sm := if s then Zneg m else Zpos m in
      match e with
      | Zneg p => Z.eqb sm (z * 2 ^ (Zpos p))
      | _ => Z.eqb (sm * 2 ^ e) z
      end
  | _ => false
  end.

Definition is_nan (f : float) : bool :=
  match Prim2SF f with S754_nan => true | _ => false end.

(** [a == b]. Two distinct containers would be compared element by
    element, which is left out. *)
Definition py_eq (a b : val) : outcome bool :=
  match a, b with
  | VNone, VNone => Ok true
  | VStr s, VStr t => Ok (String.eqb s t)
  | VBool x, VBool y => Ok (Bool.eqb x y)
  | VBool x, VInt y => Ok (Z.eqb (bool_to_Z x) y)
  | VInt x, VBool y => Ok (Z.eqb x (bool_to_Z y))
  | VInt x, VInt y => Ok (Z.eqb x y)
  | VFloat x, VFloat y => Ok (PrimFloat.eqb x y)
  | VFloat x, VInt y => Ok (float_eq_int x y)
  | VInt x, VFloat y => Ok (float_eq_int y x)
  | VFloat x, VBool y => Ok (float_eq_int x (bool_to_Z y))
  | VBool x, VFloat y => Ok (float_eq_int y (bool_to_Z x))
  | VRef x, VRef y => if Nat.eqb x y then Ok true else Unmodelled
  | _, _ => Ok false
  end.

(** [a is b or a == b], the test used by [list.remove] and [in]. Floats
    carry no identity here; identity can only matter for two NaNs. *)
Definition py_is_or_eq (a b : val) : outcome bool :=
  match a, b with
  | VFloat x, VFloat y => if is_nan x && is_nan y then Unmodelled else py_eq a b
  | _, _ => py_eq a b
  end.

(** The binary operators of [_evaluate] other than [=] and [<>]. *)
Definition py_binop (op : string) (a b : val) : outcome val :=
  let ints (x y : Z) : outcome val :=
    if String.eqb op "+" then Ok (VInt (x + y))
    else if String.eqb op "-" then Ok (VInt (x - y))
    else if String.eqb op "*" then Ok (VInt (x * y))
    else if String.eqb op ">" then Ok (VBool (Z.ltb y x))
    else if String.eqb op ">=" then Ok (VBool (Z.leb y x))
    else if String.eqb op "<" then Ok (VBool (Z.ltb x y))
    else if String.eqb op "<=" then Ok (VBool (Z.leb x y))
    else Unmodelled in
  match a, b with
  | VFloat x, VFloat y =>
      if String.eqb op "+" then Ok (VFloat (x + y)%float)
      else if String.eqb op "-" then Ok (VFloat (x - y)%float)
      else if String.eqb op "*" then Ok (VFloat (x * y)%float)
      else if String.eqb op "/" then
        if PrimFloat.eqb y 0%float then Raise ZeroDivisionError
        else Ok (VFloat (x / y)%float)
      else if String.eqb op ">" then Ok (VBool (PrimFloat.ltb y x))
      else if String.eqb op ">=" then Ok (VBool (PrimFloat.leb y x))
      else if String.eqb op "<" then Ok (VBool (PrimFloat.ltb x y))
      else if String.eqb op "<=" then Ok (VBool (PrimFloat.leb x y))
      else Unmodelled
  | VInt x, VInt y => ints x y
  | VInt x, VBool y => ints x (bool_to_Z y)
  | VBool x, VInt y => ints (bool_to_Z x) y
  | VBool x, VBool y => ints (bool_to_Z x) (bool_to_Z y)
  | VNone, (VNone | VBool _ | VInt _ | VFloat _ | VStr _)
  | (VBool _ | VInt _ | VFloat _ | VStr _), VNone => Raise TypeError
  | _, _ => Unmodelled
  end.

(** Unary minus. *)
Definition py_neg (a : val) : outcome val :=
  match a with
  | VFloat x => Ok (VFloat (- x)%float)
  | VInt x => Ok (VInt (- x))
  | VBool x => Ok (VInt (- bool_to_Z x))
  | VNone | VStr _ | VRef _ => Raise TypeError
  end.

Section Store.
Variable h : list obj.

(** Truth value of an object ([if v:], [not v], [all], [any]). *)
Definition py_truthy (v : val) : outcome bool :=
  match v with
  | VNone => Ok false
  | VBool b => Ok b
  | VInt z => Ok (negb (Z.eqb z 0))
  | VFloat f => Ok (negb (PrimFloat.eqb f 0%float))
  | VStr s => Ok (negb (String.eqb s ""))
  | VRef a =>
      match h !! a with
      | Some (OList xs) => Ok (negb (Nat.eqb (length xs) 0))
      | Some (ODict kvs) => Ok (negb (Nat.eqb (length kvs) 0))
      | None => Unmodelled
      end
  end.

(** [len(v)]. *)
Definition py_len (v : val) : outcome Z :=
  match v with
  | VStr s => if is_ascii s then Ok (Z.of_nat (String.length s)) else Unmodelled
  | VRef a =>
      match h !! a with
      | Some (OList xs) => Ok (Z.of_nat (length xs))
      | Some (ODict kvs) => Ok (Z.of_nat (length kvs))
      | None => Unmodelled
      end
  | _ => Raise TypeError
  end.

(** Position of index [i] in a sequence of length [n]; negative indices
    count from the end. *)
Definition seq_index (n : nat) (i : Z) : option nat :=
  let j := if Z.ltb i 0 then i + Z.of_nat n else i in
  if Z.leb 0 j && Z.ltb j (Z.of_nat n) then Some (Z.to_nat j) else None.

Definition index_of_key (k : val) : option Z :=
  match k with
  | VInt z => Some z
  | VBool b => Some (bool_to_Z b)
  | _ => None
  end.

(** [o[k]]. *)
Definition py_getitem (o k : val) : outcome val :=
  match o with
  | VRef a =>
      match h !! a with
      | Some (ODict kvs) =>
          match k with
          | VStr s => match dict_get kvs s with Some v => Ok v | None => Raise KeyError end
          | VRef _ => Raise TypeError
          | _ => Raise KeyError
          end
      | Some (OList xs) =>
          match index_of_key k with
          | Some i =>
              match seq_index (length xs) i with
              | Some j => match xs !! j with Some v => Ok v | None => Raise IndexError end
              | None => Raise IndexError
              end
          | None => Raise TypeError
          end
      | None => Unmodelled
      end
  | VStr s =>
      match index_of_key k with
      | Some i =>
          if negb (is_ascii s) then Unmodelled else
          match seq_index (String.length s) i with
          | Some j =>
              match String.get j s with
              | Some c => Ok (VStr (String c EmptyString))
              | None => Raise IndexError
              end
          | None => Raise IndexError
          end
      | None => Raise TypeError
      end
  | _ => Raise TypeError
  end.

(** [o[k] = v]; the result is the new store. *)
Definition py_setitem (o k v : val) : outcome (list obj) :=
  match o with
  | VRef a =>
      match h !! a with
      | Some (ODict kvs) =>
          match k with
          | VStr s => Ok (<[a := ODict (dict_set kvs s v)]> h)
          | VRef _ => Raise TypeError
          | _ => Unmodelled
          end
      | Some (OList xs) =>
          match index_of_key k with
          | Some i =>
              match seq_index (length xs) i with
              | Some j => Ok (<[a := OList (<[j := v]> xs)]> h)
              | None => Raise IndexError
              end
          | None => Raise TypeError
          end
      | None => Unmodelled
      end
  | _ => Raise TypeError
  end.

End Store.

(** The methods [insert], [pop] and [remove] of a list. *)

(** CPython converts the index argument of [list.insert] and [list.pop]
    to a C [Py_ssize_t] before it looks at the list: an integer outside
    that type is an [OverflowError] and the list stays as it is. The
    range is that of a 64-bit build. (A subscript [xs[i]] reports such an
    index as an [IndexError], as [py_getitem] and [py_setitem] do.) *)
Definition fits_ssize_t (i : Z) : bool := Z.leb (- 2 ^ 63) i && Z.ltb i (2 ^ 63).

(** Where [insert] puts the value: the index is clamped to the list. *)
Definition inserted (xs : list val) (i : Z) (v : val) : list val :=
  let n := Z.of_nat (length xs) in
  let j := if Z.ltb i 0 then Z.max 0 (i + n) else Z.min i n in
  (take (Z.to_nat j) xs ++ v :: drop (Z.to_nat j) xs)%list.

(** [xs.insert(i, v)] *)
Definition list_insert (xs : list val) (i : Z) (v : val) : outcome (list val) :=
  if fits_ssize_t i then Ok (inserted xs i v) else Raise OverflowError.

(** [xs.pop(i)]: [IndexError] outside the list. *)
Definition list_pop (xs : list val) (i : Z) : outcome (list val) :=
  if fits_ssize_t i then
    match seq_index (length xs) i with
    | Some j => Ok (take j xs ++ drop (S j) xs)%list
    | None => Raise IndexError
    end
  else Raise OverflowError.

(** [xs.remove(v)]: the first element equal to [v] goes, [ValueError]
    when there is none. *)
Fixpoint list_remove (xs : list val) (v : val) : outcome (list val) :=
  match xs with
  | [] => Raise ValueError
  | x :: xs' =>
      match py_is_or_eq x v with
      | Ok true => Ok xs'
      | Ok false =>
          match list_remove xs' v with
          | Ok ys => Ok (x :: ys)
          | r => r
          end
      | Raise e => Raise e
      | OutOfFuel => OutOfFuel
      | Unmodelled => Unmodelled
      end
  end.

(** ** The interpreter's state and the generator monad *)

(** An entry of [self._fuctions]: [{"arguments": {...}, "commands": ...}]. *)
Record func_data : Type := FuncData {
  fd_arguments : list (string * val);
  fd_commands : val
}.

(** The object store together with the attributes of one [Interpreter]. *)
Record state : Type := State {
  heap : list obj;
  _variables : list (string * val);
  _fuctions : list (string * func_data);
  _lists : list (string * val);
  _commands : val
}.

(** [self._colors]. *)
Definition _colors : list string :=
  ["white"; "black"; "red"; "green"; "blue"; "cyan"].

(** What a generator hands to its consumer: the tree node itself (its
    address, with its fields as they are when it is yielded), or a dict
    built by the handler. *)
Inductive yielded : Type :=
| YNode (a : nat) (fields : list (string * val))
| YFresh (fields : list (string * val)).

Record result (A : Type) : Type := Res {
  res : outcome A;
  fin : state;
  yields : list yielded
}.
Arguments Res {A} res fin yields.
Arguments res {A} r.
Arguments fin {A} r.
Arguments yields {A} r.

Definition M (A : Type) : Type := state -> result A.

Definition ret {A} (a : A) : M A := fun s => Res (Ok a) s [].
Definition raise {A} (e : exn) : M A := fun s => Res (Raise e) s [].
Definition out_of_fuel {A} : M A := fun s => Res OutOfFuel s [].
Definition unmodelled {A} : M A := fun s => Res Unmodelled s [].

Definition bind {A B} (m : M A) (k : A -> M B) : M B :=
  fun s =>
    match m s with
    | Res (Ok a) s1 ys1 => let r := k a s1 in Res (res r) (fin r) (ys1 ++ yields r)%list
    | Res (Raise e) s1 ys1 => Res (Raise e) s1 ys1
    | Res OutOfFuel s1 ys1 => Res OutOfFuel s1 ys1
    | Res Unmodelled s1 ys1 => Res Unmodelled s1 ys1
    end.

Notation "'let*' x ':=' m 'in' k" := (bind m (fun x => k))
  (at level 10, x name, m at level 100, k at level 200).
Notation "m ';;' k" := (bind m (fun _ => k))
  (at level 100, k at level 200, right associativity).

(** [try: m except ...: handler]: [handler e] is [None] when no [except]
    clause matches [e]. What was yielded and written before the exception
    stays. *)
Definition try_except {A} (m : M A) (handler : exn -> option (M A)) : M A :=
  fun s =>
    match m s with
    | Res (Raise e) s1 ys1 =>
        match handler e with
        | Some k => let r := k s1 in Res (res r) (fin r) (ys1 ++ yields r)%list
        | None => Res (Raise e) s1 ys1
        end
    | r => r
    end.

Definition except_KeyError {A} (e' : exn) (e : exn) : option (M A) :=
  match e with KeyError => Some (raise e') | _ => None end.

Definition lift {A} (f : list obj -> outcome A) : M A :=
  fun s => Res (f (heap s)) s [].

Definition pure_outcome {A} (o : outcome A) : M A := fun s => Res o s [].

Definition yield (y : yielded) : M unit := fun s => Res (Ok tt) s [y].

Definition set_heap (h : list obj) (s : state) : state :=
  State h (_variables s) (_fuctions s) (_lists s) (_commands s).
Definition set_variables (d : list (string * val)) (s : state) : state :=
  State (heap s) d (_fuctions s) (_lists s) (_commands s).
Definition set_fuctions (d : list (string * func_data)) (s : state) : state :=
  State (heap s) (_variables s) d (_lists s) (_commands s).
Definition set_lists (d : list (string * val)) (s : state) : state :=
  State (heap s) (_variables s) (_fuctions s) d (_commands s).
Definition set_commands (c : val) (s : state) : state :=
  State (heap s) (_variables s) (_fuctions s) (_lists s) c.

Definition getitem (o k : val) : M val := lift (fun h => py_getitem h o k).
Definition len (o : val) : M Z := lift (fun h => py_len h o).
Definition truthy (o : val) : M bool := lift (fun h => py_truthy h o).

(** [command["field"]] *)
Definition field (o : val) (k : string) : M val := getitem o (VStr k).

Definition setitem (o k v : val) : M unit :=
  fun s =>
    match py_setitem (heap s) o k v with
    | Ok h' => Res (Ok tt) (set_heap h' s) []
    | Raise e => Res (Raise e) s []
    | OutOfFuel => Res OutOfFuel s []
    | Unmodelled => Res Unmodelled s []
    end.

(** A new object; its address is the next free one. *)
Definition alloc (o : obj) : M val :=
  fun s => Res (Ok (VRef (length (heap s)))) (set_heap (heap s ++ [o])%list s) [].

(** [yield command] for a tree node. *)
Definition yield_node (command : val) : M unit :=
  fun s =>
    match command with
    | VRef a =>
        match heap s !! a with
        | Some (ODict kvs) => Res (Ok tt) s [YNode a kvs]
        | _ => Res Unmodelled s []
        end
    | _ => Res Unmodelled s []
    end.

(** The items of a list, for a [for] loop whose body leaves the list
    alone. *)
Definition list_items (o : val) : M (list val) :=
  fun s =>
    match o with
    | VRef a =>
        match heap s !! a with
        | Some (OList xs) => Res (Ok xs) s []
        | _ => Res Unmodelled s []
        end
    | VStr _ => Res Unmodelled s []
    | _ => Res (Raise TypeError) s []
    end.

(** [for i in range(n): body(i)] *)
Fixpoint for_range_from (n : nat) (i : nat) (body : nat -> M unit) : M unit :=
  match n with
  | O => ret tt
  | S n' => body i ;; for_range_from n' (S i) body
  end.
Definition for_range (n : nat) (body : nat -> M unit) : M unit := for_range_from n 0 body.

Fixpoint for_each {A} (xs : list A) (body : A -> M unit) : M unit :=
  match xs with
  | [] => ret tt
  | x :: xs' => body x ;; for_each xs' body
  end.

(** [for x in o: body(x)] over a stored list: the list iterator reads
    position [i] of the list as it is at that moment. *)
Fixpoint for_in_from (fuel : nat) (o : val) (i : nat) (body : val -> M unit) : M unit :=
  match fuel with
  | O => out_of_fuel
  | S fuel' =>
      fun s =>
        match o with
        | VRef a =>
            match heap s !! a with
            | Some (OList xs) =>
                match xs !! i with
                | Some x => (body x ;; for_in_from fuel' o (S i) body) s
                | None => Res (Ok tt) s []
                end
            | _ => Res Unmodelled s []
            end
        | VStr _ => Res Unmodelled s []
        | _ => Res (Raise TypeError) s []
        end
  end.

(** Keys of the interpreter's own tables. A key that is a list or a dict
    is unhashable; a hashable key that is not a string is never found. *)
Definition table_get {V} (d : list (string * V)) (k : val) : outcome V :=
  match k with
  | VStr s => match dict_get d s with Some v => Ok v | None => Raise KeyError end
  | VRef _ => Raise TypeError
  | _ => Raise KeyError
  end.

Definition table_mem {V} (d : list (string * V)) (k : val) : outcome bool :=
  match k with
  | VStr s => Ok (dict_mem d s)
  | VRef _ => Raise TypeError
  | _ => Ok false
  end.

Definition table_set {V} (d : list (string * V)) (k : val) (v : V) : outcome (list (string * V)) :=
  match k with
  | VStr s => Ok (dict_set d s v)
  | VRef _ => Raise TypeError
  | _ => Unmodelled
  end.

(** [self._variables[var_name] = value] *)
Definition set_variable (var_name value : val) : M unit :=
  fun s =>
    match table_set (_variables s) var_name value with
    | Ok d => Res (Ok tt) (set_variables d s) []
    | Raise e => Res (Raise e) s []
    | OutOfFuel => Res OutOfFuel s []
    | Unmodelled => Res Unmodelled s []
    end.

(** [self._lists[list_name] = xs] *)
Definition set_list (list_name xs : val) : M unit :=
  fun s =>
    match table_set (_lists s) list_name xs with
    | Ok d => Res (Ok tt) (set_lists d s) []
    | Raise e => Res (Raise e) s []
    | OutOfFuel => Res OutOfFuel s []
    | Unmodelled => Res Unmodelled s []
    end.

(** [self._fuctions[func_name]] *)
Definition get_function (func_name : val) : M func_data :=
  fun s => Res (table_get (_fuctions s) func_name) s [].

(** [self._fuctions[func_name] = fd] *)
Definition set_function (func_name : val) (fd : func_data) : M unit :=
  fun s =>
    match table_set (_fuctions s) func_name fd with
    | Ok d => Res (Ok tt) (set_fuctions d s) []
    | Raise e => Res (Raise e) s []
    | OutOfFuel => Res OutOfFuel s []
    | Unmodelled => Res Unmodelled s []
    end.

(** [self._fuctions[func_name]["arguments"][arg_name] = value] *)
Definition set_argument (func_name arg_name value : val) : M unit :=
  let* fd := get_function func_name in
  let* args := pure_outcome (table_set (fd_arguments fd) arg_name value) in
  set_function func_name (FuncData args (fd_commands fd)).

(** [self._fuctions[func_name]["commands"] = commands] *)
Definition set_function_commands (func_name commands : val) : M unit :=
  let* fd := get_function func_name in
  set_function func_name (FuncData (fd_arguments fd) commands).

(** ** [Interpreter._handle_list] and [Interpreter._evaluate] *)

(** The local name [xs] of [_handle_list] is bound only when the list
    name is in [self._lists]; reading it unbound is an
    [UnboundLocalError]. *)
Definition local (xs : option val) : M val :=
  match xs with
  | Some v => ret v
  | None => raise UnboundLocalError
  end.

(** Looking up a method of [xs]: only a list has [insert] and [remove];
    a dict has [pop] as well. The result is the address of the receiver. *)
Inductive receiver : Type :=
| RList (a : nat)
| RDict (a : nat).

Definition list_method (name : string) (xs : val) : M receiver :=
  fun s =>
    match xs with
    | VRef a =>
        match heap s !! a with
        | Some (OList _) => Res (Ok (RList a)) s []
        | Some (ODict _) =>
            if String.eqb name "pop" then Res (Ok (RDict a)) s []
            else Res (Raise AttributeError) s []
        | None => Res Unmodelled s []
        end
    | _ => Res (Raise AttributeError) s []
    end.

(** The call itself, on the receiver as it is at the time of the call. *)
Definition call_on_list (r : receiver) (f : list val -> outcome (list val)) : M unit :=
  fun s =>
    match r with
    | RList a =>
        match heap s !! a with
        | Some (OList xs) =>
            match f xs with
            | Ok ys => Res (Ok tt) (set_heap (<[a := OList ys]> (heap s)) s) []
            | Raise e => Res (Raise e) s []
            | OutOfFuel => Res OutOfFuel s []
            | Unmodelled => Res Unmodelled s []
            end
        | _ => Res Unmodelled s []
        end
    | RDict a => Res (Raise KeyError) s []
    end.

(** The [match command["function"]] statement of [_handle_list]; [xs] is
    the local name, bound or not. *)
Definition list_operation (ev : val -> M val) (command : val) (xs : option val)
    (function : val) : M val :=
  let rebind :=
    (let* xs := local xs in
     let* list_name := field command "list_name" in
     set_list list_name xs ;;
     ret VNone) in
  match function with
  | VStr f =>
      if String.eqb f "empty" then
        let* xs := local xs in
        let* b := truthy xs in
        ret (VBool (negb b))
      else if String.eqb f "len" then
        let* xs := local xs in
        let* n := len xs in
        ret (VInt n)
      else if String.eqb f "get" then
        let* index := field command "index" in
        let* v := ev index in
        let* i := pure_outcome (py_int v) in
        let* xs := local xs in
        getitem xs (VInt i)
      else if String.eqb f "set" then
        let* value := field command "value" in
        let* v := ev value in
        let* xs := local xs in
        let* index := field command "index" in
        let* i := pure_outcome (py_int index) in
        setitem xs (VInt i) v ;;
        rebind
      else if String.eqb f "insert" then
        let* xs := local xs in
        let* r := list_method "insert" xs in
        let* index := field command "index" in
        let* i := pure_outcome (py_int index) in
        let* value := field command "value" in
        let* v := ev value in
        call_on_list r (fun l => list_insert l i v) ;;
        rebind
      else if String.eqb f "remove" then
        let* xs := local xs in
        let* r := list_method "pop" xs in
        let* index := field command "index" in
        let* i := pure_outcome (py_int index) in
        call_on_list r (fun l => list_pop l i) ;;
        rebind
      else if String.eqb f "remove_value" then
        let* xs := local xs in
        let* r := list_method "remove" xs in
        let* value := field command "value" in
        let* v := ev value in
        call_on_list r (fun l => list_remove l v) ;;
        rebind
      else raise InterpreterInvalidCommandError
  | _ => raise InterpreterInvalidCommandError
  end.

Definition _handle_list (ev : val -> M val) (command : val) : M val :=
  try_except
    (let* list_name := field command "list_name" in
     let* bound := (fun s => Res (table_mem (_lists s) list_name) s []) in
     let* xs :=
       (if bound : bool
        then (let* list_name := field command "list_name" in
              let* v := (fun s => Res (table_get (_lists s) list_name) s []) in
              ret (Some v))
        else ret None) in
     let* function := field command "function" in
     list_operation ev command xs function)
    (except_KeyError InterpreterUnboundVariableListError).

(** [for func_data in self._fuctions.values(): if value in
    func_data["arguments"]: return func_data["arguments"][value]] *)
Fixpoint find_argument (fs : list (string * func_data)) (value : string) : option val :=
  match fs with
  | [] => None
  | (_, fd) :: fs' =>
      match dict_get (fd_arguments fd) value with
      | Some v => Some v
      | None => find_argument fs' value
      end
  end.

(** [all(ev(x) for x in o)] when [is_all], [any(...)] otherwise; the
    generator expression reads the list position by position. *)
Fixpoint all_any_from (fuel : nat) (is_all : bool) (ev : val -> M val)
    (o : val) (i : nat) : M val :=
  match fuel with
  | O => out_of_fuel
  | S fuel' =>
      fun s =>
        match o with
        | VRef a =>
            match heap s !! a with
            | Some (OList xs) =>
                match xs !! i with
                | Some x =>
                    (let* v := ev x in
                     let* b := truthy v in
                     if Bool.eqb b is_all then all_any_from fuel' is_all ev o (S i)
                     else ret (VBool b)) s
                | None => Res (Ok (VBool is_all)) s []
                end
            | _ => Res Unmodelled s []
            end
        | VStr _ => Res Unmodelled s []
        | _ => Res (Raise TypeError) s []
        end
  end.

(** ["name" in value and value["name"] == "list"] *)
Definition is_list_query (kvs : list (string * val)) : bool :=
  match dict_get kvs "name" with
  | Some (VStr n) => String.eqb n "list"
  | _ => false
  end.

Definition is_binop (op : string) : bool :=
  existsb (String.eqb op) ["+"; "-"; "*"; "/"; "^"; ">"; ">="; "<"; "<="].

Fixpoint _evaluate (fuel : nat) (value : val) : M val :=
  match fuel with
  | O => out_of_fuel
  | S fuel' =>
      let ev := _evaluate fuel' in
      let operands (k : val -> val -> M val) : M val :=
        (let* left := field value "left" in
         let* a := ev left in
         let* right := field value "right" in
         let* b := ev right in
         k a b) in
      match value with
      | VFloat _ => ret value
      | VStr name =>
          fun s =>
            match find_argument (_fuctions s) name with
            | Some v => Res (Ok v) s []
            | None =>
                if String.eqb name "true" then Res (Ok (VBool true)) s []
                else if String.eqb name "false" then Res (Ok (VBool false)) s []
                else
                  match dict_get (_variables s) name with
                  | Some v => Res (Ok v) s []
                  | None => Res (Raise (InterpreterUnboundVariableError name)) s []
                  end
            end
      | VRef a =>
          fun s =>
            match heap s !! a with
            | Some (ODict kvs) =>
                if is_list_query kvs then _handle_list ev value s
                else
                    try_except
                      (let* op := field value "op" in
                       match op with
                       | VStr op =>
                           if is_binop op then
                             operands (fun a b => pure_outcome (py_binop op a b))
                           else if String.eqb op "neg" then
                             let* e := field value "value" in
                             let* a := ev e in
                             pure_outcome (py_neg a)
                           else if String.eqb op "=" then
                             operands (fun a b =>
                               let* r := pure_outcome (py_eq a b) in ret (VBool r))
                           else if String.eqb op "<>" then
                             operands (fun a b =>
                               let* r := pure_outcome (py_eq a b) in ret (VBool (negb r)))
                           else if String.eqb op "and" then
                             let* l := field value "list" in
                             all_any_from fuel' true ev l 0
                           else if String.eqb op "or" then
                             let* l := field value "list" in
                             all_any_from fuel' false ev l 0
                           else if String.eqb op "not" then
                             let* e := field value "expr" in
                             let* a := ev e in
                             let* b := truthy a in
                             ret (VBool (negb b))
                           else raise InterpreterInvalidCommandError
                       | _ => raise InterpreterInvalidCommandError
                       end)
                      (except_KeyError InterpreterInvalidTreeError) s
            | Some (OList _) => Res (Raise InterpreterInvalidTreeError) s []
            | None => Res Unmodelled s []
            end
      | VNone | VBool _ | VInt _ => raise InterpreterInvalidTreeError
      end
  end.

(** ** Command handlers *)

Section Handlers.
(** The handlers call back into [_interpret] and [_evaluate]. *)
Variable interp : val -> M unit.
Variable ev : val -> M val.

Definition _handle_func_def (command : val) : M unit :=
  let* func_name := field command "func_name" in
  let* arguments := field command "arguments" in
  let* commands := field command "commands" in
  let* empty := alloc (OList []) in
  set_function func_name (FuncData [] empty) ;;
  let* names := list_items arguments in
  for_each names (fun argument => set_argument func_name argument (VStr "")) ;;
  set_function_commands func_name commands.

(** Lines 122 to 126: the evaluated arguments are written, one after the
    other, into the ["arguments"] dict of the function's table entry. *)
Definition bind_arguments (func_name arguments : val) (keys : list string) (n : nat) : M unit :=
  for_range n (fun i =>
    match keys !! i with
    | Some arg_name =>
        let* a := getitem arguments (VInt (Z.of_nat i)) in
        let* evaluated_value := ev a in
        set_argument func_name (VStr arg_name) evaluated_value
    | None => raise IndexError
    end).

Definition _handle_func_call (command : val) : M unit :=
  let* func_name := field command "func_name" in
  let* arguments := field command "arguments" in
  try_except
    (let* fd := get_function func_name in
     let func_args_num := Z.of_nat (length (fd_arguments fd)) in
     let* input_args_num := len arguments in
     if negb (Z.eqb func_args_num input_args_num) then
       raise (InterpreterInvalidFunctionArgumentsError func_name func_args_num input_args_num)
     else
       let* fd := get_function func_name in
       let keys := map fst (fd_arguments fd) in
       let* n := len arguments in
       bind_arguments func_name arguments keys (Z.to_nat n) ;;
       let* fd := get_function func_name in
       try_except (interp (fd_commands fd))
         (fun execution_err =>
            Some (raise (InterpreterFunctionExecutionError func_name execution_err))))
    (except_KeyError (InterpreterUndefinedFunctionError func_name)).

Definition _handle_make (command : val) : M unit :=
  let* var_name := field command "var_name" in
  let* e := field command "value" in
  let* value := ev e in
  set_variable var_name value.

Definition _handle_list_make (command : val) : M unit :=
  let* list_name := field command "list_name" in
  let* value := field command "list" in
  let* is_empty := pure_outcome (py_eq value (VStr "empty")) in
  let* value := (if is_empty : bool then alloc (OList []) else ret value) in
  let* n := len value in
  for_range (Z.to_nat n) (fun i =>
    let* x := getitem value (VInt (Z.of_nat i)) in
    let* v := ev x in
    setitem value (VInt (Z.of_nat i)) v) ;;
  set_list list_name value.

Definition _handle_repeat (command : val) : M unit :=
  let* e := field command "value" in
  let* value := ev e in
  let* n := pure_outcome (py_int value) in
  for_range (Z.to_nat n) (fun _ =>
    let* body := field command "commands" in
    interp body).

Definition _handle_if (command : val) : M unit :=
  let* e := field command "condition" in
  let* condition := ev e in
  let* b := truthy condition in
  if b : bool then
    let* body := field command "commands" in interp body
  else
    let* body := field command "else_commands" in interp body.

(** [_handle_movement], [_handle_setpensize] and [_handle_print] have the
    same body: a new dict with the node's name and the evaluated value. *)
Definition _handle_movement (command : val) : M unit :=
  let* name := field command "name" in
  let* e := field command "value" in
  let* value := ev e in
  yield (YFresh [("name", name); ("value", value)]).

Definition _handle_setpensize (command : val) : M unit := _handle_movement command.
Definition _handle_print (command : val) : M unit := _handle_movement command.

(** [color in self._colors]: only a string equals a palette entry. *)
Definition color_in (color : val) (colors : list string) : bool :=
  match color with
  | VStr c => existsb (String.eqb c) colors
  | _ => false
  end.

Definition _handle_setpencolor (command : val) : M unit :=
  let* color := field command "color" in
  if negb (color_in color _colors) then
    let* color := field command "color" in
    raise (InterpreterInvalidColorError color _colors)
  else yield_node command.

(** The [setpos] case of [_interpret] (lines 76 to 79). *)
Definition handle_setpos (command : val) : M unit :=
  let* ex := field command "x" in
  let* x := ev ex in
  setitem command (VStr "x") x ;;
  let* ey := field command "y" in
  let* y := ev ey in
  setitem command (VStr "y") y ;;
  yield_node command.

Definition name_in (name : string) (names : list string) : bool :=
  existsb (String.eqb name) names.

(** The body of the [for] loop of [_interpret]: [match name]. *)
Definition dispatch (command : val) : M unit :=
  let* name := field command "name" in
  match name with
  | VStr name =>
      if String.eqb name "func_def" then _handle_func_def command
      else if String.eqb name "func_call" then _handle_func_call command
      else if String.eqb name "make" then _handle_make command
      else if String.eqb name "list_make" then _handle_list_make command
      else if String.eqb name "list" then (_handle_list ev command ;; ret tt)
      else if String.eqb name "repeat" then _handle_repeat command
      else if String.eqb name "if" then _handle_if command
      else if name_in name ["forward"; "backward"; "left"; "right"] then
        _handle_movement command
      else if name_in name ["hideturtle"; "showturtle"; "penup"; "pendown"] then
        yield_node command
      else if String.eqb name "setpos" then handle_setpos command
      else if String.eqb name "setpencolor" then _handle_setpencolor command
      else if String.eqb name "setpensize" then _handle_setpensize command
      else if String.eqb name "print" then _handle_print command
      else raise InterpreterInvalidCommandError
  | _ => raise InterpreterInvalidCommandError
  end.

End Handlers.

(** ** [Interpreter._interpret], [__init__] and [__iter__] *)

Fixpoint _interpret (fuel : nat) (commands : val) : M unit :=
  match fuel with
  | O => out_of_fuel
  | S fuel' =>
      try_except
        (for_in_from fuel' commands 0 (dispatch (_interpret fuel') (_evaluate fuel')))
        (except_KeyError InterpreterInvalidTreeError)
  end.

(** The attributes of a new instance before [tree] is read. *)
Definition new_instance (h : list obj) : state := State h [] [] [] VNone.

Definition __init__ (tree : val) : M unit :=
  let* commands :=
    try_except (field tree "tokens")
      (fun e =>
         match e with
         | KeyError | TypeError => Some (raise InterpreterInvalidTreeError)
         | _ => None
         end) in
  fun s => Res (Ok tt) (set_commands commands s) [].

Definition __iter__ (fuel : nat) : M unit :=
  fun s => _interpret fuel (_commands s) s.

(** [list(Interpreter(tree))] on the store [h]: build the instance and
    pull the generator to its end. *)
Definition run (fuel : nat) (tree : val) (h : list obj) : result unit :=
  (__init__ tree ;; __iter__ fuel) (new_instance h).

(** ** Trees as data, and loading them into the store *)

(** A tree as the parser returns it: plain nested data without sharing. *)
#[warnings="-register-all"]
Inductive pyobj : Type :=
| JNone
| JBool (b : bool)
| JInt (z : Z)
| JFloat (f : float)
| JStr (s : string)
| JList (xs : list pyobj)
| JDict (kvs : list (string * pyobj)).

(** [load t h] stores [t] behind the objects of [h]: one new object for
    every list and dict of [t], children before their parent. *)
Fixpoint load (t : pyobj) (h : list obj) : val * list obj :=
  match t with
  | JNone => (VNone, h)
  | JBool b => (VBool b, h)
  | JInt z => (VInt z, h)
  | JFloat f => (VFloat f, h)
  | JStr s => (VStr s, h)
  | JList xs =>
      let '(vs, h1) :=
        (fix items (xs : list pyobj) (h : list obj) : list val * list obj :=
           match xs with
           | [] => ([], h)
           | x :: xs' =>
               let '(v, h1) := load x h in
               let '(vs, h2) := items xs' h1 in
               (v :: vs, h2)
           end) xs h in
      (VRef (length h1), (h1 ++ [OList vs])%list)
  | JDict kvs =>
      let '(d, h1) :=
        (fix entries (kvs : list (string * pyobj)) (d : list (string * val)) (h : list obj)
           : list (string * val) * list obj :=
           match kvs with
           | [] => (d, h)
           | (k, x) :: kvs' =>
               let '(v, h1) := load x h in
               entries kvs' (dict_set d k v) h1
           end) kvs [] h in
      (VRef (length h1), (h1 ++ [ODict d])%list)
  end.

(** Reading a value back as plain data; [None] when [fuel] does not reach
    the leaves or an address is not in the store. *)
Fixpoint dump (fuel : nat) (h : list obj) (v : val) : option pyobj :=
  match fuel with
  | O => None
  | S fuel' =>
      match v with
      | VNone => Some JNone
      | VBool b => Some (JBool b)
      | VInt z => Some (JInt z)
      | VFloat f => Some (JFloat f)
      | VStr s => Some (JStr s)
      | VRef a =>
          match h !! a with
          | Some (OList xs) =>
              option_map JList
                ((fix items (xs : list val) : option (list pyobj) :=
                    match xs with
                    | [] => Some []
                    | x :: xs' =>
                        match dump fuel' h x, items xs' with
                        | Some t, Some ts => Some (t :: ts)
                        | _, _ => None
                        end
                    end) xs)
          | Some (ODict kvs) =>
              option_map JDict
                ((fix entries (kvs : list (string * val)) : option (list (string * pyobj)) :=
                    match kvs with
                    | [] => Some []
                    | (k, x) :: kvs' =>
                        match dump fuel' h x, entries kvs' with
                        | Some t, Some ts => Some ((k, t) :: ts)
                        | _, _ => None
                        end
                    end) kvs)
          | None => None
          end
      end
  end.

(** [interpret_tree fuel t]: parse result [t] in an otherwise empty store,
    one interpreter, run to the end. *)
Definition interpret_tree (fuel : nat) (t : pyobj) : result unit :=
  let '(tree, h) := load t [] in run fuel tree h.

(** ** Notions used in the statements *)

(** The outcome of a computation that did not return, at another type. *)
Definition fail_as {A B} (o : outcome A) : outcome B :=
  match o with
  | Ok _ => Unmodelled
  | Raise e => Raise e
  | OutOfFuel => OutOfFuel
  | Unmodelled => Unmodelled
  end.

Definition is_ok {A} (o : outcome A) : bool :=
  match o with Ok _ => true | _ => false end.

(** The stored object at [a] is one that [_lists] refers to. *)
Definition is_target (T : list (string * val)) (a : nat) : Prop :=
  exists L, dict_get T L = Some (VRef a).

(** [evolves s0 s]: [s] differs from [s0] at most in the contents of
    stored lists that [_lists] refers to. *)
Definition evolves (s0 s : state) : Prop :=
  _variables s = _variables s0 /\ _fuctions s = _fuctions s0 /\
  _lists s = _lists s0 /\ _commands s = _commands s0 /\
  forall a, heap s !! a = heap s0 !! a \/
    (is_target (_lists s0) a /\
     exists xs xs', heap s0 !! a = Some (OList xs) /\ heap s !! a = Some (OList xs')).

(** [frames s0 Q m]: run from any state that evolved from [s0], [m]
    yields nothing, ends in a state that evolved from [s0], and returns
    only values that satisfy [Q]. *)
Definition frames {A} (s0 : state) (Q : A -> Prop) (m : M A) : Prop :=
  forall s, evolves s0 s ->
    yields (m s) = [] /\ evolves s0 (fin (m s)) /\ forall a, res (m s) = Ok a -> Q a.

(** A float literal of the tree, which [_evaluate] returns as it is. *)
Definition is_literal (e : val) : Prop := exists f, e = VFloat f.

(** A Python number. *)
Definition is_number (v : val) : Prop :=
  match v with
  | VFloat _ | VInt _ | VBool _ => True
  | _ => False
  end.

(** [successive body s runs]: [runs] are the results of running [body]
    again and again, the first time from [s] and each further time from
    the state the run before ended in, all ending normally. *)
Fixpoint successive (body : M unit) (s : state) (runs : list (result unit)) : Prop :=
  match runs with
  | [] => True
  | r :: runs' => body s = r /\ res r = Ok tt /\ successive body (fin r) runs'
  end.

(** [_interpret] resumed at position [i] of [commands]: the [for] loop
    from there on, inside the [try] of [_interpret]. *)
Definition interpret_from (fuel : nat) (commands : val) (i : nat) : M unit :=
  try_except
    (for_in_from fuel commands i (dispatch (_interpret fuel) (_evaluate fuel)))
    (except_KeyError InterpreterInvalidTreeError).



(** The state [s] with the stored list at [l] replaced by [xs]. *)
Definition with_list (s : state) (l : nat) (xs : list val) : state :=
  set_heap (<[l := OList xs]> (heap s)) s.

(** A computation that reads the state without changing it or yielding. *)
Definition reads {A} (m : M A) : Prop :=
  forall s, fin (m s) = s /\ yields (m s) = [].

(** A run that ended for a reason of the program, not for lack of fuel. *)
Definition finished {A} (r : result A) : Prop := res r <> OutOfFuel.

(** [refines m m']: wherever [m] finishes, [m'] does the same. *)
Definition refines {A} (m m' : M A) : Prop :=
  forall s, finished (m s) -> m' s = m s.

(** The commands a renderer replays: the names [_interpret] yields. *)
Definition renderer_commands : list string :=
  ["forward"; "backward"; "left"; "right"; "hideturtle"; "showturtle"; "penup"; "pendown";
   "setpos"; "setpencolor"; "setpensize"; "print"].

Definition yielded_fields (y : yielded) : list (string * val) :=
  match y with
  | YNode _ fields => fields
  | YFresh fields => fields
  end.

(** A yielded item whose [name] is one of the renderer's commands. *)
Definition is_renderer_command (y : yielded) : Prop :=
  exists n, dict_get (yielded_fields y) "name" = Some (VStr n) /\ In n renderer_commands.

(** A computation that never yields. *)
Definition silent {A} (m : M A) : Prop := forall s, yields (m s) = [].

(** A computation that yields renderer commands only. *)
Definition emits {A} (m : M A) : Prop :=
  forall s, Forall is_renderer_command (yields (m s)).

(** [runs_in_order body c i s rs]: [rs] are the results of [body] on the
    commands at positions [i], [i + 1], ... of the stored list [c], each
    read from the list as it is when its turn comes and run from the state
    the one before ended in, all ending normally. *)
Fixpoint runs_in_order (body : val -> M unit) (c i : nat) (s : state)
    (rs : list (result unit)) : Prop :=
  match rs with
  | [] => True
  | r :: rs' =>
      (exists xs x, heap s !! c = Some (OList xs) /\ xs !! i = Some x /\ body x s = r) /\
      res r = Ok tt /\ runs_in_order body c (S i) (fin r) rs'
  end.

(** What the [except KeyError] of [_interpret] makes of the way a command
    ended. *)
Definition translated (o : outcome unit) : outcome unit :=
  match o with
  | Raise KeyError => Raise InterpreterInvalidTreeError
  | _ => o
  end.

(** What an identifier evaluates to (lines 243 to 258 of [_evaluate]):
    the value of a parameter of that name of the first function that has
    one, else a truth value for [true] and [false], else the variable. *)
Definition identifier_value (s : state) (x : string) : option val :=
  match find_argument (_fuctions s) x with
  | Some v => Some v
  | None =>
      if String.eqb x "true" then Some (VBool true)
      else if String.eqb x "false" then Some (VBool false)
      else dict_get (_variables s) x
  end.

(** Arithmetic expressions over floats, and the trees that stand for
    them. *)
Inductive binop : Type := Plus | Minus | Times | Over.

Inductive arith : Type :=
| Num (x : float)
| Var (x : string)
| Neg (e : arith)
| Bin (op : binop) (l r : arith).

Definition op_name (op : binop) : string :=
  match op with Plus => "+" | Minus => "-" | Times => "*" | Over => "/" end.

(** [represents h v e]: in the store [h], the value [v] is the tree of
    [e]: a float, an identifier, or an expression node with its ["op"]
    and operands. *)
Fixpoint represents (h : list obj) (v : val) (e : arith) : Prop :=
  match e with
  | Num x => v = VFloat x
  | Var x => v = VStr x
  | Neg e1 =>
      exists a kvs v1,
        v = VRef a /\ h !! a = Some (ODict kvs) /\ is_list_query kvs = false /\
        dict_get kvs "op" = Some (VStr "neg") /\
        dict_get kvs "value" = Some v1 /\ represents h v1 e1
  | Bin op l r =>
      exists a kvs vl vr,
        v = VRef a /\ h !! a = Some (ODict kvs) /\ is_list_query kvs = false /\
        dict_get kvs "op" = Some (VStr (op_name op)) /\
        dict_get kvs "left" = Some vl /\ dict_get kvs "right" = Some vr /\
        represents h vl l /\ represents h vr r
  end.

Fixpoint depth (e : arith) : nat :=
  match e with
  | Num _ | Var _ => 0
  | Neg e1 => S (depth e1)
  | Bin _ l r => S (Nat.max (depth l) (depth r))
  end.

Fixpoint vars (e : arith) : list string :=
  match e with
  | Num _ => []
  | Var x => [x]
  | Neg e1 => vars e1
  | Bin _ l r => (vars l ++ vars r)%list
  end.

(** The float an expression denotes when its identifiers stand for the
    floats [env] gives; [None] when a divisor is zero. *)
Fixpoint value_of (env : string -> float) (e : arith) : option float :=
  match e with
  | Num x => Some x
  | Var x => Some (env x)
  | Neg e1 =>
      match value_of env e1 with
      | Some x => Some (- x)%float
      | None => None
      end
  | Bin op l r =>
      match value_of env l, value_of env r with
      | Some x, Some y =>
          match op with
          | Plus => Some (x + y)%float
          | Minus => Some (x - y)%float
          | Times => Some (x * y)%float
          | Over => if PrimFloat.eqb y 0%float then None else Some (x / y)%float
          end
      | _, _ => None
      end
  end.

(** The operators [_evaluate] has a case for. *)
Definition operators : list string :=
  ["+"; "-"; "*"; "/"; "^"; ">"; ">="; "<"; "<="; "neg"; "="; "<>"; "and"; "or"; "not"].

(** The operator name of a conjunction or a disjunction. *)
Definition connective (is_all : bool) : string := if is_all then "and" else "or".

(** The names of a parameter list without the repetitions of a name that
    is in [seen] or came earlier in the list. *)
Fixpoint distinct_from (seen names : list string) : list string :=
  match names with
  | [] => []
  | n :: names' =>
      if existsb (String.eqb n) seen then distinct_from seen names'
      else n :: distinct_from (n :: seen) names'
  end.





(** The comparisons of [_evaluate] and what they say of two floats. *)
Inductive relation_op : Type := Less | LessEq | Greater | GreaterEq | Equal | Unequal.

Definition relation_name (c : relation_op) : string :=
  match c with
  | Less => "<" | LessEq => "<=" | Greater => ">" | GreaterEq => ">="
  | Equal => "=" | Unequal => "<>"
  end.

Definition holds (c : relation_op) (x y : float) : bool :=
  match c with
  | Less => PrimFloat.ltb x y
  | LessEq => PrimFloat.leb x y
  | Greater => PrimFloat.ltb y x
  | GreaterEq => PrimFloat.leb y x
  | Equal => PrimFloat.eqb x y
  | Unequal => negb (PrimFloat.eqb x y)
  end.

(** ** Example programs *)

Definition node (name : string) (fields : list (string * pyobj)) : pyobj :=
  JDict (("name", JStr name) :: fields).

Definition program (commands : list pyobj) : pyobj :=
  JDict [("tokens", JList commands)].

Definition list_node (list_name function : string) (fields : list (string * pyobj)) : pyobj :=
  node "list" (("list_name", JStr list_name) :: ("function", JStr function) :: fields).

Definition forward (value : pyobj) : pyobj := node "forward" [("value", value)].

Definition print (value : pyobj) : pyobj := node "print" [("value", value)].

Definition func_def (name : string) (params : list string) (body : list pyobj) : pyobj :=
  node "func_def" [("func_name", JStr name); ("arguments", JList (map JStr params));
                   ("commands", JList body)].

Definition func_call (name : string) (args : list pyobj) : pyobj :=
  node "func_call" [("func_name", JStr name); ("arguments", JList args)].

Definition make (var_name : string) (value : pyobj) : pyobj :=
  node "make" [("var_name", JStr var_name); ("value", value)].

Definition list_make (list_name : string) (items : list pyobj) : pyobj :=
  node "list_make" [("list_name", JStr list_name); ("list", JList items)].

(** A new interpreter over a store that holds just [t]. *)
Definition loaded (t : pyobj) : state := new_instance (snd (load t [])).

(** [list_make L [1]], [insert L 0 9], [print len L]. *)
Definition growing_list : pyobj :=
  program [list_make "L" [JFloat 1];
           list_node "L" "insert" [("index", JInt 0); ("value", JFloat 9)];
           print (list_node "L" "len" [])].

(** [to f :x end], [make x 5], [forward :x]. *)
Definition shadowed_global : pyobj :=
  program [func_def "f" ["x"] []; make "x" (JFloat 5); forward (JStr "x")].

(** [to f :a :b  if :b [f 2 false]  forward :a  end], [f 1 true]. *)
Definition nested_call : pyobj :=
  program [func_def "f" ["a"; "b"]
             [node "if" [("condition", JStr "b");
                         ("commands", JList [func_call "f" [JFloat 2; JStr "false"]]);
                         ("else_commands", JList [])];
              forward (JStr "a")];
           func_call "f" [JFloat 1; JStr "true"]].

(** [len L] with no list [L]. *)
Definition unbound_list : pyobj := program [list_node "L" "len" []].

(** [list_make L [1 2 3]], [print get L 1], [insert L 0 9],
    [print get L 0], [remove_value L 9], [print len L], [print empty L]. *)
Definition list_round_trip : pyobj :=
  program [list_make "L" [JFloat 1; JFloat 2; JFloat 3];
           print (list_node "L" "get" [("index", JFloat 1)]);
           list_node "L" "insert" [("index", JInt 0); ("value", JFloat 9)];
           print (list_node "L" "get" [("index", JFloat 0)]);
           list_node "L" "remove_value" [("value", JFloat 9)];
           print (list_node "L" "len" []);
           print (list_node "L" "empty" [])].

(** The state of [list_round_trip] when its last command has run. *)
Definition after_round_trip : state := fin (interpret_tree 10 list_round_trip).

Definition red_pen : pyobj := node "setpencolor" [("color", JStr "red")].
Definition purple_pen : pyobj := node "setpencolor" [("color", JStr "purple")].

(** [setpos :x 0] and [forward :x], as two nodes of one store. *)
Definition setpos_and_forward : pyobj :=
  JList [node "setpos" [("x", JStr "x"); ("y", JFloat 0)]; forward (JStr "x")].

(** The nodes of [setpos_and_forward] with the variable [x] set to 5. *)
Definition x_is_five : state :=
  set_variables [("x", VFloat 5)] (loaded setpos_and_forward).

(** [repeat 3 [forward 10]] *)
Definition repeat_three : pyobj :=
  node "repeat" [("value", JFloat 3); ("commands", JList [forward (JFloat 10)])].

(** [make x 0], [repeat 2 [make x :x + 1  forward :x]] *)
Definition counting_repeat : pyobj :=
  program [make "x" (JFloat 0);
           node "repeat"
             [("value", JFloat 2);
              ("commands",
               JList [make "x" (JDict [("op", JStr "+"); ("left", JStr "x");
                                       ("right", JFloat 1)]);
                      forward (JStr "x")])]].

(** [to f :a  forward end] (the body's [forward] has no value), and three
    calls: [g 1] of an unknown name, [f 1 2] with one argument too many,
    and [f 1]. The store holds the four nodes. *)
Definition calls : pyobj :=
  JList [func_def "f" ["a"] [node "forward" []];
         func_call "g" [JFloat 1];
         func_call "f" [JFloat 1; JFloat 2];
         func_call "f" [JFloat 1]].

(** The state after the definition of [f] in [calls]. *)
Definition f_defined : state :=
  fin (dispatch (_interpret 0) (_evaluate 0) (VRef 3) (loaded calls)).

(** [to f  forward end  f]: the [forward] in the body has no value. *)
Definition missing_value_in_body : pyobj :=
  program [func_def "f" [] [node "forward" []]; func_call "f" []].

(** [list_make L []] and then a [list] node without its function. *)
Definition list_without_function : pyobj :=
  program [list_make "L" []; node "list" [("list_name", JStr "L")]].


(** [list_make L [1 2 3]] and one node for each list operation. *)
Definition list_operations : pyobj :=
  JList [list_make "L" [JFloat 1; JFloat 2; JFloat 3];
         list_node "L" "set" [("index", JInt 0); ("value", JFloat 7)];
         list_node "L" "insert" [("index", JInt 0); ("value", JFloat 9)];
         list_node "L" "remove" [("index", JInt 0)];
         list_node "L" "get" [("index", JFloat 1)];
         list_node "L" "remove_value" [("value", JFloat 2)]].

(** The nodes of [list_operations] when [L] has been made. *)
Definition list_made : state :=
  fin (dispatch (_interpret 1) (_evaluate 1) (VRef 1) (loaded list_operations)).

(** An evaluator that refuses integers, such as the index of the nodes
    above. *)
Definition no_integers (e : val) : M val :=
  match e with
  | VInt _ => raise ValueError
  | _ => _evaluate 1 e
  end.

(** [make i 0], [list_make L [1 2 3]], and then either [print get L :i]
    or [set L :i 5]. *)
Definition get_by_variable : pyobj :=
  program [make "i" (JFloat 0); list_make "L" [JFloat 1; JFloat 2; JFloat 3];
           print (list_node "L" "get" [("index", JStr "i")])].
Definition set_by_variable : pyobj :=
  program [make "i" (JFloat 0); list_make "L" [JFloat 1; JFloat 2; JFloat 3];
           list_node "L" "set" [("index", JStr "i"); ("value", JFloat 5)]].

(** [forward 1], [make x 2], and a [forward] without its value. *)
Definition two_then_malformed : pyobj :=
  JList [forward (JFloat 1); make "x" (JFloat 2); node "forward" []].

(** [to f :x end] has been defined, and the nodes of [make x 5] and
    [make y 5] are in the store. *)
Definition two_makes : state :=
  set_fuctions [("f", FuncData [("x", VStr "")] VNone)]
    (loaded (JList [make "x" (JFloat 5); make "y" (JFloat 5)])).

(** The variable [x] is 5, and the nodes of [list_make L [1 :x]] and
    [list_make E empty] are in the store. *)
Definition two_list_makes : state :=
  set_variables [("x", VFloat 5)]
    (loaded (JList [list_make "L" [JFloat 1; JStr "x"];
                    node "list_make" [("list_name", JStr "E"); ("list", JStr "empty")]])).

(** [to f :a :b  forward :a  forward :b  end] has been defined and called
    with 1 and 2; the nodes of the calls [f 3 4] and [f :b :a] are in the
    store behind the body. *)
Definition f_called : state :=
  set_fuctions [("f", FuncData [("a", VFloat 1); ("b", VFloat 2)] (VRef 2))]
    (loaded (JList [JList [forward (JStr "a"); forward (JStr "b")];
                    func_call "f" [JFloat 3; JFloat 4];
                    func_call "f" [JStr "b"; JStr "a"]])).

(** The list [L] is [1 2 3] and the variable [i] is 0; behind the list
    are the nodes of [get L 3], [set L 5 7], [remove L -4],
    [remove_value L 9], [set L :i 7], a [list] node with neither name nor
    function, [get L] without its index, and [len M], [get M 0] and
    [set M 0 7] for a list [M] that does not exist. *)
Definition list_edge_cases : state :=
  set_variables [("i", VFloat 0)]
    (set_lists [("L", VRef 0)]
       (loaded (JList [JList [JFloat 1; JFloat 2; JFloat 3];
                       list_node "L" "get" [("index", JFloat 3)];
                       list_node "L" "set" [("index", JInt 5); ("value", JFloat 7)];
                       list_node "L" "remove" [("index", JInt (-4))];
                       list_node "L" "remove_value" [("value", JFloat 9)];
                       list_node "L" "set" [("index", JStr "i"); ("value", JFloat 7)];
                       node "list" [];
                       list_node "L" "get" [];
                       list_node "M" "len" [];
                       list_node "M" "get" [("index", JFloat 0)];
                       list_node "M" "set" [("index", JInt 0); ("value", JFloat 7)]]))).

(** The variable [x] is 5, and the trees of [(:x + 1) * 2] and of
    [1 / (:x - :x)] are in the store. *)
Definition arithmetic_examples : state :=
  set_variables [("x", VFloat 5)]
    (loaded (JList [JDict [("op", JStr "*");
                           ("left", JDict [("op", JStr "+"); ("left", JStr "x");
                                           ("right", JFloat 1)]);
                           ("right", JFloat 2)];
                    JDict [("op", JStr "/");
                           ("left", JFloat 1);
                           ("right", JDict [("op", JStr "-"); ("left", JStr "x");
                                            ("right", JStr "x")])]])).

(** The trees of [and [1 0 :nowhere]] and [or [0 0]], and an expression
    node with the unknown operator [%]; no variable is set. *)
Definition connectives : state :=
  loaded (JList [JDict [("op", JStr "and");
                        ("list", JList [JFloat 1; JFloat 0; JStr "nowhere"])];
                 JDict [("op", JStr "or"); ("list", JList [JFloat 0; JFloat 0])];
                 JDict [("op", JStr "%"); ("left", JFloat 1); ("right", JFloat 2)]]).

(** The variable [x] is 5, and the trees of [:x + 1 > 5] and of
    [:x / 0 = 1] are in the store. *)
Definition comparisons : state :=
  set_variables [("x", VFloat 5)]
    (loaded (JList [JDict [("op", JStr ">");
                           ("left", JDict [("op", JStr "+"); ("left", JStr "x");
                                           ("right", JFloat 1)]);
                           ("right", JFloat 5)];
                    JDict [("op", JStr "=");
                           ("left", JDict [("op", JStr "/"); ("left", JStr "x");
                                           ("right", JFloat 0)]);
                           ("right", JFloat 1)]])).

(** [to f :a :a  forward :a  end] and the call [f 1], as two nodes of one
    store. *)
Definition repeated_name : pyobj :=
  JList [func_def "f" ["a"; "a"] [forward (JStr "a")]; func_call "f" [JFloat 1]].

(** The state after the definition of [f] in [repeated_name]. *)
Definition repeated_name_defined : state :=
  fin (dispatch (_interpret 0) (_evaluate 0) (VRef 3) (loaded repeated_name)).



(** * Properties *)

(** ** Dicts *)

Section DictFacts.
Context {V : Type}.
Implicit Types (d : list (string * V)) (k : string) (v : V).

Lemma dict_get_set_eq d k v : dict_get (dict_set d k v) k = Some v.
Proof.
  induction d as [|[k' v'] d IH]; simpl.
  - now rewrite String.eqb_refl.
  - destruct (String.eqb k' k) eqn:E; simpl; rewrite E; auto.
Qed.

Lemma dict_get_set_ne d k k' v : k <> k' -> dict_get (dict_set d k v) k' = dict_get d k'.
Proof.
  intros Hne. induction d as [|[k0 v0] d IH]; simpl.
  - destruct (String.eqb k k') eqn:E; auto.
    apply String.eqb_eq in E. contradiction.
  - destruct (String.eqb k0 k) eqn:E; simpl.
    + apply String.eqb_eq in E. subst k0.
      destruct (String.eqb k k') eqn:E'; auto.
      apply String.eqb_eq in E'. contradiction.
    + now rewrite IH.
Qed.

Lemma dict_set_length_mem d k v :
  dict_get d k <> None -> length (dict_set d k v) = length d.
Proof.
  induction d as [|[k0 v0] d IH]; simpl; [congruence|].
  destruct (String.eqb k0 k); simpl; auto.
Qed.


Lemma dict_set_same d k v : dict_get d k = Some v -> dict_set d k v = d.
Proof.
  induction d as [|[k0 v0] d IH]; simpl; [discriminate|].
  destruct (String.eqb k0 k) eqn:E.
  - now intros [= ->].
  - intros H. now rewrite IH.
Qed.

End DictFacts.

(** ** Stepping through the monad *)

Lemma bind_ok {A B} (m : M A) (k : A -> M B) s a s1 ys1 :
  m s = Res (Ok a) s1 ys1 ->
  bind m k s = Res (res (k a s1)) (fin (k a s1)) (ys1 ++ yields (k a s1)).
Proof. intros H. unfold bind. now rewrite H. Qed.

Lemma bind_ok_nil {A B} (m : M A) (k : A -> M B) s a s1 :
  m s = Res (Ok a) s1 [] -> bind m k s = k a s1.
Proof. intros H. rewrite (bind_ok _ _ _ _ _ _ H). simpl. now destruct (k a s1). Qed.

Lemma bind_fail {A B} (m : M A) (k : A -> M B) s o s1 ys1 :
  m s = Res o s1 ys1 -> is_ok o = false ->
  bind m k s = Res (fail_as o) s1 ys1.
Proof. intros H Ho. unfold bind. rewrite H. destruct o; simpl in *; congruence. Qed.

Lemma field_ok s a kvs k v :
  heap s !! a = Some (ODict kvs) -> dict_get kvs k = Some v ->
  field (VRef a) k s = Res (Ok v) s [].
Proof.
  intros Ha Hk. unfold field, getitem, lift, py_getitem. now rewrite Ha, Hk.
Qed.

Lemma field_missing s a kvs k :
  heap s !! a = Some (ODict kvs) -> dict_get kvs k = None ->
  field (VRef a) k s = Res (Raise KeyError) s [].
Proof.
  intros Ha Hk. unfold field, getitem, lift, py_getitem. now rewrite Ha, Hk.
Qed.


(** ** What expression evaluation can change *)

Lemma evolves_refl s : evolves s s.
Proof. repeat split; auto. Qed.

Lemma evolves_dict s0 s a kvs :
  evolves s0 s -> (heap s !! a = Some (ODict kvs) <-> heap s0 !! a = Some (ODict kvs)).
Proof.
  intros (_ & _ & _ & _ & H). destruct (H a) as [E | (_ & xs & xs' & E0 & E1)].
  - now rewrite E.
  - rewrite E0, E1. split; discriminate.
Qed.

Lemma evolves_update s0 s a xs ys :
  evolves s0 s -> is_target (_lists s0) a -> heap s !! a = Some (OList xs) ->
  evolves s0 (set_heap (<[a := OList ys]> (heap s)) s).
Proof.
  intros (Hv & Hf & Hl & Hc & H) Ht Ha. repeat split; auto. simpl.
  intros b. destruct (Nat.eq_dec a b) as [<- | Hne].
  - right. split; [assumption|].
    rewrite list_lookup_insert_eq by (eapply lookup_lt_Some; eauto).
    destruct (H a) as [E | (_ & xs0 & xs' & E0 & E1)].
    + exists xs, ys. split; [congruence | reflexivity].
    + exists xs0, ys. split; [assumption | reflexivity].
  - rewrite list_lookup_insert_ne by assumption. apply H.
Qed.

Lemma frames_weaken {A} s0 (Q Q' : A -> Prop) m :
  frames s0 Q m -> (forall a, Q a -> Q' a) -> frames s0 Q' m.
Proof. intros H HQ s Hs. destruct (H s Hs) as (? & ? & ?). auto. Qed.

Lemma frames_reads {A} s0 (Q : A -> Prop) (m : M A) :
  (forall s, evolves s0 s -> exists o, m s = Res o s [] /\ forall a, o = Ok a -> Q a) ->
  frames s0 Q m.
Proof.
  intros H s Hs. destruct (H s Hs) as (o & -> & HQ). simpl. auto.
Qed.

Lemma frames_ret {A} s0 (Q : A -> Prop) a : Q a -> frames s0 Q (ret a).
Proof. intros H. apply frames_reads. intros s _. exists (Ok a). split; [reflexivity|]. now intros ? [= <-]. Qed.

Lemma frames_raise {A} s0 (Q : A -> Prop) e : frames s0 Q (raise e).
Proof. apply frames_reads. intros s _. exists (Raise e). split; [reflexivity|]. discriminate. Qed.

Lemma frames_pure {A} s0 (o : outcome A) : frames s0 (fun a => o = Ok a) (pure_outcome o).
Proof. apply frames_reads. intros s _. exists o. split; [reflexivity|]. auto. Qed.

Lemma frames_bind {A B} s0 (Q : A -> Prop) (Q' : B -> Prop) m k :
  frames s0 Q m -> (forall a, Q a -> frames s0 Q' (k a)) -> frames s0 Q' (bind m k).
Proof.
  intros Hm Hk s Hs. destruct (Hm s Hs) as (Hy & He & HQ). unfold bind.
  destruct (m s) as [[a| e | |] s1 ys1]; simpl in *; subst ys1;
    try (split; [reflexivity | split; [assumption | discriminate]]).
  destruct (Hk a (HQ a eq_refl) s1 He) as (Hy' & He' & HQ').
  simpl. auto.
Qed.

Lemma frames_try_except {A} s0 (Q : A -> Prop) m h :
  frames s0 Q m -> (forall e k, h e = Some k -> frames s0 Q k) ->
  frames s0 Q (try_except m h).
Proof.
  intros Hm Hh s Hs. destruct (Hm s Hs) as (Hy & He & HQ). unfold try_except.
  destruct (m s) as [[a| e | |] s1 ys1]; simpl in *; subst ys1; auto.
  destruct (h e) as [k|] eqn:E; simpl; auto.
  destruct (Hh e k E s1 He) as (Hy' & He' & HQ'). auto.
Qed.

Lemma frames_except_KeyError {A} s0 (Q : A -> Prop) m e' :
  frames s0 Q m -> frames s0 Q (try_except m (except_KeyError e')).
Proof.
  intros Hm. apply frames_try_except; [assumption|].
  intros e k. destruct e; simpl; try discriminate. intros [= <-]. apply frames_raise.
Qed.

Lemma frames_lift {A} s0 (f : list obj -> outcome A) : frames s0 (fun _ => True) (lift f).
Proof. apply frames_reads. intros s _. exists (f (heap s)). split; [reflexivity | auto]. Qed.

(** A field read returns what the node held in [s0]: dicts do not change. *)
Lemma frames_field s0 command k :
  frames s0
    (fun v => exists a kvs, command = VRef a /\ heap s0 !! a = Some (ODict kvs) /\
                            dict_get kvs k = Some v)
    (field command k).
Proof.
  apply frames_reads. intros s Hs. eexists. split; [reflexivity|].
  intros v. unfold py_getitem. destruct command; try discriminate.
  destruct (heap s !! a) as [[xs|kvs]|] eqn:E; try discriminate.
  destruct (dict_get kvs k) eqn:Ek; [|discriminate]. intros [= <-].
  exists a, kvs. repeat split; auto. now apply (evolves_dict s0 s).
Qed.

Ltac frames_done :=
  simpl; split; [reflexivity | split; [try eassumption | intros; auto; try discriminate]].

Lemma frames_setitem_target s0 xs i v :
  (forall a, xs = VRef a -> is_target (_lists s0) a) ->
  frames s0 (fun _ => True) (setitem xs (VInt i) v).
Proof.
  intros Ht s Hs. unfold setitem, py_setitem.
  destruct xs; try frames_done.
  destruct (heap s !! a) as [[l|kvs]|] eqn:E; try frames_done.
  simpl. destruct (seq_index (length l) i); try frames_done.
  eapply evolves_update; eauto.
Qed.

Lemma frames_list_method s0 name xs :
  frames s0 (fun r => match r with RList a => xs = VRef a | RDict _ => True end)
    (list_method name xs).
Proof.
  apply frames_reads. intros s _. unfold list_method.
  destruct xs; try (eexists; split; [reflexivity | discriminate]).
  destruct (heap s !! a) as [[l|kvs]|];
    try (eexists; split; [reflexivity | discriminate]).
  - eexists; split; [reflexivity|]. now intros ? [= <-].
  - destruct (String.eqb name "pop"); eexists; split; try reflexivity; try discriminate.
    now intros ? [= <-].
Qed.

Lemma frames_call_on_list s0 r f :
  (forall a, r = RList a -> is_target (_lists s0) a) ->
  frames s0 (fun _ => True) (call_on_list r f).
Proof.
  intros Ht s Hs. unfold call_on_list. destruct r; try frames_done.
  destruct (heap s !! a) as [[l|kvs]|] eqn:E; try frames_done.
  destruct (f l); try frames_done.
  eapply evolves_update; eauto.
Qed.

Lemma frames_set_list_same s0 list_name xs :
  table_get (_lists s0) list_name = Ok xs ->
  frames s0 (fun _ => True) (set_list list_name xs).
Proof.
  intros Hg. apply frames_reads. intros s (Hv & Hf & Hl & Hc & H).
  unfold set_list. rewrite Hl.
  destruct list_name; simpl in *; try (eexists; split; [reflexivity | auto]).
  destruct (dict_get (_lists s0) s1) eqn:E; [|discriminate]. injection Hg as ->.
  rewrite (dict_set_same _ _ _ E). rewrite <- Hl.
  exists (Ok tt). split; [|auto]. destruct s; reflexivity.
Qed.

Lemma frames_lists_get s0 list_name :
  frames s0 (fun v => table_get (_lists s0) list_name = Ok v)
    (fun s => Res (table_get (_lists s) list_name) s []).
Proof.
  apply frames_reads. intros s (_ & _ & Hl & _). rewrite Hl.
  eexists. split; [reflexivity | auto].
Qed.

Lemma frames_lists_mem s0 list_name :
  frames s0 (fun _ => True) (fun s => Res (table_mem (_lists s) list_name) s []).
Proof. apply frames_reads. intros s _. eexists. split; [reflexivity | auto]. Qed.

Lemma frames_local s0 xs : frames s0 (fun v => xs = Some v) (local xs).
Proof.
  destruct xs; simpl; [apply frames_ret; reflexivity | apply frames_raise].
Qed.

Lemma table_get_target (T : list (string * val)) list_name a :
  table_get T list_name = Ok (VRef a) -> is_target T a.
Proof.
  destruct list_name; simpl; try discriminate.
  destruct (dict_get T s) eqn:E; [|discriminate]. intros [= ->]. now exists s.
Qed.

Section HandleListFrames.
Variable ev : val -> M val.
Hypothesis ev_frames : forall s0 v, frames s0 (fun _ => True) (ev v).

Lemma _handle_list_frames s0 command : frames s0 (fun _ => True) (_handle_list ev command).
Proof.
  unfold _handle_list. apply frames_except_KeyError.
  eapply frames_bind; [apply frames_field|]. intros list_name (a & kvs & -> & Ha & Hln).
  eapply frames_bind; [apply frames_lists_mem|]. intros bound _.
  eapply frames_bind with (Q := fun xs => forall v, xs = Some v ->
                                  table_get (_lists s0) list_name = Ok v).
  { destruct bound; [|apply frames_ret; discriminate].
    eapply frames_bind; [apply frames_field|].
    intros list_name' (a' & kvs' & [= <-] & Ha' & Hln').
    assert (list_name' = list_name) as -> by congruence.
    eapply frames_bind; [apply frames_lists_get|]. intros v Hv.
    apply frames_ret. now intros ? [= <-]. }
  intros xs Hxs.
  assert (Hrebind : frames s0 (fun _ => True)
            (let* xs0 := local xs in
             let* list_name0 := field (VRef a) "list_name" in
             set_list list_name0 xs0;; ret VNone)).
  { eapply frames_bind; [apply frames_local|]. intros v ->.
    eapply frames_bind; [apply frames_field|].
    intros list_name' (a' & kvs' & [= <-] & Ha' & Hln').
    assert (list_name' = list_name) as -> by congruence.
    eapply frames_bind; [apply frames_set_list_same; auto|]. intros _ _.
    now apply frames_ret. }
  eapply frames_bind; [apply frames_field|]. intros function _.
  unfold list_operation. destruct function; try apply frames_raise.
  repeat match goal with
         | |- frames _ _ (if ?b then _ else _) => destruct b
         end; try apply frames_raise.
  - eapply frames_bind; [apply frames_local|]. intros v _.
    eapply frames_bind; [apply frames_lift|]. intros b _. now apply frames_ret.
  - eapply frames_bind; [apply frames_local|]. intros v _.
    eapply frames_bind; [apply frames_lift|]. intros b _. now apply frames_ret.
  - eapply frames_bind; [apply frames_field|]. intros index _.
    eapply frames_bind; [apply ev_frames|]. intros v _.
    eapply frames_bind; [apply frames_pure|]. intros i _.
    eapply frames_bind; [apply frames_local|]. intros x _.
    apply frames_lift.
  - eapply frames_bind; [apply frames_field|]. intros value _.
    eapply frames_bind; [apply ev_frames|]. intros v _.
    eapply frames_bind; [apply frames_local|]. intros x ->.
    eapply frames_bind; [apply frames_field|]. intros index _.
    eapply frames_bind; [apply frames_pure|]. intros i _.
    eapply frames_bind; [apply frames_setitem_target|].
    { intros b ->. eapply table_get_target. now apply Hxs. }
    intros _ _. apply Hrebind.
  - eapply frames_bind; [apply frames_local|]. intros x ->.
    eapply frames_bind; [apply frames_list_method|]. intros r Hr.
    eapply frames_bind; [apply frames_field|]. intros index _.
    eapply frames_bind; [apply frames_pure|]. intros i _.
    eapply frames_bind; [apply frames_field|]. intros value _.
    eapply frames_bind; [apply ev_frames|]. intros v _.
    eapply frames_bind; [apply frames_call_on_list|].
    { intros b ->. simpl in Hr. subst x. eapply table_get_target. now apply Hxs. }
    intros _ _. apply Hrebind.
  - eapply frames_bind; [apply frames_local|]. intros x ->.
    eapply frames_bind; [apply frames_list_method|]. intros r Hr.
    eapply frames_bind; [apply frames_field|]. intros index _.
    eapply frames_bind; [apply frames_pure|]. intros i _.
    eapply frames_bind; [apply frames_call_on_list|].
    { intros b ->. simpl in Hr. subst x. eapply table_get_target. now apply Hxs. }
    intros _ _. apply Hrebind.
  - eapply frames_bind; [apply frames_local|]. intros x ->.
    eapply frames_bind; [apply frames_list_method|]. intros r Hr.
    eapply frames_bind; [apply frames_field|]. intros value _.
    eapply frames_bind; [apply ev_frames|]. intros v _.
    eapply frames_bind; [apply frames_call_on_list|].
    { intros b ->. simpl in Hr. subst x. eapply table_get_target. now apply Hxs. }
    intros _ _. apply Hrebind.
Qed.
End HandleListFrames.

Lemma frames_out_of_fuel {A} s0 (Q : A -> Prop) : frames s0 Q out_of_fuel.
Proof. apply frames_reads. intros s _. exists OutOfFuel. split; [reflexivity | discriminate]. Qed.

Lemma all_any_frames ev :
  (forall s0 v, frames s0 (fun _ => True) (ev v)) ->
  forall fuel is_all o i s0, frames s0 (fun _ => True) (all_any_from fuel is_all ev o i).
Proof.
  intros Hev. induction fuel as [|fuel IH]; intros is_all o i s0; simpl.
  - apply frames_out_of_fuel.
  - intros s Hs. destruct o; try frames_done.
    destruct (heap s !! a) as [[xs|kvs]|]; try frames_done.
    destruct (xs !! i) as [x|]; try frames_done.
    revert s Hs. change (frames s0 (fun _ : val => True)
      (let* v := ev x in let* b := truthy v in
       if Bool.eqb b is_all then all_any_from fuel is_all ev (VRef a) (S i)
       else ret (VBool b))).
    eapply frames_bind; [apply Hev|]. intros v _.
    eapply frames_bind; [apply frames_lift|]. intros b _.
    destruct (Bool.eqb b is_all); [apply IH | now apply frames_ret].
Qed.

(** Evaluating an expression yields nothing, leaves the three tables and
    every dict of the store as they are, and changes stored lists only
    where [_lists] refers to them. *)
Lemma _evaluate_frames fuel : forall s0 value, frames s0 (fun _ => True) (_evaluate fuel value).
Proof.
  induction fuel as [|fuel IH]; intros s0 value; simpl.
  - apply frames_out_of_fuel.
  - assert (Hops : forall k : val -> val -> M val,
               (forall a b, frames s0 (fun _ => True) (k a b)) ->
               frames s0 (fun _ => True)
                 (let* left := field value "left" in
                  let* a := _evaluate fuel left in
                  let* right := field value "right" in
                  let* b := _evaluate fuel right in k a b)).
    { intros k Hk.
      eapply frames_bind; [apply frames_field|]. intros l _.
      eapply frames_bind; [apply IH|]. intros a _.
      eapply frames_bind; [apply frames_field|]. intros r _.
      eapply frames_bind; [apply IH|]. intros b _. apply Hk. }
    destruct value; try apply frames_raise.
    + now apply frames_ret.
    + apply frames_reads. intros st (Hv & Hf & _).
      destruct (find_argument (_fuctions st) s); [eexists; split; [reflexivity | auto]|].
      destruct (String.eqb s "true"); [eexists; split; [reflexivity | auto]|].
      destruct (String.eqb s "false"); [eexists; split; [reflexivity | auto]|].
      destruct (dict_get (_variables st) s); eexists; split; try reflexivity; auto.
    + intros s Hs. destruct (heap s !! a) as [[xs|kvs]|]; try frames_done.
      destruct (is_list_query kvs).
      * now apply _handle_list_frames.
      * revert s Hs. apply frames_except_KeyError.
        eapply frames_bind; [apply frames_field|]. intros op _.
        destruct op; try apply frames_raise.
        repeat match goal with
               | |- frames _ _ (if ?b then _ else _) => destruct b
               end; try apply frames_raise.
        -- apply Hops. intros x y. eapply frames_weaken; [apply frames_pure | auto].
        -- eapply frames_bind; [apply frames_field|]. intros e _.
           eapply frames_bind; [apply IH|]. intros x _.
           eapply frames_weaken; [apply frames_pure | auto].
        -- apply Hops. intros x y.
           eapply frames_bind; [apply frames_pure|]. intros r _. now apply frames_ret.
        -- apply Hops. intros x y.
           eapply frames_bind; [apply frames_pure|]. intros r _. now apply frames_ret.
        -- eapply frames_bind; [apply frames_field|]. intros l _.
           now apply all_any_frames.
        -- eapply frames_bind; [apply frames_field|]. intros l _.
           now apply all_any_frames.
        -- eapply frames_bind; [apply frames_field|]. intros e _.
           eapply frames_bind; [apply IH|]. intros x _.
           eapply frames_bind; [apply frames_lift|]. intros b _. now apply frames_ret.
Qed.

(** The form used below: from [s] itself. *)
Lemma _evaluate_effect fuel value s :
  let r := _evaluate fuel value s in
  yields r = [] /\ evolves s (fin r).
Proof.
  destruct (_evaluate_frames fuel s value s (evolves_refl s)) as (H1 & H2 & _). auto.
Qed.

(** ** Runs of one tree by two interpreters (C1) *)

(** C1, at a failing input. The tree is [list_make L [1]], [insert L 0 9],
    [print len L]. A new interpreter over the tree as parsed prints 2.
    [list_make] stores the tree's own list in [_lists] and [insert] writes
    into it, so after that run the tree reads [list_make L [9 1]], and a
    second new interpreter over the same tree prints 3 and ends with
    [L = [9 9 1]]: it observes the first run. *)
Theorem second_run_observes_first :
  let tree := fst (load growing_list []) in
  let h := snd (load growing_list []) in
  let first := run 10 tree h in
  let second := run 10 tree (heap (fin first)) in
  (res first, yields first) = (Ok tt, [YFresh [("name", VStr "print"); ("value", VInt 2)]]) /\
  (res second, yields second) = (Ok tt, [YFresh [("name", VStr "print"); ("value", VInt 3)]]) /\
  dump 5 h tree = Some growing_list /\
  dump 5 (heap (fin first)) tree =
    Some (program [list_make "L" [JFloat 9; JFloat 1];
                   list_node "L" "insert" [("index", JInt 0); ("value", JFloat 9)];
                   print (list_node "L" "len" [])]) /\
  dict_get (_lists (fin second)) "L" = Some (VRef 0) /\
  heap (fin second) !! 0%nat = Some (OList [VFloat 9; VFloat 9; VFloat 1]).
Proof. vm_compute. repeat split; reflexivity. Qed.

(** ** Where an identifier is looked up (C2) *)

(** C2, at two failing inputs. In [shadowed_global] no call is active
    when [:x] is read, yet the value comes from the parameter table of
    [f] (the string the definition put there), not from [_variables]. In
    [nested_call] the inner call [f 2 false] overwrites the bindings of
    the outer call [f 1 true], which then moves forward by 2, not 1. *)
Theorem parameters_live_on_the_table_entry :
  let r1 := interpret_tree 10 shadowed_global in
  let r2 := interpret_tree 10 nested_call in
  (res r1, yields r1) = (Ok tt, [YFresh [("name", VStr "forward"); ("value", VStr "")]]) /\
  dict_get (_variables (fin r1)) "x" = Some (VFloat 5) /\
  (res r2, yields r2) =
    (Ok tt, [YFresh [("name", VStr "forward"); ("value", VFloat 2)];
             YFresh [("name", VStr "forward"); ("value", VFloat 2)]]).
Proof. vm_compute. repeat split; reflexivity. Qed.

Lemma color_in_palette (color : val) :
  color_in color _colors = true <->
  exists c, color = VStr c /\
    (c = "white" \/ c = "black" \/ c = "red" \/ c = "green" \/ c = "blue" \/ c = "cyan").
Proof.
  split.
  - destruct color; simpl; try discriminate. intros H. exists s. split; [reflexivity|].
    repeat (apply orb_prop in H; destruct H as [H|H];
            [apply String.eqb_eq in H; tauto|]).
    discriminate.
  - intros (c & -> & H).
    repeat (destruct H as [H|H]; [subst c; reflexivity|]). subst c. reflexivity.
Qed.

(** ** [setpencolor] (C7) *)

Section Setpencolor.
Variable interp : val -> M unit.
Variable ev : val -> M val.

Lemma dispatch_setpencolor s a kvs :
  heap s !! a = Some (ODict kvs) ->
  dict_get kvs "name" = Some (VStr "setpencolor") ->
  dispatch interp ev (VRef a) s = _handle_setpencolor (VRef a) s.
Proof.
  intros Ha Hn. unfold dispatch.
  rewrite (bind_ok_nil _ _ _ _ _ (field_ok _ _ _ _ _ Ha Hn)). reflexivity.
Qed.

(** C7. A [setpencolor] node fails with [InterpreterInvalidColorError],
    carrying its color and the palette, exactly when the color is not one
    of white, black, red, green, blue, cyan; the failure writes and yields
    nothing. Otherwise the node itself is yielded with its fields as they
    were and the state is the one before. *)
Theorem setpencolor_palette s a kvs color :
  heap s !! a = Some (ODict kvs) ->
  dict_get kvs "name" = Some (VStr "setpencolor") ->
  dict_get kvs "color" = Some color ->
  let r := dispatch interp ev (VRef a) s in
  let in_palette :=
    exists c, color = VStr c /\
      (c = "white" \/ c = "black" \/ c = "red" \/ c = "green" \/ c = "blue" \/ c = "cyan") in
  (res r = Raise (InterpreterInvalidColorError color _colors) <-> ~ in_palette) /\
  (~ in_palette -> fin r = s /\ yields r = []) /\
  (in_palette -> r = Res (Ok tt) s [YNode a kvs]).
Proof.
  intros Ha Hn Hc r P. subst r P.
  rewrite (dispatch_setpencolor _ _ _ Ha Hn).
  unfold _handle_setpencolor.
  rewrite (bind_ok_nil _ _ _ _ _ (field_ok _ _ _ _ _ Ha Hc)).
  rewrite <- color_in_palette.
  destruct (color_in color _colors) eqn:E; simpl.
  - unfold yield_node. rewrite Ha. simpl.
    repeat split; try congruence; intros; try discriminate; auto.
  - rewrite (bind_ok_nil _ _ _ _ _ (field_ok _ _ _ _ _ Ha Hc)). unfold raise. simpl.
    repeat split; try congruence; intros; try discriminate; auto.
Qed.
End Setpencolor.

(** [setpencolor_palette] at a red pen and at a purple pen. *)
Lemma setpencolor_palette_witness :
  dispatch (_interpret 0) (_evaluate 0) (VRef 0) (loaded red_pen) =
    Res (Ok tt) (loaded red_pen)
      [YNode 0 [("name", VStr "setpencolor"); ("color", VStr "red")]] /\
  res (dispatch (_interpret 0) (_evaluate 0) (VRef 0) (loaded purple_pen)) =
    Raise (InterpreterInvalidColorError (VStr "purple") _colors).
Proof.
  split.
  - apply (setpencolor_palette (_interpret 0) (_evaluate 0) (loaded red_pen) 0%nat
             [("name", VStr "setpencolor"); ("color", VStr "red")] (VStr "red"));
      try reflexivity.
    exists "red". auto.
  - apply (setpencolor_palette (_interpret 0) (_evaluate 0) (loaded purple_pen) 0%nat
             [("name", VStr "setpencolor"); ("color", VStr "purple")] (VStr "purple"));
      try reflexivity.
    intros (c & [= <-] & H).
    repeat (destruct H as [H|H]; [discriminate|]). discriminate.
Defined.

(** ** List operations *)

Lemma res_eta {A} (r : result A) : Res (res r) (fin r) (yields r) = r.
Proof. now destruct r. Qed.

Lemma bind_reads {A B} (m : M A) (k : A -> M B) s a :
  m s = Res (Ok a) s [] -> bind m k s = k a s.
Proof. apply bind_ok_nil. Qed.

(** After the two reads of [list_name], [_handle_list] runs the selected
    operation with [xs] bound exactly when the name is in [_lists]. *)
Lemma _handle_list_operation ev s a kvs L fn :
  heap s !! a = Some (ODict kvs) ->
  dict_get kvs "list_name" = Some (VStr L) ->
  dict_get kvs "function" = Some fn ->
  _handle_list ev (VRef a) s =
  try_except (list_operation ev (VRef a) (dict_get (_lists s) L) fn)
    (except_KeyError InterpreterUnboundVariableListError) s.
Proof.
  intros Ha HL Hf. unfold _handle_list, try_except.
  rewrite (bind_reads _ _ _ _ (field_ok _ _ _ _ _ Ha HL)).
  rewrite (bind_reads _ _ s (dict_mem (_lists s) L)) by reflexivity.
  unfold dict_mem. destruct (dict_get (_lists s) L) as [xs|] eqn:E.
  - rewrite (bind_reads _ _ s (Some xs)).
    + now rewrite (bind_reads _ _ _ _ (field_ok _ _ _ _ _ Ha Hf)).
    + rewrite (bind_reads _ _ _ _ (field_ok _ _ _ _ _ Ha HL)).
      rewrite (bind_reads _ _ s xs); [reflexivity|]. simpl. now rewrite E.
  - rewrite (bind_reads _ _ s None) by reflexivity.
    now rewrite (bind_reads _ _ _ _ (field_ok _ _ _ _ _ Ha Hf)).
Qed.

(** A list operation on a name that is not in [_lists]: the operations
    that read [xs] before anything else end in [UnboundLocalError], which
    the [except KeyError] of [_handle_list] does not catch. *)
Lemma unbound_list_operation ev s a kvs L f :
  heap s !! a = Some (ODict kvs) ->
  dict_get kvs "list_name" = Some (VStr L) ->
  dict_get kvs "function" = Some (VStr f) ->
  dict_get (_lists s) L = None ->
  In f ["empty"; "len"; "insert"; "remove"; "remove_value"] ->
  _handle_list ev (VRef a) s = Res (Raise UnboundLocalError) s [].
Proof.
  intros Ha HL Hf Hnone Hin.
  rewrite (_handle_list_operation _ _ _ _ _ _ Ha HL Hf), Hnone.
  simpl in Hin. repeat (destruct Hin as [<- | Hin]; [reflexivity|]). contradiction.
Qed.

(** C4, at a failing input: the program is the single command [len L]
    and no list [L] exists. The interpreter ends with Python's
    [UnboundLocalError], not with [InterpreterUnboundVariableListError]:
    [_handle_list] tests [list_name in self._lists] instead of indexing,
    so no [KeyError] arises for its [except KeyError] to translate. *)
Theorem unbound_list_is_not_reported :
  let r := interpret_tree 10 unbound_list in
  res r = Raise UnboundLocalError /\ yields r = [] /\
  res r <> Raise InterpreterUnboundVariableListError.
Proof. vm_compute. repeat split. discriminate. Qed.


Lemma truthy_of_len h v n : py_len h v = Ok n -> py_truthy h v = Ok (negb (Z.eqb n 0)).
Proof.
  destruct v; simpl; try discriminate.
  - destruct (is_ascii s); [|discriminate]. intros [= <-]. now destruct s.
  - destruct (h !! a) as [[xs|kvs]|]; try discriminate; intros [= <-].
    + now destruct xs.
    + now destruct kvs.
Qed.

(** A list query as an expression: [_evaluate] hands the node to
    [_handle_list]. *)
Lemma _evaluate_list_query fuel s a kvs :
  heap s !! a = Some (ODict kvs) ->
  dict_get kvs "name" = Some (VStr "list") ->
  _evaluate (S fuel) (VRef a) s = _handle_list (_evaluate fuel) (VRef a) s.
Proof.
  intros Ha Hn. simpl. rewrite Ha. unfold is_list_query. now rewrite Hn.
Qed.

Lemma empty_query_result ev s a kvs L v :
  heap s !! a = Some (ODict kvs) ->
  dict_get kvs "list_name" = Some (VStr L) ->
  dict_get kvs "function" = Some (VStr "empty") ->
  res (_handle_list ev (VRef a) s) = Ok v ->
  exists xs b, dict_get (_lists s) L = Some xs /\ py_truthy (heap s) xs = Ok b /\
               v = VBool (negb b).
Proof.
  intros Ha HL Hf. rewrite (_handle_list_operation _ _ _ _ _ _ Ha HL Hf).
  destruct (dict_get (_lists s) L) as [xs|]; [|discriminate].
  unfold list_operation, try_except, bind, local, ret, truthy, lift. simpl.
  destruct (py_truthy (heap s) xs) as [b|e| |] eqn:E; simpl; try discriminate.
  - intros [= <-]. exists xs, b. auto.
  - destruct e; discriminate.
Qed.

Lemma len_query_result ev s a kvs L v :
  heap s !! a = Some (ODict kvs) ->
  dict_get kvs "list_name" = Some (VStr L) ->
  dict_get kvs "function" = Some (VStr "len") ->
  res (_handle_list ev (VRef a) s) = Ok v ->
  exists xs n, dict_get (_lists s) L = Some xs /\ py_len (heap s) xs = Ok n /\ v = VInt n.
Proof.
  intros Ha HL Hf. rewrite (_handle_list_operation _ _ _ _ _ _ Ha HL Hf).
  destruct (dict_get (_lists s) L) as [xs|]; [|discriminate].
  unfold list_operation, try_except, bind, local, ret, len, lift. simpl.
  destruct (py_len (heap s) xs) as [n|e| |] eqn:E; simpl; try discriminate.
  - intros [= <-]. exists xs, n. auto.
  - destruct e; discriminate.
Qed.

(** C6. The round trip of the spec, run as a program that prints each
    query: [get L 1] is 2 after [list_make L [1 2 3]], [get L 0] is 9 after
    [insert L 0 9], [len L] is 3 after [remove_value L 9]. And in every
    state, for the queries [empty] and [len] on one list name as
    expressions: [empty] evaluates to true exactly when [len] evaluates
    to 0. *)
Theorem list_round_trip_queries :
  (let r := interpret_tree 10 list_round_trip in
   (res r, yields r) =
   (Ok tt, [YFresh [("name", VStr "print"); ("value", VFloat 2)];
            YFresh [("name", VStr "print"); ("value", VFloat 9)];
            YFresh [("name", VStr "print"); ("value", VInt 3)];
            YFresh [("name", VStr "print"); ("value", VBool false)]])) /\
  (forall fuel s a_empty a_len kvs_empty kvs_len L v_empty v_len,
     heap s !! a_empty = Some (ODict kvs_empty) ->
     dict_get kvs_empty "name" = Some (VStr "list") ->
     dict_get kvs_empty "list_name" = Some (VStr L) ->
     dict_get kvs_empty "function" = Some (VStr "empty") ->
     heap s !! a_len = Some (ODict kvs_len) ->
     dict_get kvs_len "name" = Some (VStr "list") ->
     dict_get kvs_len "list_name" = Some (VStr L) ->
     dict_get kvs_len "function" = Some (VStr "len") ->
     res (_evaluate (S fuel) (VRef a_empty) s) = Ok v_empty ->
     res (_evaluate (S fuel) (VRef a_len) s) = Ok v_len ->
     (v_empty = VBool true <-> v_len = VInt 0)).
Proof.
  split; [vm_compute; reflexivity|].
  intros fuel s ae al kvse kvsl L ve vl Hae Hne HLe Hfe Hal Hnl HLl Hfl He Hl.
  rewrite (_evaluate_list_query _ _ _ _ Hae Hne) in He.
  rewrite (_evaluate_list_query _ _ _ _ Hal Hnl) in Hl.
  destruct (empty_query_result _ _ _ _ _ _ Hae HLe Hfe He) as (xs & b & Hxs & Hb & ->).
  destruct (len_query_result _ _ _ _ _ _ Hal HLl Hfl Hl) as (xs' & n & Hxs' & Hn & ->).
  assert (xs' = xs) as -> by congruence.
  rewrite (truthy_of_len _ _ _ Hn) in Hb. injection Hb as <-.
  rewrite negb_involutive. split.
  - intros [= E]. apply Z.eqb_eq in E. now subst.
  - intros [= ->]. reflexivity.
Qed.

(** [list_round_trip_queries] at the two query nodes of [list_round_trip],
    in the state its run ends in. *)
Lemma list_round_trip_queries_witness :
  res (_evaluate 1 (VRef 10) after_round_trip) = Ok (VBool false) /\
  res (_evaluate 1 (VRef 8) after_round_trip) = Ok (VInt 3) /\
  (VBool false = VBool true <-> VInt 3 = VInt 0).
Proof.
  split; [vm_compute; reflexivity|]. split; [vm_compute; reflexivity|].
  apply (proj2 list_round_trip_queries 0%nat after_round_trip 10%nat 8%nat
           [("name", VStr "list"); ("list_name", VStr "L"); ("function", VStr "empty")]
           [("name", VStr "list"); ("list_name", VStr "L"); ("function", VStr "len")]
           "L"); vm_compute; reflexivity.
Defined.

(** ** Writes into the tree: [setpos] against the other commands (C10) *)

Lemma _evaluate_keeps_dict fuel value s a kvs :
  heap s !! a = Some (ODict kvs) ->
  heap (fin (_evaluate fuel value s)) !! a = Some (ODict kvs).
Proof.
  intros Ha. destruct (_evaluate_effect fuel value s) as (_ & He).
  now apply (evolves_dict _ _ _ _ He).
Qed.

Lemma _evaluate_ok_expression fuel e s v s1 ys :
  _evaluate fuel e s = Res (Ok v) s1 ys ->
  match e with VFloat _ | VStr _ | VRef _ => True | _ => False end.
Proof. destruct fuel, e; simpl; try discriminate; auto. Qed.

Lemma setitem_field s a kvs k v :
  heap s !! a = Some (ODict kvs) ->
  setitem (VRef a) (VStr k) v s =
  Res (Ok tt) (set_heap (<[a := ODict (dict_set kvs k v)]> (heap s)) s) [].
Proof. intros Ha. unfold setitem, py_setitem. now rewrite Ha. Qed.

Lemma heap_written (h : list obj) a o o' : h !! a = Some o -> <[a := o']> h !! a = Some o'.
Proof. intros H. apply list_lookup_insert_eq. eapply lookup_lt_Some; eauto. Qed.

Section TreeWrites.
Variable fuel : nat.
Let interp := _interpret fuel.
Let ev := _evaluate fuel.

Lemma dispatch_setpos s a kvs :
  heap s !! a = Some (ODict kvs) ->
  dict_get kvs "name" = Some (VStr "setpos") ->
  dispatch interp ev (VRef a) s = handle_setpos ev (VRef a) s.
Proof.
  intros Ha Hn. unfold dispatch.
  now rewrite (bind_ok_nil _ _ _ _ _ (field_ok _ _ _ _ _ Ha Hn)).
Qed.

Lemma dispatch_movement s a kvs name :
  heap s !! a = Some (ODict kvs) ->
  dict_get kvs "name" = Some (VStr name) ->
  In name ["forward"; "backward"; "left"; "right"; "setpensize"; "print"] ->
  dispatch interp ev (VRef a) s = _handle_movement ev (VRef a) s.
Proof.
  intros Ha Hn Hin. unfold dispatch.
  rewrite (bind_ok_nil _ _ _ _ _ (field_ok _ _ _ _ _ Ha Hn)).
  simpl in Hin. repeat (destruct Hin as [<- | Hin]; [reflexivity|]). contradiction.
Qed.

(** C10. A [setpos] node whose [x] and [y] evaluate to [vx] and [vy] is
    written in place: after the command the node holds [vx] and [vy] under
    [x] and [y], and what is yielded is that node. So the node differs
    from what it was as soon as one of the two values differs from the
    expression it replaces, which is the case for every expression that is
    not a literal and evaluates to a number. For [forward], [backward],
    [left], [right], [setpensize] and [print] the yielded item is a new
    dict with the name and the value, and the node is what it was. *)
Theorem setpos_writes_its_node s a kvs :
  heap s !! a = Some (ODict kvs) ->
  let r := dispatch interp ev (VRef a) s in
  (forall ex ey vx vy s1 s2,
     dict_get kvs "name" = Some (VStr "setpos") ->
     dict_get kvs "x" = Some ex ->
     dict_get kvs "y" = Some ey ->
     ev ex s = Res (Ok vx) s1 [] ->
     ev ey (set_heap (<[a := ODict (dict_set kvs "x" vx)]> (heap s1)) s1) = Res (Ok vy) s2 [] ->
     let kvs' := dict_set (dict_set kvs "x" vx) "y" vy in
     r = Res (Ok tt) (set_heap (<[a := ODict kvs']> (heap s2)) s2) [YNode a kvs'] /\
     heap (fin r) !! a = Some (ODict kvs') /\
     dict_get kvs' "x" = Some vx /\ dict_get kvs' "y" = Some vy /\
     (ex <> vx \/ ey <> vy -> heap (fin r) !! a <> heap s !! a) /\
     ((~ is_literal ex /\ is_number vx) \/ (~ is_literal ey /\ is_number vy) ->
      heap (fin r) !! a <> heap s !! a)) /\
  (forall name e v s1,
     dict_get kvs "name" = Some (VStr name) ->
     In name ["forward"; "backward"; "left"; "right"; "setpensize"; "print"] ->
     dict_get kvs "value" = Some e ->
     ev e s = Res (Ok v) s1 [] ->
     r = Res (Ok tt) s1 [YFresh [("name", VStr name); ("value", v)]] /\
     heap (fin r) !! a = Some (ODict kvs)).
Proof.
  intros Ha r. subst r. split.
  - intros ex ey vx vy s1 s2 Hn Hx Hy Hex Hey kvs'.
    assert (Ha1 : heap s1 !! a = Some (ODict kvs)).
    { generalize (_evaluate_keeps_dict fuel ex s a kvs Ha). fold ev. now rewrite Hex. }
    set (s1' := set_heap (<[a := ODict (dict_set kvs "x" vx)]> (heap s1)) s1) in *.
    assert (Ha1' : heap s1' !! a = Some (ODict (dict_set kvs "x" vx))).
    { apply (heap_written _ _ _ _ Ha1). }
    assert (Ha2 : heap s2 !! a = Some (ODict (dict_set kvs "x" vx))).
    { generalize (_evaluate_keeps_dict fuel ey s1' a _ Ha1'). fold ev. now rewrite Hey. }
    assert (Hy' : dict_get (dict_set kvs "x" vx) "y" = Some ey).
    { rewrite dict_get_set_ne by discriminate. exact Hy. }
    assert (Hr : dispatch interp ev (VRef a) s =
                 Res (Ok tt) (set_heap (<[a := ODict kvs']> (heap s2)) s2) [YNode a kvs']).
    { rewrite (dispatch_setpos _ _ _ Ha Hn). unfold handle_setpos.
      rewrite (bind_ok_nil _ _ _ _ _ (field_ok _ _ _ _ _ Ha Hx)).
      rewrite (bind_ok_nil _ _ _ _ _ Hex).
      rewrite (bind_ok_nil _ _ _ _ _ (setitem_field _ _ _ _ _ Ha1)). fold s1'.
      rewrite (bind_ok_nil _ _ _ _ _ (field_ok _ _ _ _ _ Ha1' Hy')).
      rewrite (bind_ok_nil _ _ _ _ _ Hey).
      rewrite (bind_ok_nil _ _ _ _ _ (setitem_field _ _ _ _ _ Ha2)).
      unfold yield_node. simpl. now rewrite (heap_written _ _ _ _ Ha2). }
    assert (Hx' : dict_get kvs' "x" = Some vx).
    { unfold kvs'. rewrite dict_get_set_ne by discriminate. apply dict_get_set_eq. }
    assert (Hy'' : dict_get kvs' "y" = Some vy) by apply dict_get_set_eq.
    assert (Hfin : heap (fin (dispatch interp ev (VRef a) s)) !! a = Some (ODict kvs')).
    { rewrite Hr. simpl. apply (heap_written _ _ _ _ Ha2). }
    assert (Hchg : ex <> vx \/ ey <> vy ->
                   heap (fin (dispatch interp ev (VRef a) s)) !! a <> heap s !! a).
    { intros Hne. rewrite Hfin, Ha. intros [= E]. rewrite E in Hx', Hy''.
      destruct Hne as [Hne | Hne]; congruence. }
    repeat split; auto.
    intros [[Hl Hnum] | [Hl Hnum]]; apply Hchg; [left | right]; intros ->.
    + pose proof (_evaluate_ok_expression _ _ _ _ _ _ Hex) as He.
      destruct vx; simpl in *; try contradiction. apply Hl. now eexists.
    + pose proof (_evaluate_ok_expression _ _ _ _ _ _ Hey) as He.
      destruct vy; simpl in *; try contradiction. apply Hl. now eexists.
  - intros name e v s1 Hn Hin Hv Hev.
    assert (Hr : dispatch interp ev (VRef a) s =
                 Res (Ok tt) s1 [YFresh [("name", VStr name); ("value", v)]]).
    { rewrite (dispatch_movement _ _ _ _ Ha Hn Hin). unfold _handle_movement.
      rewrite (bind_ok_nil _ _ _ _ _ (field_ok _ _ _ _ _ Ha Hn)).
      rewrite (bind_ok_nil _ _ _ _ _ (field_ok _ _ _ _ _ Ha Hv)).
      now rewrite (bind_ok_nil _ _ _ _ _ Hev). }
    split; [exact Hr|]. rewrite Hr. simpl.
    generalize (_evaluate_keeps_dict fuel e s a kvs Ha). fold ev. now rewrite Hev.
Qed.

End TreeWrites.

(** [setpos_writes_its_node] at [setpos :x 0] and [forward :x] with
    [x] set to 5. *)
Lemma setpos_writes_its_node_witness :
  let r := dispatch (_interpret 1) (_evaluate 1) (VRef 0) x_is_five in
  let r' := dispatch (_interpret 1) (_evaluate 1) (VRef 1) x_is_five in
  yields r = [YNode 0 [("name", VStr "setpos"); ("x", VFloat 5); ("y", VFloat 0)]] /\
  heap (fin r) !! 0%nat <> heap x_is_five !! 0%nat /\
  yields r' = [YFresh [("name", VStr "forward"); ("value", VFloat 5)]] /\
  heap (fin r') !! 1%nat = heap x_is_five !! 1%nat.
Proof.
  pose proof (setpos_writes_its_node 1 x_is_five 0%nat
                [("name", VStr "setpos"); ("x", VStr "x"); ("y", VFloat 0)] eq_refl) as [H _].
  pose proof (setpos_writes_its_node 1 x_is_five 1%nat
                [("name", VStr "forward"); ("value", VStr "x")] eq_refl) as [_ H'].
  specialize (H (VStr "x") (VFloat 0) (VFloat 5) (VFloat 0) x_is_five
                (set_heap (<[0%nat := ODict [("name", VStr "setpos"); ("x", VFloat 5);
                                              ("y", VFloat 0)]]> (heap x_is_five)) x_is_five)
                eq_refl eq_refl eq_refl eq_refl eq_refl).
  specialize (H' "forward" (VStr "x") (VFloat 5) x_is_five eq_refl
                 (or_introl eq_refl) eq_refl eq_refl).
  cbv zeta in H. destruct H as (Hr & _ & _ & _ & Hchg & _). destruct H' as (Hr' & Hkeep).
  intros r r'. subst r r'.
  split; [now rewrite Hr|].
  split; [apply Hchg; left; discriminate|].
  split; [now rewrite Hr'|].
  rewrite Hkeep. reflexivity.
Defined.

(** ** [repeat] (C5) *)

Lemma last_cons {A} (x : A) (l : list A) (d : A) : List.last (x :: l) d = List.last l x.
Proof.
  revert x d. induction l as [|y l IH]; intros x d; [reflexivity|].
  change (List.last (x :: y :: l) d) with (List.last (y :: l) d).
  rewrite (IH y d), (IH y x). reflexivity.
Qed.

Lemma for_range_successive body runs : forall i s,
  successive body s runs ->
  for_range_from (length runs) i (fun _ => body) s =
  Res (Ok tt) (List.last (map fin runs) s) (concat (map yields runs)).
Proof.
  induction runs as [|r runs IH]; intros i s Hs.
  - reflexivity.
  - destruct Hs as (Hr & Hok & Hrest). destruct r as [o s1 ys1].
    simpl in Hok, Hrest. subst o.
    cbn [length for_range_from map concat fin yields].
    rewrite last_cons.
    rewrite (bind_ok _ _ _ _ _ _ Hr), (IH (S i) s1 Hrest). reflexivity.
Qed.

(** C5. When the count of a [repeat] node evaluates to a value whose
    [int] is [n >= 0], and [runs] lists [n] successive normal runs of the
    node's body, each started in the state the one before ended in, then
    the command yields the concatenation of what those runs yield, in
    order, and ends in the state of the last one. In particular
    [repeat 3 [forward 10]] yields three times forward 10, and a body that
    increments a variable sees the increments of the iterations before. *)
Theorem repeat_concatenates_iterations :
  (forall fuel s a kvs count v s1 n runs,
     heap s !! a = Some (ODict kvs) ->
     dict_get kvs "name" = Some (VStr "repeat") ->
     dict_get kvs "value" = Some count ->
     _evaluate fuel count s = Res (Ok v) s1 [] ->
     py_int v = Ok n ->
     0 <= n ->
     length runs = Z.to_nat n ->
     successive (let* body := field (VRef a) "commands" in _interpret fuel body) s1 runs ->
     dispatch (_interpret fuel) (_evaluate fuel) (VRef a) s =
     Res (Ok tt) (List.last (map fin runs) s1) (concat (map yields runs))) /\
  (let r := interpret_tree 10 (program [repeat_three]) in
   (res r, yields r) =
   (Ok tt, [YFresh [("name", VStr "forward"); ("value", VFloat 10)];
            YFresh [("name", VStr "forward"); ("value", VFloat 10)];
            YFresh [("name", VStr "forward"); ("value", VFloat 10)]])) /\
  (let r := interpret_tree 10 counting_repeat in
   (res r, yields r) =
   (Ok tt, [YFresh [("name", VStr "forward"); ("value", VFloat 1)];
            YFresh [("name", VStr "forward"); ("value", VFloat 2)]])).
Proof.
  split; [|split; vm_compute; reflexivity].
  intros fuel s a kvs count v s1 n runs Ha Hn Hc Hev Hint Hpos Hlen Hruns.
  unfold dispatch.
  rewrite (bind_ok_nil _ _ _ _ _ (field_ok _ _ _ _ _ Ha Hn)).
  change (_handle_repeat (_interpret fuel) (_evaluate fuel) (VRef a) s =
          Res (Ok tt) (List.last (map fin runs) s1) (concat (map yields runs))).
  unfold _handle_repeat.
  rewrite (bind_ok_nil _ _ _ _ _ (field_ok _ _ _ _ _ Ha Hc)).
  rewrite (bind_ok_nil _ _ _ _ _ Hev).
  rewrite (bind_ok_nil _ _ s1 n s1) by (unfold pure_outcome; now rewrite Hint).
  unfold for_range. rewrite <- Hlen. now apply for_range_successive.
Qed.

(** Numbers have to be floats: an integer literal, here the count of
    [repeat 3 [forward 10]], is not an expression for [_evaluate]. *)
Lemma integer_literal_is_rejected :
  let r := interpret_tree 10
             (program [node "repeat" [("value", JInt 3);
                                      ("commands", JList [forward (JFloat 10)])]]) in
  (res r, yields r) = (Raise InterpreterInvalidTreeError, []).
Proof. vm_compute. reflexivity. Qed.

(** [repeat_concatenates_iterations] at [repeat 3 [forward 10]]. *)
Lemma repeat_concatenates_iterations_witness :
  let s := loaded repeat_three in
  let once := Res (Ok tt) s [YFresh [("name", VStr "forward"); ("value", VFloat 10)]] in
  dispatch (_interpret 3) (_evaluate 3) (VRef 2) s =
  Res (Ok tt) s (concat (map yields [once; once; once])).
Proof.
  intros s once.
  apply (proj1 repeat_concatenates_iterations 3%nat s 2%nat
           [("name", VStr "repeat"); ("value", VFloat 3); ("commands", VRef 1)]
           (VFloat 3) (VFloat 3) s 3 [once; once; once]);
    try reflexivity.
  - discriminate.
  - repeat split.
Defined.

(** ** [func_call] *)

Section FuncCall.
Variable fuel : nat.
Let interp := _interpret fuel.
Let ev := _evaluate fuel.

Lemma dispatch_func_call s a kvs :
  heap s !! a = Some (ODict kvs) ->
  dict_get kvs "name" = Some (VStr "func_call") ->
  dispatch interp ev (VRef a) s = _handle_func_call interp ev (VRef a) s.
Proof.
  intros Ha Hn. unfold dispatch.
  now rewrite (bind_ok_nil _ _ _ _ _ (field_ok _ _ _ _ _ Ha Hn)).
Qed.

Lemma get_function_ok s f fd :
  dict_get (_fuctions s) f = Some fd -> get_function (VStr f) s = Res (Ok fd) s [].
Proof. intros H. unfold get_function. simpl. now rewrite H. Qed.

(** The three ways a [func_call] fails: the name is not in the function
    table; the number of arguments differs from the number of parameters
    of the table entry; the body raises. *)
Lemma _handle_func_call_errors s a kvs f args :
  heap s !! a = Some (ODict kvs) ->
  dict_get kvs "name" = Some (VStr "func_call") ->
  dict_get kvs "func_name" = Some (VStr f) ->
  dict_get kvs "arguments" = Some args ->
  let call := dispatch interp ev (VRef a) s in
  (dict_get (_fuctions s) f = None ->
   call = Res (Raise (InterpreterUndefinedFunctionError (VStr f))) s []) /\
  (forall fd received,
     dict_get (_fuctions s) f = Some fd ->
     py_len (heap s) args = Ok received ->
     received <> Z.of_nat (length (fd_arguments fd)) ->
     call = Res (Raise (InterpreterInvalidFunctionArgumentsError (VStr f)
                          (Z.of_nat (length (fd_arguments fd))) received)) s []) /\
  (forall fd received s1 ys1 fd1 e s2 ys2,
     dict_get (_fuctions s) f = Some fd ->
     py_len (heap s) args = Ok received ->
     received = Z.of_nat (length (fd_arguments fd)) ->
     bind_arguments ev (VStr f) args (map fst (fd_arguments fd)) (Z.to_nat received) s =
       Res (Ok tt) s1 ys1 ->
     dict_get (_fuctions s1) f = Some fd1 ->
     interp (fd_commands fd1) s1 = Res (Raise e) s2 ys2 ->
     call = Res (Raise (InterpreterFunctionExecutionError (VStr f) e)) s2 (ys1 ++ ys2)).
Proof.
  intros Ha Hn Hf Hargs call. subst call.
  rewrite (dispatch_func_call _ _ _ Ha Hn). unfold _handle_func_call.
  rewrite (bind_ok_nil _ _ _ _ _ (field_ok _ _ _ _ _ Ha Hf)).
  rewrite (bind_ok_nil _ _ _ _ _ (field_ok _ _ _ _ _ Ha Hargs)).
  split; [|split].
  - intros Hnone. unfold try_except, bind, get_function. simpl. now rewrite Hnone.
  - intros fd received Hfd Hlen Hne. unfold try_except.
    rewrite (bind_ok_nil _ _ _ _ _ (get_function_ok _ _ _ Hfd)).
    rewrite (bind_ok_nil _ _ s received s) by (unfold len, lift; now rewrite Hlen).
    destruct (Z.eqb_spec (Z.of_nat (length (fd_arguments fd))) received) as [E|E];
      [congruence | reflexivity].
  - intros fd received s1 ys1 fd1 e s2 ys2 Hfd Hlen Heq Hbind Hfd1 Hbody.
    subst received.
    assert (Hlen' : len args s = Res (Ok (Z.of_nat (length (fd_arguments fd)))) s [])
      by (unfold len, lift; now rewrite Hlen).
    unfold try_except at 1.
    rewrite (bind_ok_nil _ _ _ _ _ (get_function_ok _ _ _ Hfd)).
    rewrite (bind_ok_nil _ _ _ _ _ Hlen').
    rewrite Z.eqb_refl. cbn [negb].
    rewrite (bind_ok_nil _ _ _ _ _ (get_function_ok _ _ _ Hfd)).
    rewrite (bind_ok_nil _ _ _ _ _ Hlen').
    rewrite (bind_ok _ _ _ _ _ _ Hbind).
    rewrite (bind_ok_nil _ _ _ _ _ (get_function_ok _ _ _ Hfd1)).
    unfold try_except. rewrite Hbody. simpl. now rewrite app_nil_r.
Qed.

End FuncCall.


(** ** Malformed trees *)

Lemma _interpret_from_start fuel commands :
  _interpret (S fuel) commands = interpret_from fuel commands 0.
Proof. reflexivity. Qed.

(** The loop of [_interpret] standing at a command that raises. *)
Lemma interpret_from_raise fuel s c xs i x e :
  heap s !! c = Some (OList xs) -> xs !! i = Some x ->
  dispatch (_interpret (S fuel)) (_evaluate (S fuel)) x s = Res (Raise e) s [] ->
  interpret_from (S fuel) (VRef c) i s =
  Res (Raise match e with KeyError => InterpreterInvalidTreeError | _ => e end) s [].
Proof.
  intros Hc Hi Hd. unfold interpret_from, try_except. simpl for_in_from.
  rewrite Hc, Hi. rewrite (bind_fail _ _ _ _ _ _ Hd eq_refl). simpl.
  destruct e; reflexivity.
Qed.

(** Replaces comparisons of string literals by their values. *)
Ltac eval_string_tests :=
  repeat match goal with
         | |- context [String.eqb ?a ?b] =>
             let v := eval vm_compute in (String.eqb a b) in
             match v with
             | true => change (String.eqb a b) with true
             | false => change (String.eqb a b) with false
             end
         | |- context [name_in ?a ?l] =>
             let v := eval vm_compute in (name_in a l) in
             match v with
             | true => change (name_in a l) with true
             | false => change (name_in a l) with false
             end
         end; cbv iota.

Section Malformed.
Variable interp : val -> M unit.
Variable ev : val -> M val.





End Malformed.

(** A [forward] without a value in the body of [f]: the call of [f], and
    with it the run, ends with [InterpreterFunctionExecutionError], not
    with [InterpreterInvalidTreeError]. *)
Lemma malformed_node_in_function_body :
  let r := interpret_tree 10 missing_value_in_body in
  res r = Raise (InterpreterFunctionExecutionError (VStr "f") InterpreterInvalidTreeError) /\
  res r <> Raise InterpreterInvalidTreeError /\
  res r <> Raise InterpreterInvalidCommandError.
Proof. vm_compute. repeat split; discriminate. Qed.

(** A [list] node without its [function] field ends with
    [InterpreterUnboundVariableListError]: the [except KeyError] of
    [_handle_list] takes the [KeyError] of the missing field for a missing
    list. *)
Lemma list_node_without_function :
  let r := interpret_tree 10 list_without_function in
  res r = Raise InterpreterUnboundVariableListError /\
  dict_get (_lists (fin r)) "L" <> None.
Proof. vm_compute. split; [reflexivity | discriminate]. Qed.

(** ** Which operands of a list operation are evaluated (C8) *)

Lemma bind_ext_reads {A B} (m : M A) (k1 k2 : A -> M B) s :
  reads m ->
  (forall a, m s = Res (Ok a) s [] -> k1 a s = k2 a s) ->
  bind m k1 s = bind m k2 s.
Proof.
  intros Hm Hk. unfold bind. destruct (Hm s) as (Hf & Hy).
  destruct (m s) as [[a|e| |] s1 ys1]; simpl in *; subst; try reflexivity.
  now rewrite (Hk a eq_refl).
Qed.

Lemma reads_lift {A} (f : list obj -> outcome A) : reads (lift f).
Proof. now intros s. Qed.

Lemma reads_field o k : reads (field o k).
Proof. apply reads_lift. Qed.

Lemma reads_pure {A} (o : outcome A) : reads (pure_outcome o).
Proof. now intros s. Qed.

Lemma reads_local xs : reads (local xs).
Proof. destruct xs; now intros s. Qed.

Lemma reads_list_method name xs : reads (list_method name xs).
Proof.
  intros s. unfold list_method. destruct xs; try easy.
  destruct (heap s !! a) as [[?|?]|]; try easy. now destruct (String.eqb name "pop").
Qed.

Lemma field_ok_inv s a kvs k v :
  heap s !! a = Some (ODict kvs) ->
  field (VRef a) k s = Res (Ok v) s [] -> dict_get kvs k = Some v.
Proof.
  intros Ha. unfold field, getitem, lift, py_getitem. rewrite Ha.
  destruct (dict_get kvs k); [now intros [= ->] | discriminate].
Qed.

(** [self._lists[list_name] = xs] at the end of a mutating operation
    writes back what is there. *)
Lemma rebind_same s a kvs L xs :
  heap s !! a = Some (ODict kvs) ->
  dict_get kvs "list_name" = Some (VStr L) ->
  dict_get (_lists s) L = Some xs ->
  (let* xs0 := local (Some xs) in
   let* list_name := field (VRef a) "list_name" in
   set_list list_name xs0;; ret VNone) s = Res (Ok VNone) s [].
Proof.
  intros Ha HL Hxs. rewrite (bind_ok_nil _ _ s xs s) by reflexivity.
  rewrite (bind_ok_nil _ _ _ _ _ (field_ok _ _ _ _ _ Ha HL)).
  rewrite (bind_ok_nil _ _ s tt s); [reflexivity|].
  unfold set_list. simpl. rewrite (dict_set_same _ _ _ Hxs). now destruct s.
Qed.

Lemma with_list_node s l ys a kvs xs :
  heap s !! a = Some (ODict kvs) -> heap s !! l = Some (OList xs) ->
  heap (with_list s l ys) !! a = Some (ODict kvs).
Proof.
  intros Ha Hl. unfold with_list. simpl.
  rewrite list_lookup_insert_ne; [assumption | congruence].
Qed.

Lemma _evaluate_keeps_lists fuel value s : _lists (fin (_evaluate fuel value s)) = _lists s.
Proof. destruct (_evaluate_effect fuel value s) as (_ & _ & _ & H & _). exact H. Qed.

Lemma call_on_list_ok s l xs f ys :
  heap s !! l = Some (OList xs) -> f xs = Ok ys ->
  call_on_list (RList l) f s = Res (Ok tt) (with_list s l ys) [].
Proof. intros Hl Hf. unfold call_on_list. now rewrite Hl, Hf. Qed.

Lemma list_method_ok s l xs name :
  heap s !! l = Some (OList xs) -> list_method name (VRef l) s = Res (Ok (RList l)) s [].
Proof. intros Hl. unfold list_method. now rewrite Hl. Qed.

Section ListOperands.
Variables (s : state) (a : nat) (kvs : list (string * val)) (L : string).
Hypothesis node_at : heap s !! a = Some (ODict kvs).
Hypothesis node_list_name : dict_get kvs "list_name" = Some (VStr L).

(** [set], [insert] and [remove] consult the evaluator on the [value]
    field only. *)
Lemma mutation_ignores_evaluator_on_index (ev1 ev2 : val -> M val) f :
  dict_get kvs "function" = Some (VStr f) ->
  In f ["set"; "insert"; "remove"] ->
  (forall value, dict_get kvs "value" = Some value -> ev1 value s = ev2 value s) ->
  _handle_list ev1 (VRef a) s = _handle_list ev2 (VRef a) s.
Proof.
  intros Hf Hin Hag.
  rewrite !(_handle_list_operation _ _ _ _ _ _ node_at node_list_name Hf).
  unfold try_except.
  assert (Hev : forall value (k : val -> M val),
             field (VRef a) "value" s = Res (Ok value) s [] ->
             bind (ev1 value) k s = bind (ev2 value) k s).
  { intros value k Hv. unfold bind.
    now rewrite (Hag value (field_ok_inv _ _ _ _ _ node_at Hv)). }
  replace (list_operation ev1 (VRef a) (dict_get (_lists s) L) (VStr f) s)
    with (list_operation ev2 (VRef a) (dict_get (_lists s) L) (VStr f) s);
    [reflexivity|].
  unfold list_operation. simpl in Hin.
  destruct Hin as [<- | [<- | [<- | []]]]; eval_string_tests.
  - apply bind_ext_reads; [apply reads_field|]. intros value Hv. symmetry. now apply Hev.
  - apply bind_ext_reads; [apply reads_local|]. intros xs _.
    apply bind_ext_reads; [apply reads_list_method|]. intros r _.
    apply bind_ext_reads; [apply reads_field|]. intros index _.
    apply bind_ext_reads; [apply reads_pure|]. intros i _.
    apply bind_ext_reads; [apply reads_field|]. intros value Hv. symmetry. now apply Hev.
  - reflexivity.
Qed.

Variables (fuel : nat) (l : nat).
Let ev := _evaluate fuel.
Hypothesis list_bound : dict_get (_lists s) L = Some (VRef l).

Lemma after_evaluate value v s1 :
  ev value s = Res (Ok v) s1 [] ->
  heap s1 !! a = Some (ODict kvs) /\ dict_get (_lists s1) L = Some (VRef l) /\
  forall xs, heap s1 !! l = Some (OList xs) -> exists xs0, heap s !! l = Some (OList xs0).
Proof.
  intros Hev. destruct (_evaluate_effect fuel value s) as (_ & He).
  fold ev in He. rewrite Hev in He. simpl in He. split; [|split].
  - now apply (evolves_dict _ _ _ _ He).
  - destruct He as (_ & _ & -> & _). exact list_bound.
  - intros xs Hxs. destruct He as (_ & _ & _ & _ & H).
    destruct (H l) as [E | (_ & xs0 & _ & E0 & _)]; [|eauto].
    rewrite Hxs in E. eauto.
Qed.

Lemma set_reads_index_directly index value v s1 i xs j :
  dict_get kvs "function" = Some (VStr "set") ->
  dict_get kvs "index" = Some index ->
  dict_get kvs "value" = Some value ->
  ev value s = Res (Ok v) s1 [] ->
  py_int index = Ok i ->
  heap s1 !! l = Some (OList xs) ->
  seq_index (length xs) i = Some j ->
  _handle_list ev (VRef a) s = Res (Ok VNone) (with_list s1 l (<[j := v]> xs)) [].
Proof.
  intros Hf Hi Hv Hev Hint Hl Hj.
  destruct (after_evaluate _ _ _ Hev) as (Ha1 & HL1 & _).
  rewrite (_handle_list_operation _ _ _ _ _ _ node_at node_list_name Hf), list_bound.
  unfold try_except, list_operation. eval_string_tests.
  rewrite (bind_ok_nil _ _ _ _ _ (field_ok _ _ _ _ _ node_at Hv)).
  rewrite (bind_ok_nil _ _ _ _ _ Hev).
  rewrite (bind_ok_nil _ _ s1 (VRef l) s1) by reflexivity.
  rewrite (bind_ok_nil _ _ _ _ _ (field_ok _ _ _ _ _ Ha1 Hi)).
  rewrite (bind_ok_nil _ _ s1 i s1) by (unfold pure_outcome; now rewrite Hint).
  rewrite (bind_ok_nil _ _ s1 tt (with_list s1 l (<[j := v]> xs))).
  - rewrite (rebind_same _ _ _ _ _ (with_list_node _ _ _ _ _ _ Ha1 Hl) node_list_name HL1).
    reflexivity.
  - unfold setitem, py_setitem. simpl. now rewrite Hl, Hj.
Qed.

Lemma insert_reads_index_directly index value v s1 i xs xs' :
  dict_get kvs "function" = Some (VStr "insert") ->
  dict_get kvs "index" = Some index ->
  dict_get kvs "value" = Some value ->
  py_int index = Ok i ->
  ev value s = Res (Ok v) s1 [] ->
  heap s1 !! l = Some (OList xs) ->
  list_insert xs i v = Ok xs' ->
  _handle_list ev (VRef a) s = Res (Ok VNone) (with_list s1 l xs') [].
Proof.
  intros Hf Hi Hv Hint Hev Hl Hins.
  destruct (after_evaluate _ _ _ Hev) as (Ha1 & HL1 & Hl0).
  destruct (Hl0 _ Hl) as (xs0 & Hxs0).
  rewrite (_handle_list_operation _ _ _ _ _ _ node_at node_list_name Hf), list_bound.
  unfold try_except, list_operation. eval_string_tests.
  rewrite (bind_ok_nil _ _ s (VRef l) s) by reflexivity.
  rewrite (bind_ok_nil _ _ _ _ _ (list_method_ok _ _ _ _ Hxs0)).
  rewrite (bind_ok_nil _ _ _ _ _ (field_ok _ _ _ _ _ node_at Hi)).
  rewrite (bind_ok_nil _ _ s i s) by (unfold pure_outcome; now rewrite Hint).
  rewrite (bind_ok_nil _ _ _ _ _ (field_ok _ _ _ _ _ node_at Hv)).
  rewrite (bind_ok_nil _ _ _ _ _ Hev).
  rewrite (bind_ok_nil _ _ _ _ _
             (call_on_list_ok s1 l xs (fun l0 => list_insert l0 i v) _ Hl Hins)).
  rewrite (rebind_same _ _ _ _ _ (with_list_node _ _ _ _ _ _ Ha1 Hl) node_list_name HL1).
  reflexivity.
Qed.

Lemma remove_reads_index_directly index i xs xs' :
  dict_get kvs "function" = Some (VStr "remove") ->
  dict_get kvs "index" = Some index ->
  py_int index = Ok i ->
  heap s !! l = Some (OList xs) ->
  list_pop xs i = Ok xs' ->
  _handle_list ev (VRef a) s = Res (Ok VNone) (with_list s l xs') [].
Proof.
  intros Hf Hi Hint Hl Hpop.
  rewrite (_handle_list_operation _ _ _ _ _ _ node_at node_list_name Hf), list_bound.
  unfold try_except, list_operation. eval_string_tests.
  rewrite (bind_ok_nil _ _ s (VRef l) s) by reflexivity.
  rewrite (bind_ok_nil _ _ _ _ _ (list_method_ok _ _ _ _ Hl)).
  rewrite (bind_ok_nil _ _ _ _ _ (field_ok _ _ _ _ _ node_at Hi)).
  rewrite (bind_ok_nil _ _ s i s) by (unfold pure_outcome; now rewrite Hint).
  rewrite (bind_ok_nil _ _ _ _ _ (call_on_list_ok _ _ _ _ _ Hl Hpop)).
  rewrite (rebind_same _ _ _ _ _ (with_list_node _ _ _ _ _ _ node_at Hl) node_list_name
             list_bound).
  reflexivity.
Qed.

Lemma get_evaluates_index index v s1 i xs j x :
  dict_get kvs "function" = Some (VStr "get") ->
  dict_get kvs "index" = Some index ->
  ev index s = Res (Ok v) s1 [] ->
  py_int v = Ok i ->
  heap s1 !! l = Some (OList xs) ->
  seq_index (length xs) i = Some j ->
  xs !! j = Some x ->
  _handle_list ev (VRef a) s = Res (Ok x) s1 [].
Proof.
  intros Hf Hi Hev Hint Hl Hj Hx.
  rewrite (_handle_list_operation _ _ _ _ _ _ node_at node_list_name Hf), list_bound.
  unfold try_except, list_operation. eval_string_tests.
  rewrite (bind_ok_nil _ _ _ _ _ (field_ok _ _ _ _ _ node_at Hi)).
  rewrite (bind_ok_nil _ _ _ _ _ Hev).
  rewrite (bind_ok_nil _ _ s1 i s1) by (unfold pure_outcome; now rewrite Hint).
  rewrite (bind_ok_nil _ _ s1 (VRef l) s1) by reflexivity.
  unfold getitem, lift, py_getitem. simpl. now rewrite Hl, Hj, Hx.
Qed.

Lemma remove_value_evaluates_value value v s1 xs xs' :
  dict_get kvs "function" = Some (VStr "remove_value") ->
  dict_get kvs "value" = Some value ->
  ev value s = Res (Ok v) s1 [] ->
  heap s1 !! l = Some (OList xs) ->
  list_remove xs v = Ok xs' ->
  _handle_list ev (VRef a) s = Res (Ok VNone) (with_list s1 l xs') [].
Proof.
  intros Hf Hv Hev Hl Hrem.
  destruct (after_evaluate _ _ _ Hev) as (Ha1 & HL1 & Hl0).
  destruct (Hl0 _ Hl) as (xs0 & Hxs0).
  rewrite (_handle_list_operation _ _ _ _ _ _ node_at node_list_name Hf), list_bound.
  unfold try_except, list_operation. eval_string_tests.
  rewrite (bind_ok_nil _ _ s (VRef l) s) by reflexivity.
  rewrite (bind_ok_nil _ _ _ _ _ (list_method_ok _ _ _ _ Hxs0)).
  rewrite (bind_ok_nil _ _ _ _ _ (field_ok _ _ _ _ _ node_at Hv)).
  rewrite (bind_ok_nil _ _ _ _ _ Hev).
  rewrite (bind_ok_nil _ _ _ _ _ (call_on_list_ok _ _ _ _ _ Hl Hrem)).
  rewrite (rebind_same _ _ _ _ _ (with_list_node _ _ _ _ _ _ Ha1 Hl) node_list_name HL1).
  reflexivity.
Qed.

End ListOperands.

(** C8. For a [list] node on a bound list: [set], [insert] and [remove]
    give the same result under any two evaluators that agree on the
    node's [value] field, whatever they do with its [index]; their index
    is the field itself passed to [int]. [get] evaluates its [index]
    field and passes the result to [int]; [remove_value] evaluates its
    [value] field. In the three writing operations with a value, the
    value written is the evaluated [value] field. *)
Theorem list_operation_operands s a kvs L :
  heap s !! a = Some (ODict kvs) ->
  dict_get kvs "list_name" = Some (VStr L) ->
  (forall (ev1 ev2 : val -> M val) f,
     dict_get kvs "function" = Some (VStr f) ->
     In f ["set"; "insert"; "remove"] ->
     (forall value, dict_get kvs "value" = Some value -> ev1 value s = ev2 value s) ->
     _handle_list ev1 (VRef a) s = _handle_list ev2 (VRef a) s) /\
  (forall fuel l,
     dict_get (_lists s) L = Some (VRef l) ->
     let ev := _evaluate fuel in
     (forall index value v s1 i xs j,
        dict_get kvs "function" = Some (VStr "set") ->
        dict_get kvs "index" = Some index ->
        dict_get kvs "value" = Some value ->
        ev value s = Res (Ok v) s1 [] ->
        py_int index = Ok i ->
        heap s1 !! l = Some (OList xs) ->
        seq_index (length xs) i = Some j ->
        _handle_list ev (VRef a) s = Res (Ok VNone) (with_list s1 l (<[j := v]> xs)) []) /\
     (forall index value v s1 i xs xs',
        dict_get kvs "function" = Some (VStr "insert") ->
        dict_get kvs "index" = Some index ->
        dict_get kvs "value" = Some value ->
        py_int index = Ok i ->
        ev value s = Res (Ok v) s1 [] ->
        heap s1 !! l = Some (OList xs) ->
        list_insert xs i v = Ok xs' ->
        _handle_list ev (VRef a) s = Res (Ok VNone) (with_list s1 l xs') []) /\
     (forall index i xs xs',
        dict_get kvs "function" = Some (VStr "remove") ->
        dict_get kvs "index" = Some index ->
        py_int index = Ok i ->
        heap s !! l = Some (OList xs) ->
        list_pop xs i = Ok xs' ->
        _handle_list ev (VRef a) s = Res (Ok VNone) (with_list s l xs') []) /\
     (forall index v s1 i xs j x,
        dict_get kvs "function" = Some (VStr "get") ->
        dict_get kvs "index" = Some index ->
        ev index s = Res (Ok v) s1 [] ->
        py_int v = Ok i ->
        heap s1 !! l = Some (OList xs) ->
        seq_index (length xs) i = Some j ->
        xs !! j = Some x ->
        _handle_list ev (VRef a) s = Res (Ok x) s1 []) /\
     (forall value v s1 xs xs',
        dict_get kvs "function" = Some (VStr "remove_value") ->
        dict_get kvs "value" = Some value ->
        ev value s = Res (Ok v) s1 [] ->
        heap s1 !! l = Some (OList xs) ->
        list_remove xs v = Ok xs' ->
        _handle_list ev (VRef a) s = Res (Ok VNone) (with_list s1 l xs') [])).
Proof.
  intros Ha HL. split.
  - intros ev1 ev2 f. now apply mutation_ignores_evaluator_on_index with (L := L).
  - intros fuel l Hl ev. subst ev. repeat split; intros.
    + eapply set_reads_index_directly; eauto.
    + eapply insert_reads_index_directly; eauto.
    + eapply remove_reads_index_directly; eauto.
    + eapply get_evaluates_index; eauto.
    + eapply remove_value_evaluates_value; eauto.
Qed.

(** [list_operation_operands] at the five operation nodes of
    [list_operations], on the list [1 2 3]. *)
Lemma list_operation_operands_witness :
  let s := list_made in
  let ev := _evaluate 1 in
  _handle_list ev (VRef 2) s = _handle_list no_integers (VRef 2) s /\
  _handle_list ev (VRef 2) s = Res (Ok VNone) (with_list s 0 [VFloat 7; VFloat 2; VFloat 3]) [] /\
  _handle_list ev (VRef 3) s =
    Res (Ok VNone) (with_list s 0 [VFloat 9; VFloat 1; VFloat 2; VFloat 3]) [] /\
  _handle_list ev (VRef 4) s = Res (Ok VNone) (with_list s 0 [VFloat 2; VFloat 3]) [] /\
  _handle_list ev (VRef 5) s = Res (Ok (VFloat 2)) s [] /\
  _handle_list ev (VRef 6) s = Res (Ok VNone) (with_list s 0 [VFloat 1; VFloat 3]) [].
Proof.
  intros s ev.
  pose (fields_of f (fields : list (string * val)) :=
          ("name", VStr "list") :: ("list_name", VStr "L") :: ("function", VStr f) :: fields).
  pose (xs := [VFloat 1; VFloat 2; VFloat 3]).
  split; [|split; [|split; [|split; [|split]]]].
  - destruct (list_operation_operands s 2%nat
                (fields_of "set" [("index", VInt 0); ("value", VFloat 7)]) "L"
                eq_refl eq_refl) as (H & _).
    apply (H ev no_integers "set" eq_refl (or_introl eq_refl)).
    intros value [= <-]. reflexivity.
  - destruct (list_operation_operands s 2%nat
                (fields_of "set" [("index", VInt 0); ("value", VFloat 7)]) "L"
                eq_refl eq_refl) as (_ & H).
    destruct (H 1%nat 0%nat eq_refl) as (H1 & _).
    exact (H1 (VInt 0) (VFloat 7) (VFloat 7) s 0 xs 0%nat
              eq_refl eq_refl eq_refl eq_refl eq_refl eq_refl eq_refl).
  - destruct (list_operation_operands s 3%nat
                (fields_of "insert" [("index", VInt 0); ("value", VFloat 9)]) "L"
                eq_refl eq_refl) as (_ & H).
    destruct (H 1%nat 0%nat eq_refl) as (_ & H1 & _).
    exact (H1 (VInt 0) (VFloat 9) (VFloat 9) s 0 xs [VFloat 9; VFloat 1; VFloat 2; VFloat 3]
              eq_refl eq_refl eq_refl eq_refl eq_refl eq_refl eq_refl).
  - destruct (list_operation_operands s 4%nat
                (fields_of "remove" [("index", VInt 0)]) "L" eq_refl eq_refl) as (_ & H).
    destruct (H 1%nat 0%nat eq_refl) as (_ & _ & H1 & _).
    exact (H1 (VInt 0) 0 xs [VFloat 2; VFloat 3] eq_refl eq_refl eq_refl eq_refl eq_refl).
  - destruct (list_operation_operands s 5%nat
                (fields_of "get" [("index", VFloat 1)]) "L" eq_refl eq_refl) as (_ & H).
    destruct (H 1%nat 0%nat eq_refl) as (_ & _ & _ & H1 & _).
    exact (H1 (VFloat 1) (VFloat 1) s 1 xs 1%nat (VFloat 2)
              eq_refl eq_refl eq_refl eq_refl eq_refl eq_refl eq_refl).
  - destruct (list_operation_operands s 6%nat
                (fields_of "remove_value" [("value", VFloat 2)]) "L" eq_refl eq_refl) as (_ & H).
    destruct (H 1%nat 0%nat eq_refl) as (_ & _ & _ & _ & H1).
    exact (H1 (VFloat 2) (VFloat 2) s xs [VFloat 1; VFloat 3]
              eq_refl eq_refl eq_refl eq_refl eq_refl).
Defined.

(** The difference at work: with the variable [i] set to 0, [get L :i]
    is element 0 of the list, while [set L :i 5] passes the name [i]
    itself to [int], a [ValueError]. *)
Lemma index_variable_get_and_set :
  let r := interpret_tree 10 get_by_variable in
  let r' := interpret_tree 10 set_by_variable in
  (res r, yields r) = (Ok tt, [YFresh [("name", VStr "print"); ("value", VFloat 1)]]) /\
  (res r', yields r') = (Raise ValueError, []).
Proof. vm_compute. split; reflexivity. Qed.

(** ** More fuel changes no finished run *)

Lemma refines_refl {A} (m : M A) : refines m m.
Proof. now intros s _. Qed.

Lemma refines_bind {A B} (m m' : M A) (k k' : A -> M B) :
  refines m m' -> (forall a, refines (k a) (k' a)) -> refines (bind m k) (bind m' k').
Proof.
  intros Hm Hk s. unfold finished, bind. intros Hfin.
  assert (Hms : finished (m s)).
  { unfold finished. destruct (m s) as [[a|e| |] s1 ys1]; simpl in *; congruence. }
  rewrite (Hm s Hms). destruct (m s) as [[a|e| |] s1 ys1]; try reflexivity.
  rewrite (Hk a s1); [reflexivity|]. unfold finished. simpl in Hfin. exact Hfin.
Qed.

Lemma refines_try_except {A} (m m' : M A) h :
  refines m m' -> refines (try_except m h) (try_except m' h).
Proof.
  intros Hm s. unfold finished, try_except. intros Hfin.
  assert (Hms : finished (m s)).
  { unfold finished. destruct (m s) as [[a|e| |] s1 ys1]; simpl in *; congruence. }
  now rewrite (Hm s Hms).
Qed.

Lemma refines_for_range_from n : forall i (body body' : nat -> M unit),
  (forall j, refines (body j) (body' j)) ->
  refines (for_range_from n i body) (for_range_from n i body').
Proof.
  induction n as [|n IH]; intros i body body' Hb; simpl.
  - apply refines_refl.
  - apply refines_bind; [apply Hb | intros _; now apply IH].
Qed.

(** Closes a refinement goal between two terms of the same shape. *)
Ltac refines_step :=
  first
    [ assumption
    | apply refines_refl
    | match goal with H : forall _, refines _ _ |- _ => apply H end
    | apply refines_try_except
    | apply refines_for_range_from; intros
    | apply refines_bind; [| intros]
    | match goal with
      | |- refines (if ?b then _ else _) _ => destruct b
      | |- refines (match ?x with _ => _ end) _ => destruct x
      end ].
Ltac refines_auto := repeat refines_step.

Section RefinesHandlers.
Variables (interp interp' : val -> M unit) (ev ev' : val -> M val).
Hypothesis interp_refines : forall c, refines (interp c) (interp' c).
Hypothesis ev_refines : forall e, refines (ev e) (ev' e).

Lemma refines__handle_list command :
  refines (_handle_list ev command) (_handle_list ev' command).
Proof. unfold _handle_list, list_operation. refines_auto. Qed.

Lemma refines_dispatch command :
  refines (dispatch interp ev command) (dispatch interp' ev' command).
Proof.
  pose proof refines__handle_list as Hl.
  unfold dispatch, _handle_func_def, _handle_func_call, bind_arguments, for_range,
    _handle_make, _handle_list_make, _handle_repeat, _handle_if, _handle_setpensize,
    _handle_print, _handle_movement, _handle_setpencolor, handle_setpos.
  refines_auto.
Qed.

End RefinesHandlers.

Lemma refines_all_any (ev ev' : val -> M val) :
  (forall e, refines (ev e) (ev' e)) ->
  forall fuel fuel' is_all o i, (fuel <= fuel')%nat ->
  refines (all_any_from fuel is_all ev o i) (all_any_from fuel' is_all ev' o i).
Proof.
  intros Hev. induction fuel as [|fuel IH]; intros fuel' is_all o i Hle s Hfin.
  - now contradiction Hfin.
  - destruct fuel' as [|fuel']; [lia|]. simpl in *.
    destruct o; try reflexivity.
    destruct (heap s !! a) as [[xs|kvs]|]; try reflexivity.
    destruct (xs !! i) as [x|]; try reflexivity.
    revert s Hfin.
    change (refines
      (let* v := ev x in let* b := truthy v in
       if Bool.eqb b is_all then all_any_from fuel is_all ev (VRef a) (S i)
       else ret (VBool b))
      (let* v := ev' x in let* b := truthy v in
       if Bool.eqb b is_all then all_any_from fuel' is_all ev' (VRef a) (S i)
       else ret (VBool b))).
    apply refines_bind; [apply Hev|]. intros v.
    apply refines_bind; [apply refines_refl|]. intros b.
    destruct (Bool.eqb b is_all); [apply IH; lia | apply refines_refl].
Qed.

Lemma _evaluate_more_fuel fuel : forall fuel' value,
  (fuel <= fuel')%nat -> refines (_evaluate fuel value) (_evaluate fuel' value).
Proof.
  induction fuel as [|fuel IH]; intros fuel' value Hle s Hfin.
  - now contradiction Hfin.
  - destruct fuel' as [|fuel']; [lia|].
    assert (Hev : forall e, refines (_evaluate fuel e) (_evaluate fuel' e))
      by (intros e; apply IH; lia).
    assert (Hall : forall is_all o i,
               refines (all_any_from fuel is_all (_evaluate fuel) o i)
                       (all_any_from fuel' is_all (_evaluate fuel') o i))
      by (intros; apply refines_all_any; [exact Hev | lia]).
    simpl in *. destruct value; try reflexivity.
    destruct (heap s !! a) as [[xs|kvs]|]; try reflexivity.
    destruct (is_list_query kvs).
    + now apply refines__handle_list.
    + revert s Hfin. refines_auto; apply Hall.
Qed.

Lemma for_in_from_more_fuel (body body' : val -> M unit) :
  (forall c, refines (body c) (body' c)) ->
  forall fuel fuel' o i, (fuel <= fuel')%nat ->
  refines (for_in_from fuel o i body) (for_in_from fuel' o i body').
Proof.
  intros Hb. induction fuel as [|fuel IH]; intros fuel' o i Hle s Hfin.
  - now contradiction Hfin.
  - destruct fuel' as [|fuel']; [lia|]. simpl in *.
    destruct o; try reflexivity.
    destruct (heap s !! a) as [[xs|kvs]|]; try reflexivity.
    destruct (xs !! i) as [x|]; try reflexivity.
    revert s Hfin.
    change (refines (body x;; for_in_from fuel (VRef a) (S i) body)
                    (body' x;; for_in_from fuel' (VRef a) (S i) body')).
    apply refines_bind; [apply Hb | intros _; apply IH; lia].
Qed.

(** A run of [_interpret] that finished is the same with any larger
    amount of fuel. *)
Lemma _interpret_more_fuel fuel : forall fuel' commands,
  (fuel <= fuel')%nat -> refines (_interpret fuel commands) (_interpret fuel' commands).
Proof.
  induction fuel as [|fuel IH]; intros fuel' commands Hle.
  - intros s Hfin. now contradiction Hfin.
  - destruct fuel' as [|fuel']; [lia|]. simpl.
    apply refines_try_except. apply for_in_from_more_fuel; [|lia].
    intros c. apply refines_dispatch.
    + intros c'. apply IH. lia.
    + intros e. apply _evaluate_more_fuel. lia.
Qed.

Lemma run_more_fuel fuel fuel' tree h :
  (fuel <= fuel')%nat -> finished (run fuel tree h) -> run fuel' tree h = run fuel tree h.
Proof.
  intros Hle. unfold run.
  apply (refines_bind (__init__ tree) (__init__ tree)); [apply refines_refl|].
  intros _ s Hfin. unfold __iter__ in *. now apply _interpret_more_fuel.
Qed.

(** The runs of the example programs above use 10 units of fuel; any
    larger amount gives the same run. *)
Lemma interpret_tree_more_fuel fuel fuel' t :
  (fuel <= fuel')%nat -> finished (interpret_tree fuel t) ->
  interpret_tree fuel' t = interpret_tree fuel t.
Proof.
  unfold interpret_tree. destruct (load t []) as [tree h]. apply run_more_fuel.
Qed.


(** ** What [func_def] registers *)

Lemma dict_set_fresh {V} (d : list (string * V)) k v :
  dict_get d k = None -> dict_set d k v = (d ++ [(k, v)])%list.
Proof.
  induction d as [|[k0 v0] d IH]; simpl; [reflexivity|].
  destruct (String.eqb k0 k); [discriminate|]. intros H. now rewrite IH.
Qed.

Lemma dict_set_set {V} (d : list (string * V)) k v v' :
  dict_set (dict_set d k v) k v' = dict_set d k v'.
Proof.
  induction d as [|[k0 v0] d IH]; simpl.
  - now rewrite String.eqb_refl.
  - destruct (String.eqb k0 k) eqn:E; simpl; rewrite E; [reflexivity | now rewrite IH].
Qed.

Lemma set_argument_ok s f fd n v :
  dict_get (_fuctions s) f = Some fd ->
  set_argument (VStr f) (VStr n) v s =
  Res (Ok tt)
    (set_fuctions (dict_set (_fuctions s) f
                     (FuncData (dict_set (fd_arguments fd) n v) (fd_commands fd))) s) [].
Proof.
  intros Hfd. unfold set_argument.
  rewrite (bind_ok_nil _ _ _ _ _ (get_function_ok _ _ _ Hfd)).
  now rewrite (bind_ok_nil _ _ s (dict_set (fd_arguments fd) n v) s) by reflexivity.
Qed.

Lemma for_each_set_argument f names : forall s acc cmds,
  dict_get (_fuctions s) f = Some (FuncData acc cmds) ->
  List.NoDup names ->
  (forall n, In n names -> dict_get acc n = None) ->
  for_each (map VStr names) (fun argument => set_argument (VStr f) argument (VStr "")) s =
  Res (Ok tt)
    (set_fuctions (dict_set (_fuctions s) f
                     (FuncData (acc ++ map (fun n => (n, VStr "")) names) cmds)) s) [].
Proof.
  induction names as [|n names IH]; intros s acc cmds Hfd Hnd Hfresh; simpl.
  - rewrite app_nil_r, (dict_set_same _ _ _ Hfd). unfold ret. now destruct s.
  - inversion Hnd as [|? ? Hn Hnd']; subst.
    rewrite (bind_ok_nil _ _ _ _ _ (set_argument_ok _ _ _ _ _ Hfd)). simpl fd_arguments.
    rewrite (dict_set_fresh acc n) by (apply Hfresh; now left). simpl fd_commands.
    rewrite (IH _ (acc ++ [(n, VStr "")])%list cmds).
    + simpl. rewrite dict_set_set, <- app_assoc. reflexivity.
    + simpl. apply dict_get_set_eq.
    + exact Hnd'.
    + intros n' Hin. rewrite <- (dict_set_fresh acc n (VStr "")) by (apply Hfresh; now left).
      rewrite dict_get_set_ne; [apply Hfresh; now right|]. intros ->. contradiction.
Qed.

(** A [func_def] whose parameter names are distinct strings registers
    them in order, each with the empty string as its value, together with
    the body: the number of parameters of the table entry is the number
    of declared names. *)
Lemma func_def_registers s a kvs f l names body :
  heap s !! a = Some (ODict kvs) ->
  dict_get kvs "func_name" = Some (VStr f) ->
  dict_get kvs "arguments" = Some (VRef l) ->
  dict_get kvs "commands" = Some body ->
  heap s !! l = Some (OList (map VStr names)) ->
  List.NoDup names ->
  let r := _handle_func_def (VRef a) s in
  res r = Ok tt /\ yields r = [] /\
  dict_get (_fuctions (fin r)) f =
    Some (FuncData (map (fun n => (n, VStr "")) names) body).
Proof.
  intros Ha Hf Hl Hb Hnames Hnd r. subst r. unfold _handle_func_def.
  rewrite (bind_ok_nil _ _ _ _ _ (field_ok _ _ _ _ _ Ha Hf)).
  rewrite (bind_ok_nil _ _ _ _ _ (field_ok _ _ _ _ _ Ha Hl)).
  rewrite (bind_ok_nil _ _ _ _ _ (field_ok _ _ _ _ _ Ha Hb)).
  set (empty := VRef (length (heap s))).
  set (s1 := set_heap (heap s ++ [OList []])%list s).
  rewrite (bind_ok_nil _ _ s empty s1) by reflexivity.
  set (s2 := set_fuctions (dict_set (_fuctions s1) f (FuncData [] empty)) s1).
  rewrite (bind_ok_nil _ _ s1 tt s2) by reflexivity.
  rewrite (bind_ok_nil _ _ s2 (map VStr names) s2).
  2: { unfold list_items. simpl. rewrite lookup_app_l by (eapply lookup_lt_Some; eauto).
       now rewrite Hnames. }
  assert (Hfd2 : dict_get (_fuctions s2) f = Some (FuncData [] empty))
    by apply dict_get_set_eq.
  rewrite (bind_ok_nil _ _ _ _ _
             (for_each_set_argument f names s2 [] empty Hfd2 Hnd (fun _ _ => eq_refl))).
  set (s3 := set_fuctions _ s2).
  assert (Hfd3 : dict_get (_fuctions s3) f =
                 Some (FuncData ([] ++ map (fun n => (n, VStr "")) names) empty))
    by apply dict_get_set_eq.
  unfold set_function_commands.
  rewrite (bind_ok_nil _ _ _ _ _ (get_function_ok _ _ _ Hfd3)).
  simpl. repeat split. apply dict_get_set_eq.
Qed.

(** With a name declared twice the table entry has one parameter less:
    [to f :a :a end] followed by [f 1] is a call with matching counts. *)
Lemma duplicate_parameter_counts_once :
  let r := interpret_tree 10
             (program [func_def "f" ["a"; "a"] [forward (JStr "a")];
                       func_call "f" [JFloat 1]]) in
  (res r, yields r) = (Ok tt, [YFresh [("name", VStr "forward"); ("value", VFloat 1)]]).
Proof. vm_compute. reflexivity. Qed.

(** [func_def_registers] at the definition of [f] in [calls]. *)
Lemma func_def_registers_witness :
  let r := _handle_func_def (VRef 3) (loaded calls) in
  res r = Ok tt /\ yields r = [] /\
  dict_get (_fuctions (fin r)) "f" = Some (FuncData [("a", VStr "")] (VRef 2)).
Proof.
  apply (func_def_registers (loaded calls) 3%nat
           [("name", VStr "func_def"); ("func_name", VStr "f"); ("arguments", VRef 0);
            ("commands", VRef 2)]
           "f" 0%nat ["a"] (VRef 2)); try reflexivity.
  repeat constructor. intros [].
Defined.

(** ** The effect of [_evaluate], in one statement *)

(** X1. Evaluating an expression, within the behaviour that is modelled,
    yields nothing and leaves the variables, the function table and the
    bindings of [_lists] as they are; in the store every dict, so every
    node of the tree, stays as it is, and so does every object that
    [_lists] does not refer to. (The evaluation that is left out writes
    through a [set] into a dict that [list_make] has bound as a list.) *)
Theorem evaluate_writes_lists_only fuel value s :
  let r := _evaluate fuel value s in
  res r <> Unmodelled ->
  yields r = [] /\
  _variables (fin r) = _variables s /\
  _fuctions (fin r) = _fuctions s /\
  _lists (fin r) = _lists s /\
  (forall a kvs, heap s !! a = Some (ODict kvs) -> heap (fin r) !! a = Some (ODict kvs)) /\
  (forall a, ~ is_target (_lists s) a -> heap (fin r) !! a = heap s !! a).
Proof.
  intros r _. subst r. destruct (_evaluate_effect fuel value s) as (Hy & He).
  pose proof He as (Hv & Hf & Hl & _ & Hh).
  repeat split; auto.
  - intros a kvs Ha. now apply (evolves_dict _ _ _ _ He).
  - intros a Hnt. destruct (Hh a) as [E | (Ht & _)]; [exact E | contradiction].
Qed.

(** [evaluate_writes_lists_only] at the list query [set L 0 7] of
    [list_operations], which writes into the list [L]. *)
Lemma evaluate_writes_lists_only_witness :
  let s := list_made in
  let r := _evaluate 2 (VRef 2) s in
  yields r = [] /\
  _variables (fin r) = _variables s /\
  _fuctions (fin r) = _fuctions s /\
  _lists (fin r) = _lists s /\
  (forall a kvs, heap s !! a = Some (ODict kvs) -> heap (fin r) !! a = Some (ODict kvs)) /\
  (forall a, ~ is_target (_lists s) a -> heap (fin r) !! a = heap s !! a).
Proof.
  intros s r. apply (evaluate_writes_lists_only 2 (VRef 2) s).
  vm_compute. discriminate.
Defined.

(** ** What the generator yields *)

Lemma silent_ret {A} (a : A) : silent (ret a).
Proof. now intros s. Qed.

Lemma silent_raise {A} e : silent (@raise A e).
Proof. now intros s. Qed.

Lemma silent_reads {A} (m : M A) : reads m -> silent m.
Proof. intros H s. apply H. Qed.

Lemma silent_bind {A B} (m : M A) (k : A -> M B) :
  silent m -> (forall a, silent (k a)) -> silent (bind m k).
Proof.
  intros Hm Hk s. unfold bind. specialize (Hm s).
  destruct (m s) as [[a|e| |] s1 ys1]; simpl in *; subst; auto. apply Hk.
Qed.

Lemma silent_try_except {A} (m : M A) h :
  silent m -> (forall e k, h e = Some k -> silent k) -> silent (try_except m h).
Proof.
  intros Hm Hh s. unfold try_except. specialize (Hm s).
  destruct (m s) as [[a|e| |] s1 ys1]; simpl in *; subst; auto.
  destruct (h e) as [k|] eqn:E; simpl; auto. apply (Hh e k E).
Qed.

Lemma silent_except_KeyError {A} (m : M A) e' :
  silent m -> silent (try_except m (except_KeyError e')).
Proof.
  intros Hm. apply silent_try_except; [assumption|].
  intros e k. destruct e; simpl; try discriminate. intros [= <-]. apply silent_raise.
Qed.

Lemma silent_setitem o k v : silent (setitem o k v).
Proof. intros s. unfold setitem. now destruct (py_setitem (heap s) o k v). Qed.

Lemma silent_set_variable k v : silent (set_variable k v).
Proof. intros s. unfold set_variable. now destruct (table_set (_variables s) k v). Qed.

Lemma silent_set_list k v : silent (set_list k v).
Proof. intros s. unfold set_list. now destruct (table_set (_lists s) k v). Qed.

Lemma silent_set_function k v : silent (set_function k v).
Proof. intros s. unfold set_function. now destruct (table_set (_fuctions s) k v). Qed.

Lemma silent_list_items o : silent (list_items o).
Proof.
  intros s. unfold list_items. destruct o; try reflexivity.
  now destruct (heap s !! a) as [[?|?]|].
Qed.

Lemma silent_for_each {A} (xs : list A) (body : A -> M unit) :
  (forall x, silent (body x)) -> silent (for_each xs body).
Proof.
  intros Hb. induction xs as [|x xs IH]; simpl; [apply silent_ret|].
  apply silent_bind; auto.
Qed.

Lemma silent_for_range_from n : forall i (body : nat -> M unit),
  (forall j, silent (body j)) -> silent (for_range_from n i body).
Proof.
  induction n as [|n IH]; intros i body Hb; simpl; [apply silent_ret|].
  apply silent_bind; auto.
Qed.

Lemma silent__evaluate fuel e : silent (_evaluate fuel e).
Proof. intros s. apply _evaluate_effect. Qed.

Lemma silent__handle_list fuel command : silent (_handle_list (_evaluate fuel) command).
Proof.
  intros s.
  apply (_handle_list_frames (_evaluate fuel) (_evaluate_frames fuel) s command s
           (evolves_refl s)).
Qed.

(** Closes a goal [silent m] for a computation built from the pieces
    above. *)
Ltac silent_step :=
  first
    [ assumption
    | match goal with H : forall _, silent _ |- _ => apply H end
    | apply silent_ret | apply silent_raise
    | apply silent_setitem | apply silent_set_variable | apply silent_set_list
    | apply silent_set_function | apply silent_list_items
    | apply silent__evaluate | apply silent__handle_list
    | apply silent_reads;
      first [ apply reads_field | apply reads_lift | apply reads_pure | apply reads_local
            | apply reads_list_method ]
    | now intros ?
    | apply silent_except_KeyError
    | apply silent_for_each; intros
    | apply silent_for_range_from; intros
    | apply silent_bind; [| intros]
    | match goal with
      | |- silent (if ?b then _ else _) => destruct b
      | |- silent (match ?x with _ => _ end) => destruct x
      end ].
Ltac silent_auto := repeat silent_step.

Lemma silent_set_argument f n v : silent (set_argument f n v).
Proof. unfold set_argument, get_function, pure_outcome. silent_auto. Qed.

Lemma silent__handle_func_def command : silent (_handle_func_def command).
Proof.
  pose proof silent_set_argument.
  unfold _handle_func_def, alloc, set_function_commands, get_function. silent_auto.
Qed.

Lemma silent__handle_make fuel command : silent (_handle_make (_evaluate fuel) command).
Proof. unfold _handle_make. silent_auto. Qed.

Lemma silent__handle_list_make fuel command :
  silent (_handle_list_make (_evaluate fuel) command).
Proof. unfold _handle_list_make, for_range, alloc, pure_outcome. silent_auto. Qed.

Lemma silent_bind_arguments fuel f args keys n :
  silent (bind_arguments (_evaluate fuel) f args keys n).
Proof. pose proof silent_set_argument. unfold bind_arguments, for_range. silent_auto. Qed.

Lemma emits_silent {A} (m : M A) : silent m -> emits m.
Proof. intros H s. rewrite (H s). constructor. Qed.

Lemma emits_bind {A B} (m : M A) (k : A -> M B) :
  emits m -> (forall a, emits (k a)) -> emits (bind m k).
Proof.
  intros Hm Hk s. unfold bind. specialize (Hm s).
  destruct (m s) as [[a|e| |] s1 ys1]; simpl in *; auto.
  apply Forall_app. split; [assumption | apply Hk].
Qed.

Lemma emits_try_except_raise {A} (m : M A) (h : exn -> option exn) :
  emits m -> emits (try_except m (fun e => option_map raise (h e))).
Proof.
  intros Hm s. unfold try_except. specialize (Hm s).
  destruct (m s) as [[a|e| |] s1 ys1]; simpl in *; auto.
  destruct (h e); simpl; [now rewrite app_nil_r | assumption].
Qed.

Lemma emits_except_KeyError {A} (m : M A) e' :
  emits m -> emits (try_except m (except_KeyError e')).
Proof.
  intros Hm s. unfold try_except. specialize (Hm s).
  destruct (m s) as [[a|e| |] s1 ys1]; simpl in *; auto.
  destruct e; simpl; auto. now rewrite app_nil_r.
Qed.

Lemma emits_for_range_from n : forall i (body : nat -> M unit),
  (forall j, emits (body j)) -> emits (for_range_from n i body).
Proof.
  induction n as [|n IH]; intros i body Hb; simpl; [apply emits_silent, silent_ret|].
  apply emits_bind; auto.
Qed.

Lemma emits_for_in_from (body : val -> M unit) :
  (forall c, emits (body c)) -> forall fuel o i, emits (for_in_from fuel o i body).
Proof.
  intros Hb. induction fuel as [|fuel IH]; intros o i s; simpl; [constructor|].
  destruct o; try constructor.
  destruct (heap s !! a) as [[xs|kvs]|]; try constructor.
  destruct (xs !! i) as [x|]; [|constructor].
  apply (emits_bind (body x) (fun _ => for_in_from fuel (VRef a) (S i) body)); auto.
Qed.

(** One silent step of a handler, with what it returned and where. *)
Lemma yields_after_silent {A B} (m : M A) (k : A -> M B) s :
  silent m ->
  (forall a s1, m s = Res (Ok a) s1 [] -> Forall is_renderer_command (yields (k a s1))) ->
  Forall is_renderer_command (yields (bind m k s)).
Proof.
  intros Hm Hk. unfold bind. specialize (Hm s).
  destruct (m s) as [[a|e| |] s1 ys1]; simpl in *; subst; try constructor.
  now apply Hk.
Qed.

Lemma field_returns command k s v s1 :
  field command k s = Res (Ok v) s1 [] ->
  s1 = s /\ exists a kvs, command = VRef a /\ heap s !! a = Some (ODict kvs) /\
                          dict_get kvs k = Some v.
Proof.
  unfold field, getitem, lift. intros [= H <-]. split; [reflexivity|].
  unfold py_getitem in H. destruct command; try discriminate.
  destruct (heap s !! a) as [[xs|kvs]|] eqn:E; try discriminate.
  destruct (dict_get kvs k) eqn:Ek; [|discriminate]. injection H as <-. eauto.
Qed.

Section DispatchEmits.
Variable fuel : nat.
Let ev := _evaluate fuel.
Variable interp : val -> M unit.
Hypothesis interp_emits : forall c, emits (interp c).

Lemma emits__handle_func_call command : emits (_handle_func_call interp ev command).
Proof.
  unfold _handle_func_call.
  apply emits_bind; [apply emits_silent; silent_auto | intros func_name].
  apply emits_bind; [apply emits_silent; silent_auto | intros arguments].
  apply emits_except_KeyError.
  apply emits_bind; [apply emits_silent; unfold get_function; silent_auto | intros fd].
  apply emits_bind; [apply emits_silent; silent_auto | intros n].
  destruct (negb _); [apply emits_silent, silent_raise|].
  apply emits_bind; [apply emits_silent; unfold get_function; silent_auto | intros fd'].
  apply emits_bind; [apply emits_silent; silent_auto | intros n'].
  apply emits_bind; [apply emits_silent, silent_bind_arguments | intros _].
  apply emits_bind; [apply emits_silent; unfold get_function; silent_auto | intros fd''].
  apply (emits_try_except_raise _
           (fun e => Some (InterpreterFunctionExecutionError func_name e))).
  apply interp_emits.
Qed.

Lemma emits__handle_repeat command : emits (_handle_repeat interp ev command).
Proof.
  unfold _handle_repeat, for_range.
  apply emits_bind; [apply emits_silent; silent_auto | intros e].
  apply emits_bind; [apply emits_silent; apply silent__evaluate | intros v].
  apply emits_bind; [apply emits_silent; unfold pure_outcome; silent_auto | intros n].
  apply emits_for_range_from. intros _.
  apply emits_bind; [apply emits_silent; silent_auto | intros b]. apply interp_emits.
Qed.

Lemma emits__handle_if command : emits (_handle_if interp ev command).
Proof.
  unfold _handle_if.
  apply emits_bind; [apply emits_silent; silent_auto | intros e].
  apply emits_bind; [apply emits_silent; apply silent__evaluate | intros v].
  apply emits_bind; [apply emits_silent; silent_auto | intros b].
  destruct b; (apply emits_bind; [apply emits_silent; silent_auto | intros c]);
    apply interp_emits.
Qed.

Lemma yields_yield_node s a kvs n :
  heap s !! a = Some (ODict kvs) ->
  dict_get kvs "name" = Some (VStr n) -> In n renderer_commands ->
  Forall is_renderer_command (yields (yield_node (VRef a) s)).
Proof.
  intros Ha Hn Hin. unfold yield_node. rewrite Ha. simpl.
  constructor; [|constructor]. now exists n.
Qed.

Lemma yields__handle_movement s a kvs n :
  heap s !! a = Some (ODict kvs) ->
  dict_get kvs "name" = Some (VStr n) -> In n renderer_commands ->
  Forall is_renderer_command (yields (_handle_movement ev (VRef a) s)).
Proof.
  intros Ha Hn Hin. unfold _handle_movement.
  rewrite (bind_ok_nil _ _ _ _ _ (field_ok _ _ _ _ _ Ha Hn)).
  apply yields_after_silent; [silent_auto | intros e s1 _].
  apply yields_after_silent; [apply silent__evaluate | intros v s2 _].
  simpl. constructor; [|constructor]. now exists n.
Qed.

Lemma yields__handle_setpencolor s a kvs :
  heap s !! a = Some (ODict kvs) ->
  dict_get kvs "name" = Some (VStr "setpencolor") ->
  Forall is_renderer_command (yields (_handle_setpencolor (VRef a) s)).
Proof.
  intros Ha Hn. unfold _handle_setpencolor.
  apply yields_after_silent; [silent_auto | intros c s1 Hc].
  apply field_returns in Hc as (-> & _).
  destruct (negb _).
  - rewrite (silent_bind (field (VRef a) "color") _); [constructor | silent_auto | ].
    intros ?. apply silent_raise.
  - apply (yields_yield_node _ _ _ _ Ha Hn). vm_compute. tauto.
Qed.

Lemma yields_handle_setpos s a kvs :
  heap s !! a = Some (ODict kvs) ->
  dict_get kvs "name" = Some (VStr "setpos") ->
  Forall is_renderer_command (yields (handle_setpos ev (VRef a) s)).
Proof.
  intros Ha Hn. unfold handle_setpos.
  apply yields_after_silent; [silent_auto | intros ex s0 Hx].
  apply field_returns in Hx as (-> & _).
  apply yields_after_silent; [apply silent__evaluate | intros vx s1 Hex].
  assert (Ha1 : heap s1 !! a = Some (ODict kvs)).
  { generalize (_evaluate_keeps_dict fuel ex s a kvs Ha). fold ev. now rewrite Hex. }
  rewrite (bind_ok_nil _ _ _ _ _ (setitem_field _ _ _ _ _ Ha1)).
  set (s1' := set_heap _ s1).
  assert (Ha1' : heap s1' !! a = Some (ODict (dict_set kvs "x" vx)))
    by apply (heap_written _ _ _ _ Ha1).
  apply yields_after_silent; [silent_auto | intros ey s0 Hy].
  apply field_returns in Hy as (-> & _).
  apply yields_after_silent; [apply silent__evaluate | intros vy s2 Hey].
  assert (Ha2 : heap s2 !! a = Some (ODict (dict_set kvs "x" vx))).
  { generalize (_evaluate_keeps_dict fuel ey s1' a _ Ha1'). fold ev. now rewrite Hey. }
  rewrite (bind_ok_nil _ _ _ _ _ (setitem_field _ _ _ _ _ Ha2)).
  eapply yields_yield_node.
  - apply (heap_written _ _ _ _ Ha2).
  - rewrite !dict_get_set_ne by discriminate. exact Hn.
  - vm_compute. tauto.
Qed.

Lemma emits_dispatch command : emits (dispatch interp ev command).
Proof.
  intros s. unfold dispatch.
  apply yields_after_silent; [silent_auto | intros name s1 Hname].
  apply field_returns in Hname as (-> & a & kvs & -> & Ha & Hn).
  destruct name as [| | | |n|]; try constructor.
  destruct (String.eqb n "func_def"); [apply emits_silent, silent__handle_func_def|].
  destruct (String.eqb n "func_call"); [apply emits__handle_func_call|].
  destruct (String.eqb n "make"); [apply emits_silent, silent__handle_make|].
  destruct (String.eqb n "list_make"); [apply emits_silent, silent__handle_list_make|].
  destruct (String.eqb n "list").
  { apply emits_silent. apply silent_bind; [apply silent__handle_list|].
    intros _. apply silent_ret. }
  destruct (String.eqb n "repeat"); [apply emits__handle_repeat|].
  destruct (String.eqb n "if"); [apply emits__handle_if|].
  destruct (name_in n ["forward"; "backward"; "left"; "right"]) eqn:Hmove.
  { apply (yields__handle_movement _ _ _ _ Ha Hn).
    apply existsb_exists in Hmove as (x & Hx & ->%String.eqb_eq).
    simpl in Hx. simpl. tauto. }
  destruct (name_in n ["hideturtle"; "showturtle"; "penup"; "pendown"]) eqn:Hnoop.
  { apply (yields_yield_node _ _ _ _ Ha Hn).
    apply existsb_exists in Hnoop as (x & Hx & ->%String.eqb_eq).
    simpl in Hx. simpl. tauto. }
  destruct (String.eqb_spec n "setpos") as [-> | _]; [now apply (yields_handle_setpos _ _ _ Ha)|].
  destruct (String.eqb_spec n "setpencolor") as [-> | _];
    [now apply (yields__handle_setpencolor _ _ _ Ha)|].
  destruct (String.eqb_spec n "setpensize") as [-> | _].
  { apply (yields__handle_movement _ _ _ _ Ha Hn). vm_compute. tauto. }
  destruct (String.eqb_spec n "print") as [-> | _].
  { apply (yields__handle_movement _ _ _ _ Ha Hn). vm_compute. tauto. }
  constructor.
Qed.

End DispatchEmits.

Lemma _interpret_emits fuel : forall commands, emits (_interpret fuel commands).
Proof.
  induction fuel as [|fuel IH]; intros commands s; simpl.
  - constructor.
  - apply emits_except_KeyError. apply emits_for_in_from.
    intros c. apply emits_dispatch. exact IH.
Qed.

(** X2. Whatever the tree and the state, and however the run ends, every item
    the generator yields carries the name of a renderer command: the
    commands that define, assign or steer ([func_def], [func_call],
    [make], [list_make], [list], [repeat], [if]) never reach the output.
    This holds for [_interpret] from any state and so for a whole run. *)
Theorem yields_are_renderer_commands fuel :
  (forall commands s, Forall is_renderer_command (yields (_interpret fuel commands s))) /\
  (forall tree h, Forall is_renderer_command (yields (run fuel tree h))).
Proof.
  split; [exact (_interpret_emits fuel)|].
  intros tree h. unfold run.
  apply emits_bind; [|intros _ s; apply _interpret_emits].
  apply emits_silent. unfold __init__.
  apply silent_bind; [|now intros ? ?].
  apply silent_try_except; [silent_auto|].
  intros e k. destruct e; try discriminate; intros [= <-]; apply silent_raise.
Qed.

(** ** Commands run in order *)

Lemma for_in_from_in_order (body : val -> M unit) c : forall rs n i s,
  runs_in_order body c i s rs -> (length rs <= n)%nat ->
  for_in_from n (VRef c) i body s =
  let r := for_in_from (n - length rs) (VRef c) (i + length rs) body
             (List.last (map fin rs) s) in
  Res (res r) (fin r) (concat (map yields rs) ++ yields r).
Proof.
  induction rs as [|r rs IH]; intros n i s Hrs Hn.
  - cbn [length map concat List.last app]. rewrite Nat.sub_0_r, Nat.add_0_r.
    now destruct (for_in_from n (VRef c) i body s).
  - destruct Hrs as ((xs & x & Hc & Hi & Hx) & Hok & Hrest).
    destruct n as [|n]; [simpl in Hn; lia|].
    cbn [for_in_from]. rewrite Hc, Hi.
    destruct r as [o s1 ys1]. simpl in Hok, Hrest. subst o.
    rewrite (bind_ok _ _ _ _ _ _ Hx).
    rewrite (IH n (S i) s1 Hrest) by (simpl in Hn; lia).
    cbn [length map concat fin yields res]. rewrite last_cons.
    replace (S n - S (length rs))%nat with (n - length rs)%nat by lia.
    replace (i + S (length rs))%nat with (S i + length rs)%nat by lia.
    cbn zeta. cbn [res fin yields]. now rewrite app_assoc.
Qed.

(** X3. The commands of a list run in order, each in the state its
    predecessor left. When the list ends after them, the run returns with
    their outputs one after the other; when the next command does not end
    normally, the outputs and the state changes of the commands before it
    stay as they are, its own output up to the failure is appended, and
    the run ends the way that command did, a [KeyError] turned into the
    invalid-tree error. *)
Theorem commands_run_in_order fuel c s rs :
  let body := dispatch (_interpret fuel) (_evaluate fuel) in
  let s' := List.last (map fin rs) s in
  runs_in_order body c 0 s rs ->
  (length rs < fuel)%nat ->
  (forall xs, heap s' !! c = Some (OList xs) -> xs !! length rs = None ->
     _interpret (S fuel) (VRef c) s = Res (Ok tt) s' (concat (map yields rs))) /\
  (forall xs x, heap s' !! c = Some (OList xs) -> xs !! length rs = Some x ->
     is_ok (res (body x s')) = false ->
     _interpret (S fuel) (VRef c) s =
     Res (translated (res (body x s'))) (fin (body x s'))
         (concat (map yields rs) ++ yields (body x s'))).
Proof.
  intros body s' Hrs Hlen.
  assert (Hloop := for_in_from_in_order body c rs fuel 0 s Hrs ltac:(lia)).
  fold s' in Hloop. cbn zeta in Hloop. rewrite Nat.add_0_l in Hloop.
  destruct (fuel - length rs)%nat as [|n] eqn:En; [lia|].
  cbn [for_in_from] in Hloop.
  split.
  - intros xs Hc Hend. rewrite Hc, Hend in Hloop. cbn [res fin yields] in Hloop.
    cbn [_interpret]. unfold try_except. fold body. rewrite Hloop.
    now rewrite app_nil_r.
  - intros xs x Hc Hx Hfail. rewrite Hc, Hx in Hloop.
    cbn [_interpret]. unfold try_except. fold body. rewrite Hloop.
    destruct (body x s') as [o s1 ys1] eqn:Eb. cbn [res fin yields] in *.
    rewrite (bind_fail _ _ _ _ _ _ Eb Hfail). cbn [res fin yields].
    destruct o as [[]|e| |]; try discriminate; try reflexivity.
    destruct e; simpl; try reflexivity. now rewrite app_nil_r.
Qed.

(** [commands_run_in_order] at [two_then_malformed]: the first two
    commands have run when the third one fails. *)
Lemma commands_run_in_order_witness :
  let s := loaded two_then_malformed in
  let s2 := set_variables [("x", VFloat 2)] s in
  let rs := [Res (Ok tt) s [YFresh [("name", VStr "forward"); ("value", VFloat 1)]];
             Res (Ok tt) s2 []] in
  runs_in_order (dispatch (_interpret 3) (_evaluate 3)) 3 0 s rs /\
  _interpret 4 (VRef 3) s =
  Res (Raise InterpreterInvalidTreeError) s2
      [YFresh [("name", VStr "forward"); ("value", VFloat 1)]].
Proof.
  intros s s2 rs.
  assert (Hrs : runs_in_order (dispatch (_interpret 3) (_evaluate 3)) 3 0 s rs).
  { split; [now exists [VRef 0; VRef 1; VRef 2], (VRef 0) |].
    split; [reflexivity|].
    split; [now exists [VRef 0; VRef 1; VRef 2], (VRef 1) |].
    split; [reflexivity | exact I]. }
  split; [exact Hrs|].
  exact (proj2 (commands_run_in_order 3 3 s rs Hrs ltac:(simpl; lia))
           [VRef 0; VRef 1; VRef 2] (VRef 2) eq_refl eq_refl eq_refl).
Defined.

(** ** Variables *)

(** X4. After [make x e] the variable is set to the value of [e], and
    reading [x] gives: the value a parameter named [x] of any defined
    function holds, when there is one; else the truth value, when [x] is
    [true] or [false]; else the value just assigned. The assignment itself
    always lands in [_variables]. *)
Theorem make_then_read fuel fuel' s a kvs x e v s1 :
  heap s !! a = Some (ODict kvs) ->
  dict_get kvs "name" = Some (VStr "make") ->
  dict_get kvs "var_name" = Some (VStr x) ->
  dict_get kvs "value" = Some e ->
  _evaluate fuel e s = Res (Ok v) s1 [] ->
  let s2 := set_variables (dict_set (_variables s1) x v) s1 in
  dispatch (_interpret fuel) (_evaluate fuel) (VRef a) s = Res (Ok tt) s2 [] /\
  _evaluate (S fuel') (VStr x) s2 =
  Res (Ok match find_argument (_fuctions s1) x with
          | Some w => w
          | None =>
              if String.eqb x "true" then VBool true
              else if String.eqb x "false" then VBool false
              else v
          end) s2 [].
Proof.
  intros Ha Hn Hx He Hev s2. split.
  - unfold dispatch.
    rewrite (bind_ok_nil _ _ _ _ _ (field_ok _ _ _ _ _ Ha Hn)). eval_string_tests.
    unfold _handle_make.
    rewrite (bind_ok_nil _ _ _ _ _ (field_ok _ _ _ _ _ Ha Hx)).
    rewrite (bind_ok_nil _ _ _ _ _ (field_ok _ _ _ _ _ Ha He)).
    rewrite (bind_ok_nil _ _ _ _ _ Hev). reflexivity.
  - cbn [_evaluate]. change (_fuctions s2) with (_fuctions s1).
    destruct (find_argument (_fuctions s1) x); [reflexivity|].
    destruct (String.eqb x "true"); [reflexivity|].
    destruct (String.eqb x "false"); [reflexivity|].
    change (_variables s2) with (dict_set (_variables s1) x v).
    now rewrite dict_get_set_eq.
Qed.

(** [make_then_read] at [make y 5], read back as 5, and at [make x 5]
    where [x] is a parameter of [f]: reading [x] gives the parameter's
    value, the empty string. *)
Lemma make_then_read_witness :
  let s := two_makes in
  let sy := set_variables [("y", VFloat 5)] s in
  let sx := set_variables [("x", VFloat 5)] s in
  (dispatch (_interpret 1) (_evaluate 1) (VRef 1) s = Res (Ok tt) sy [] /\
   _evaluate 1 (VStr "y") sy = Res (Ok (VFloat 5)) sy []) /\
  (dispatch (_interpret 1) (_evaluate 1) (VRef 0) s = Res (Ok tt) sx [] /\
   _evaluate 1 (VStr "x") sx = Res (Ok (VStr "")) sx []).
Proof.
  intros s sy sx. split.
  - exact (make_then_read 1 0 s 1%nat
             [("name", VStr "make"); ("var_name", VStr "y"); ("value", VFloat 5)]
             "y" (VFloat 5) (VFloat 5) s eq_refl eq_refl eq_refl eq_refl eq_refl).
  - exact (make_then_read 1 0 s 0%nat
             [("name", VStr "make"); ("var_name", VStr "x"); ("value", VFloat 5)]
             "x" (VFloat 5) (VFloat 5) s eq_refl eq_refl eq_refl eq_refl eq_refl).
Defined.

(** ** [repeat] and [if] at their edges *)

(** X5. A [repeat] whose count converts to zero or to a negative integer
    yields nothing and changes nothing beyond what evaluating the count
    did; its [commands] field is not read, so it may be missing. *)
Theorem repeat_without_iterations fuel s a kvs count v s1 n :
  heap s !! a = Some (ODict kvs) ->
  dict_get kvs "name" = Some (VStr "repeat") ->
  dict_get kvs "value" = Some count ->
  _evaluate fuel count s = Res (Ok v) s1 [] ->
  py_int v = Ok n ->
  n <= 0 ->
  dispatch (_interpret fuel) (_evaluate fuel) (VRef a) s = Res (Ok tt) s1 [].
Proof.
  intros Ha Hn Hc Hev Hint Hneg. unfold dispatch.
  rewrite (bind_ok_nil _ _ _ _ _ (field_ok _ _ _ _ _ Ha Hn)). eval_string_tests.
  unfold _handle_repeat.
  rewrite (bind_ok_nil _ _ _ _ _ (field_ok _ _ _ _ _ Ha Hc)).
  rewrite (bind_ok_nil _ _ _ _ _ Hev).
  rewrite (bind_ok_nil _ _ s1 n s1) by (unfold pure_outcome; now rewrite Hint).
  replace (Z.to_nat n) with 0%nat by lia. reflexivity.
Qed.

(** [repeat_without_iterations] at [repeat -2.5] without a body. *)
Lemma repeat_without_iterations_witness :
  let s := loaded (node "repeat" [("value", JFloat (-2.5))]) in
  dispatch (_interpret 1) (_evaluate 1) (VRef 0) s = Res (Ok tt) s [].
Proof.
  intros s.
  apply (repeat_without_iterations 1 s 0%nat
           [("name", VStr "repeat"); ("value", VFloat (-2.5))]
           (VFloat (-2.5)) (VFloat (-2.5)) s (-2)); try reflexivity.
  lia.
Defined.

(** X6. An [if] reads the field of the branch it takes and no other: with a
    true condition it is the interpretation of [commands], with a false
    one that of [else_commands], both in the state the condition left. A
    node without [else_commands] therefore runs when its condition is
    true and ends in a [KeyError] when it is false. *)
Theorem if_reads_the_taken_branch fuel s a kvs cond v s1 b :
  heap s !! a = Some (ODict kvs) ->
  dict_get kvs "name" = Some (VStr "if") ->
  dict_get kvs "condition" = Some cond ->
  _evaluate fuel cond s = Res (Ok v) s1 [] ->
  py_truthy (heap s1) v = Ok b ->
  let branch := if b then "commands" else "else_commands" in
  let r := dispatch (_interpret fuel) (_evaluate fuel) (VRef a) s in
  (forall body, dict_get kvs branch = Some body -> r = _interpret fuel body s1) /\
  (dict_get kvs branch = None -> r = Res (Raise KeyError) s1 []).
Proof.
  intros Ha Hn Hc Hev Hb branch r. subst r. unfold dispatch.
  rewrite (bind_ok_nil _ _ _ _ _ (field_ok _ _ _ _ _ Ha Hn)). eval_string_tests.
  unfold _handle_if.
  rewrite (bind_ok_nil _ _ _ _ _ (field_ok _ _ _ _ _ Ha Hc)).
  rewrite (bind_ok_nil _ _ _ _ _ Hev).
  rewrite (bind_ok_nil _ _ s1 b s1) by (unfold truthy, lift; now rewrite Hb).
  assert (Ha1 : heap s1 !! a = Some (ODict kvs)).
  { generalize (_evaluate_keeps_dict fuel cond s a kvs Ha). now rewrite Hev. }
  subst branch. split.
  - intros body Hbody.
    destruct b; now rewrite (bind_ok_nil _ _ _ _ _ (field_ok _ _ _ _ _ Ha1 Hbody)).
  - intros Hnone.
    destruct b; now rewrite (bind_fail _ _ _ _ _ _ (field_missing _ _ _ _ Ha1 Hnone) eq_refl).
Qed.

(** [if_reads_the_taken_branch] at [if true [forward 1]] and
    [if false [forward 1]], both without [else_commands]. *)
Lemma if_reads_the_taken_branch_witness :
  let s := loaded (JList [node "if" [("condition", JStr "true");
                                     ("commands", JList [forward (JFloat 1)])];
                          node "if" [("condition", JStr "false");
                                     ("commands", JList [forward (JFloat 1)])]]) in
  let call a := dispatch (_interpret 2) (_evaluate 2) (VRef a) s in
  call 2%nat = _interpret 2 (VRef 1) s /\ call 5%nat = Res (Raise KeyError) s [].
Proof.
  intros s call. split.
  - exact (proj1 (if_reads_the_taken_branch 2 s 2%nat
                    [("name", VStr "if"); ("condition", VStr "true"); ("commands", VRef 1)]
                    (VStr "true") (VBool true) s true eq_refl eq_refl eq_refl eq_refl eq_refl)
             (VRef 1) eq_refl).
  - exact (proj2 (if_reads_the_taken_branch 2 s 5%nat
                    [("name", VStr "if"); ("condition", VStr "false"); ("commands", VRef 4)]
                    (VStr "false") (VBool false) s false eq_refl eq_refl eq_refl eq_refl eq_refl)
             eq_refl).
Defined.

(** ** [list_make] *)

Lemma seq_index_nat n i : (i < n)%nat -> seq_index n (Z.of_nat i) = Some i.
Proof.
  intros Hi. unfold seq_index.
  destruct (Z.ltb_spec (Z.of_nat i) 0) as [H|_]; [lia|].
  destruct (Z.leb_spec 0 (Z.of_nat i)) as [_|H]; [|lia].
  destruct (Z.ltb_spec (Z.of_nat i) (Z.of_nat n)) as [_|H]; [|lia].
  simpl. now rewrite Nat2Z.id.
Qed.

Lemma with_list_same s l xs : heap s !! l = Some (OList xs) -> with_list s l xs = s.
Proof.
  intros Hl. unfold with_list. rewrite list_insert_id by assumption. now destruct s.
Qed.

Lemma with_list_lookup s l xs xs0 :
  heap s !! l = Some (OList xs0) -> heap (with_list s l xs) !! l = Some (OList xs).
Proof. intros Hl. unfold with_list. simpl. now apply (heap_written _ _ _ _ Hl). Qed.

Lemma with_list_again s l xs xs' :
  set_heap (<[l := OList xs']> (heap (with_list s l xs))) (with_list s l xs) =
  with_list s l xs'.
Proof. unfold with_list, set_heap. simpl. now rewrite list_insert_insert_eq. Qed.

(** The loop of [_handle_list_make] over the items that are still
    expressions, behind the values written so far. *)
Lemma list_make_loop (ev : val -> M val) s l es0 :
  heap s !! l = Some (OList es0) ->
  forall es vs,
  Forall2 (fun e v => forall xs, ev e (with_list s l xs) = Res (Ok v) (with_list s l xs) [])
    es vs ->
  forall done,
  for_range_from (length es) (length done)
    (fun i =>
       let* x := getitem (VRef l) (VInt (Z.of_nat i)) in
       let* v := ev x in
       setitem (VRef l) (VInt (Z.of_nat i)) v)
    (with_list s l (done ++ es)) =
  Res (Ok tt) (with_list s l (done ++ vs)) [].
Proof.
  intros Hl es vs HF. induction HF as [|e v es vs He HF IH]; intros done.
  - reflexivity.
  - cbn [length for_range_from].
    assert (Hcur := with_list_lookup s l (done ++ e :: es) es0 Hl).
    assert (Hlt : (length done < length (done ++ e :: es))%nat)
      by (rewrite length_app; simpl; lia).
    rewrite (bind_ok_nil _ _ _ tt (with_list s l ((done ++ [v]) ++ es))).
    + replace (S (length done)) with (length (done ++ [v]))
        by (rewrite length_app; simpl; lia).
      rewrite IH. now rewrite <- app_assoc.
    + rewrite (bind_ok_nil _ _ _ e (with_list s l (done ++ e :: es))).
      * rewrite (bind_ok_nil _ _ _ _ _ (He _)).
        unfold setitem, py_setitem. rewrite Hcur. cbn [index_of_key].
        rewrite (seq_index_nat _ _ Hlt). rewrite with_list_again.
        rewrite insert_app_r_alt by lia. rewrite Nat.sub_diag. simpl.
        now rewrite <- app_assoc.
      * unfold getitem, lift, py_getitem. rewrite Hcur. cbn [index_of_key].
        rewrite (seq_index_nat _ _ Hlt). now rewrite list_lookup_middle.
Qed.

(** X7. [list_make] binds the name to the list object of the tree itself, not
    to a copy, after overwriting its items in place with their values
    (here for items whose value does not depend on that list); with
    [empty] instead of a list it binds the name to a new empty list.
    Nothing is yielded. *)
Theorem list_make_binds_the_tree_list fuel s a kvs L :
  heap s !! a = Some (ODict kvs) ->
  dict_get kvs "name" = Some (VStr "list_make") ->
  dict_get kvs "list_name" = Some (VStr L) ->
  let r := dispatch (_interpret fuel) (_evaluate fuel) (VRef a) s in
  (forall l es vs,
     dict_get kvs "list" = Some (VRef l) ->
     heap s !! l = Some (OList es) ->
     Forall2 (fun e v => forall xs,
                _evaluate fuel e (with_list s l xs) = Res (Ok v) (with_list s l xs) [])
       es vs ->
     r = Res (Ok tt) (set_lists (dict_set (_lists s) L (VRef l)) (with_list s l vs)) []) /\
  (dict_get kvs "list" = Some (VStr "empty") ->
   r = Res (Ok tt)
         (set_lists (dict_set (_lists s) L (VRef (length (heap s))))
            (set_heap (heap s ++ [OList []]) s)) []).
Proof.
  intros Ha Hn HL r. subst r. unfold dispatch.
  rewrite (bind_ok_nil _ _ _ _ _ (field_ok _ _ _ _ _ Ha Hn)). eval_string_tests.
  unfold _handle_list_make.
  rewrite (bind_ok_nil _ _ _ _ _ (field_ok _ _ _ _ _ Ha HL)).
  split.
  - intros l es vs Hlist Hl HF.
    rewrite (bind_ok_nil _ _ _ _ _ (field_ok _ _ _ _ _ Ha Hlist)).
    rewrite (bind_ok_nil _ _ s false s) by reflexivity.
    rewrite (bind_ok_nil _ _ s (VRef l) s) by reflexivity.
    rewrite (bind_ok_nil _ _ s (Z.of_nat (length es)) s)
      by (unfold len, lift, py_len; now rewrite Hl).
    rewrite Nat2Z.id. unfold for_range.
    assert (Hloop := list_make_loop (_evaluate fuel) s l es Hl es vs HF []).
    cbn [app length] in Hloop. rewrite (with_list_same _ _ _ Hl) in Hloop.
    rewrite (bind_ok_nil _ _ _ _ _ Hloop). reflexivity.
  - intros Hlist.
    rewrite (bind_ok_nil _ _ _ _ _ (field_ok _ _ _ _ _ Ha Hlist)).
    rewrite (bind_ok_nil _ _ s true s) by reflexivity.
    rewrite (bind_ok_nil _ _ s (VRef (length (heap s))) (set_heap (heap s ++ [OList []]) s))
      by reflexivity.
    rewrite (bind_ok_nil _ _ _ 0 (set_heap (heap s ++ [OList []]) s)).
    + reflexivity.
    + unfold len, lift, py_len. cbn [heap set_heap].
      now rewrite list_lookup_middle.
Qed.

(** [list_make_binds_the_tree_list] at [list_make L [1 :x]] with [x] set
    to 5, where the item [:x] of the tree becomes 5, and at
    [list_make E empty]. *)
Lemma list_make_binds_the_tree_list_witness :
  let s := two_list_makes in
  let call a := dispatch (_interpret 1) (_evaluate 1) (VRef a) s in
  call 1%nat =
    Res (Ok tt) (set_lists [("L", VRef 0)] (with_list s 0 [VFloat 1; VFloat 5])) [] /\
  call 2%nat =
    Res (Ok tt) (set_lists [("E", VRef 4)] (set_heap (heap s ++ [OList []]) s)) [].
Proof.
  intros s call. split.
  - apply (proj1 (list_make_binds_the_tree_list 1 s 1%nat
                    [("name", VStr "list_make"); ("list_name", VStr "L"); ("list", VRef 0)]
                    "L" eq_refl eq_refl eq_refl)
             0%nat [VFloat 1; VStr "x"] [VFloat 1; VFloat 5] eq_refl eq_refl).
    constructor; [reflexivity|]. constructor; [reflexivity|]. constructor.
  - exact (proj2 (list_make_binds_the_tree_list 1 s 2%nat
                    [("name", VStr "list_make"); ("list_name", VStr "E");
                     ("list", VStr "empty")]
                    "E" eq_refl eq_refl eq_refl) eq_refl).
Defined.

(** ** How [func_call] binds its arguments *)

Lemma dict_set_middle {V} (d d' : list (string * V)) k v v' :
  ~ In k (map fst d) -> dict_set (d ++ (k, v) :: d') k v' = (d ++ (k, v') :: d')%list.
Proof.
  induction d as [|[k0 v0] d IH]; simpl; intros Hk.
  - now rewrite String.eqb_refl.
  - destruct (String.eqb_spec k0 k) as [-> | _]; [tauto|]. rewrite IH; tauto.
Qed.

Lemma set_fuctions_same s f fd :
  dict_get (_fuctions s) f = Some fd -> set_fuctions (dict_set (_fuctions s) f fd) s = s.
Proof. intros H. rewrite (dict_set_same _ _ _ H). now destruct s. Qed.

(** The loop of [_handle_func_call] over the parameters that still hold
    their old values, when the arguments are float literals. *)
Lemma bind_arguments_literals fuel f b cmds keys es : forall rest xs done pre s,
  keys = (map fst done ++ map fst rest)%list ->
  List.NoDup keys ->
  length xs = length rest ->
  es = (pre ++ map VFloat xs)%list ->
  length pre = length done ->
  heap s !! b = Some (OList es) ->
  dict_get (_fuctions s) f = Some (FuncData (done ++ rest) cmds) ->
  for_range_from (length rest) (length done)
    (fun i =>
       match keys !! i with
       | Some arg_name =>
           let* a := getitem (VRef b) (VInt (Z.of_nat i)) in
           let* evaluated_value := _evaluate (S fuel) a in
           set_argument (VStr f) (VStr arg_name) evaluated_value
       | None => raise IndexError
       end) s =
  Res (Ok tt)
    (set_fuctions
       (dict_set (_fuctions s) f
          (FuncData (done ++ combine (map fst rest) (map VFloat xs)) cmds)) s) [].
Proof.
  induction rest as [|[k old] rest IH]; intros xs done pre s Hkeys Hnd Hlen Hes Hpre Hb Hfd.
  - destruct xs; [|discriminate]. cbn [length for_range_from map combine].
    rewrite app_nil_r in *. now rewrite (set_fuctions_same _ _ _ Hfd).
  - destruct xs as [|x xs]; [discriminate|]. cbn [length for_range_from map combine].
    cbn [map fst] in Hkeys.
    assert (Hk : keys !! length done = Some k).
    { rewrite Hkeys. rewrite <- (length_map fst done). apply list_lookup_middle. reflexivity. }
    rewrite Hk.
    assert (Hfresh : ~ In k (map fst done)).
    { rewrite Hkeys in Hnd. apply NoDup_remove_2 in Hnd. intros Hin. apply Hnd.
      apply in_or_app. now left. }
    assert (Hx : getitem (VRef b) (VInt (Z.of_nat (length done))) s =
                 Res (Ok (VFloat x)) s []).
    { unfold getitem, lift, py_getitem. rewrite Hb. cbn [index_of_key].
      rewrite seq_index_nat by (rewrite Hes, length_app; simpl; lia).
      rewrite Hes, <- Hpre. cbn [map]. now rewrite list_lookup_middle. }
    set (s1 := set_fuctions
                 (dict_set (_fuctions s) f
                    (FuncData ((done ++ [(k, VFloat x)]) ++ rest) cmds)) s).
    rewrite (bind_ok_nil _ _ _ tt s1).
    + replace (S (length done)) with (length (done ++ [(k, VFloat x)]))
        by (rewrite length_app; simpl; lia).
      rewrite (IH xs (done ++ [(k, VFloat x)])%list (pre ++ [VFloat x])%list s1).
      * unfold s1. cbn [_fuctions set_fuctions]. rewrite dict_set_set.
        now rewrite <- app_assoc.
      * rewrite Hkeys, map_app, <- app_assoc. reflexivity.
      * exact Hnd.
      * simpl in Hlen. lia.
      * rewrite Hes, <- app_assoc. reflexivity.
      * rewrite !length_app. simpl. lia.
      * exact Hb.
      * unfold s1. cbn [_fuctions set_fuctions]. apply dict_get_set_eq.
    + rewrite (bind_ok_nil _ _ _ _ _ Hx).
      rewrite (bind_ok_nil _ _ s (VFloat x) s) by reflexivity.
      rewrite (set_argument_ok _ _ _ _ _ Hfd). cbn [fd_arguments fd_commands].
      rewrite (dict_set_middle _ _ _ _ _ Hfresh). unfold s1.
      now rewrite <- app_assoc.
Qed.

Section FuncCallBinding.
Variable fuel : nat.
Let interp := _interpret (S fuel).
Let ev := _evaluate (S fuel).

(** X8. A call with float literals as arguments overwrites, in the table
    entry of the function, the values of its parameters in order, and
    then is the interpretation of the body in that state, with any
    exception of the body wrapped. No other part of the state is set up
    for the call and none is restored after it: the run goes on in the
    state the body ended in, with the parameters still bound. *)
Theorem func_call_binds_parameters s a kvs f b xs fd :
  heap s !! a = Some (ODict kvs) ->
  dict_get kvs "name" = Some (VStr "func_call") ->
  dict_get kvs "func_name" = Some (VStr f) ->
  dict_get kvs "arguments" = Some (VRef b) ->
  heap s !! b = Some (OList (map VFloat xs)) ->
  dict_get (_fuctions s) f = Some fd ->
  List.NoDup (map fst (fd_arguments fd)) ->
  length xs = length (fd_arguments fd) ->
  let bound := combine (map fst (fd_arguments fd)) (map VFloat xs) in
  let s' := set_fuctions (dict_set (_fuctions s) f (FuncData bound (fd_commands fd))) s in
  dispatch interp ev (VRef a) s =
  try_except (interp (fd_commands fd))
    (fun e => Some (raise (InterpreterFunctionExecutionError (VStr f) e))) s'.
Proof.
  intros Ha Hn Hf Hargs Hb Hfd Hnd Hlen bound s'.
  unfold dispatch.
  rewrite (bind_ok_nil _ _ _ _ _ (field_ok _ _ _ _ _ Ha Hn)). eval_string_tests.
  unfold _handle_func_call.
  rewrite (bind_ok_nil _ _ _ _ _ (field_ok _ _ _ _ _ Ha Hf)).
  rewrite (bind_ok_nil _ _ _ _ _ (field_ok _ _ _ _ _ Ha Hargs)).
  assert (Hlen' : len (VRef b) s = Res (Ok (Z.of_nat (length (fd_arguments fd)))) s []).
  { unfold len, lift, py_len. now rewrite Hb, length_map, Hlen. }
  unfold try_except at 1.
  rewrite (bind_ok_nil _ _ _ _ _ (get_function_ok _ _ _ Hfd)).
  rewrite (bind_ok_nil _ _ _ _ _ Hlen').
  rewrite Z.eqb_refl. cbn [negb].
  rewrite (bind_ok_nil _ _ _ _ _ (get_function_ok _ _ _ Hfd)).
  rewrite (bind_ok_nil _ _ _ _ _ Hlen').
  rewrite Nat2Z.id.
  assert (Hloop := bind_arguments_literals fuel f b (fd_commands fd)
                     (map fst (fd_arguments fd)) (map VFloat xs)
                     (fd_arguments fd) xs [] [] s eq_refl Hnd Hlen eq_refl eq_refl Hb).
  cbn [app length] in Hloop. specialize (Hloop ltac:(now destruct fd)).
  unfold bind_arguments, for_range. fold ev in Hloop.
  rewrite (bind_ok_nil _ _ _ _ _ Hloop). fold bound. fold s'.
  rewrite (bind_ok_nil _ _ s' (FuncData bound (fd_commands fd)) s').
  2: { apply get_function_ok. unfold s'. cbn [_fuctions set_fuctions].
       apply dict_get_set_eq. }
  cbn [fd_commands]. unfold try_except.
  destruct (interp (fd_commands fd) s') as [[[]|e| |] s2 ys2]; reflexivity.
Qed.

(** X9. The arguments are bound one after the other, each evaluated when its
    turn comes: in a call [f :q :p] of a function whose parameters are
    [p] and [q], the second argument is read when [p] already holds the
    value of [q], so both parameters end up with the old value of [q]. *)
Theorem later_argument_sees_earlier_parameter s a kvs f b p q vp vq cmds others :
  heap s !! a = Some (ODict kvs) ->
  dict_get kvs "name" = Some (VStr "func_call") ->
  dict_get kvs "func_name" = Some (VStr f) ->
  dict_get kvs "arguments" = Some (VRef b) ->
  heap s !! b = Some (OList [VStr q; VStr p]) ->
  _fuctions s = (f, FuncData [(p, vp); (q, vq)] cmds) :: others ->
  p <> q ->
  let s' := set_fuctions ((f, FuncData [(p, vq); (q, vq)] cmds) :: others) s in
  dispatch interp ev (VRef a) s =
  try_except (interp cmds)
    (fun e => Some (raise (InterpreterFunctionExecutionError (VStr f) e))) s'.
Proof.
  intros Ha Hn Hf Hargs Hb Hfs Hpq s'.
  assert (Hqp : String.eqb q p = false) by (apply String.eqb_neq; congruence).
  assert (Hpq' : String.eqb p q = false) by now apply String.eqb_neq.
  unfold dispatch.
  rewrite (bind_ok_nil _ _ _ _ _ (field_ok _ _ _ _ _ Ha Hn)). eval_string_tests.
  unfold _handle_func_call.
  rewrite (bind_ok_nil _ _ _ _ _ (field_ok _ _ _ _ _ Ha Hf)).
  rewrite (bind_ok_nil _ _ _ _ _ (field_ok _ _ _ _ _ Ha Hargs)).
  assert (Hfd : dict_get (_fuctions s) f = Some (FuncData [(p, vp); (q, vq)] cmds))
    by (rewrite Hfs; simpl; now rewrite String.eqb_refl).
  assert (Hlen' : len (VRef b) s = Res (Ok 2) s [])
    by (unfold len, lift, py_len; now rewrite Hb).
  unfold try_except at 1.
  rewrite (bind_ok_nil _ _ _ _ _ (get_function_ok _ _ _ Hfd)).
  rewrite (bind_ok_nil _ _ _ _ _ Hlen').
  change (negb (Z.of_nat (length (fd_arguments (FuncData [(p, vp); (q, vq)] cmds))) =? 2)%Z)
    with false. cbv iota.
  rewrite (bind_ok_nil _ _ _ _ _ (get_function_ok _ _ _ Hfd)).
  rewrite (bind_ok_nil _ _ _ _ _ Hlen').
  assert (Hloop : bind_arguments ev (VStr f) (VRef b) [p; q] (Z.to_nat 2) s =
                  Res (Ok tt) s' []).
  { unfold bind_arguments, for_range. change (Z.to_nat 2) with 2%nat.
    cbn [for_range_from lookup list_lookup].
    set (sm := set_fuctions ((f, FuncData [(p, vq); (q, vq)] cmds) :: others) s).
    assert (Hq0 : getitem (VRef b) (VInt (Z.of_nat 0)) s = Res (Ok (VStr q)) s [])
      by (unfold getitem, lift, py_getitem; now rewrite Hb).
    rewrite (bind_ok_nil _ _ s tt sm).
    - assert (Hp1 : getitem (VRef b) (VInt (Z.of_nat 1)) sm = Res (Ok (VStr p)) sm [])
        by (unfold getitem, lift, py_getitem; cbn [heap sm set_fuctions]; now rewrite Hb).
      rewrite (bind_ok_nil _ _ sm tt s').
      + reflexivity.
      + rewrite (bind_ok_nil _ _ _ _ _ Hp1).
        rewrite (bind_ok_nil _ _ sm vq sm).
        * rewrite (set_argument_ok sm f (FuncData [(p, vq); (q, vq)] cmds)).
          -- unfold sm, s'. cbn [_fuctions set_fuctions dict_set fd_arguments fd_commands].
             rewrite String.eqb_refl. cbn [dict_set]. rewrite Hpq', String.eqb_refl.
             reflexivity.
          -- unfold sm. cbn [_fuctions set_fuctions dict_get]. now rewrite String.eqb_refl.
        * unfold ev. cbn [_evaluate]. unfold sm.
          cbn [_fuctions set_fuctions find_argument fd_arguments dict_get].
          now rewrite String.eqb_refl.
    - rewrite (bind_ok_nil _ _ _ _ _ Hq0).
      rewrite (bind_ok_nil _ _ s vq s).
      + rewrite (set_argument_ok _ _ _ _ _ Hfd). unfold sm. rewrite Hfs.
        cbn [dict_set fd_arguments fd_commands]. rewrite !String.eqb_refl. reflexivity.
      + unfold ev. cbn [_evaluate]. rewrite Hfs.
        cbn [find_argument fd_arguments dict_get]. now rewrite Hpq', String.eqb_refl. }
  cbn [map fst fd_arguments].
  rewrite (bind_ok_nil _ _ _ _ _ Hloop).
  rewrite (bind_ok_nil _ _ s' (FuncData [(p, vq); (q, vq)] cmds) s').
  2: { apply get_function_ok. unfold s'. cbn [_fuctions set_fuctions dict_get].
       now rewrite String.eqb_refl. }
  cbn [fd_commands]. unfold try_except.
  destruct (interp cmds s') as [[[]|e| |] s2 ys2]; reflexivity.
Qed.

End FuncCallBinding.

(** [func_call_binds_parameters] at the call [f 3 4] of [f_called]. *)
Lemma func_call_binds_parameters_witness :
  let s := f_called in
  let s' := set_fuctions [("f", FuncData [("a", VFloat 3); ("b", VFloat 4)] (VRef 2))] s in
  dispatch (_interpret 4) (_evaluate 4) (VRef 4) s =
  Res (Ok tt) s' [YFresh [("name", VStr "forward"); ("value", VFloat 3)];
                  YFresh [("name", VStr "forward"); ("value", VFloat 4)]].
Proof.
  intros s s'.
  rewrite (func_call_binds_parameters 3 s 4%nat
             [("name", VStr "func_call"); ("func_name", VStr "f"); ("arguments", VRef 3)]
             "f" 3%nat [3%float; 4%float]
             (FuncData [("a", VFloat 1); ("b", VFloat 2)] (VRef 2))
             eq_refl eq_refl eq_refl eq_refl eq_refl eq_refl).
  - reflexivity.
  - repeat constructor; simpl; intuition discriminate.
  - reflexivity.
Defined.

(** [later_argument_sees_earlier_parameter] at the call [f :b :a] of
    [f_called], where [a] is 1 and [b] is 2: the body sees 2 and 2. *)
Lemma later_argument_sees_earlier_parameter_witness :
  let s := f_called in
  let s' := set_fuctions [("f", FuncData [("a", VFloat 2); ("b", VFloat 2)] (VRef 2))] s in
  dispatch (_interpret 4) (_evaluate 4) (VRef 6) s =
  Res (Ok tt) s' [YFresh [("name", VStr "forward"); ("value", VFloat 2)];
                  YFresh [("name", VStr "forward"); ("value", VFloat 2)]].
Proof.
  intros s s'.
  rewrite (later_argument_sees_earlier_parameter 3 s 6%nat
             [("name", VStr "func_call"); ("func_name", VStr "f"); ("arguments", VRef 5)]
             "f" 5%nat "a" "b" (VFloat 1) (VFloat 2) (VRef 2) []
             eq_refl eq_refl eq_refl eq_refl eq_refl eq_refl).
  - reflexivity.
  - discriminate.
Defined.

(** ** List operations that fail *)

Lemma py_int_raises v e : py_int v = Raise e -> e <> KeyError.
Proof.
  destruct v as [|b|z|f|t|r]; simpl; try discriminate; try (now intros [= <-]).
  - unfold float_to_int. destruct (Prim2SF f); try discriminate; now intros [= <-].
  - unfold str_to_int. destruct t; [now intros [= <-]|].
    destruct (string_forall is_digit _).
    + destruct (_ <=? _)%nat; discriminate.
    + destruct (string_forall is_letter _); [now intros [= <-] | discriminate].
Qed.

Lemma list_remove_raises xs v e : list_remove xs v = Raise e -> e = ValueError.
Proof.
  induction xs as [|x xs IH]; simpl; [now intros [= <-]|].
  destruct (py_is_or_eq x v) as [[|]| | |] eqn:E; try discriminate.
  - destruct (list_remove xs v); try discriminate. intros [= <-]. now apply IH.
  - exfalso. unfold py_is_or_eq, py_eq in E.
    destruct x, v; try discriminate;
      repeat match type of E with
             | (if ?c then _ else _) = _ => destruct c
             end; discriminate.
Qed.

Lemma try_except_other {A} (m : M A) e' s e s1 ys :
  m s = Res (Raise e) s1 ys -> e <> KeyError ->
  try_except m (except_KeyError e') s = Res (Raise e) s1 ys.
Proof. intros H Hne. unfold try_except. rewrite H. now destruct e. Qed.

Lemma try_except_KeyError {A} (m : M A) e' s s1 ys :
  m s = Res (Raise KeyError) s1 ys ->
  try_except m (except_KeyError e') s = Res (Raise e') s1 ys.
Proof. intros H. unfold try_except. rewrite H. simpl. now rewrite app_nil_r. Qed.

Lemma bind_raise {A B} (m : M A) (k : A -> M B) s e s1 ys :
  m s = Res (Raise e) s1 ys -> bind m k s = Res (Raise e) s1 ys.
Proof. intros H. unfold bind. now rewrite H. Qed.

Section ListFailures.
Variables (fuel : nat) (s : state) (a : nat) (kvs : list (string * val)).
Let ev := _evaluate fuel.
Hypothesis node_at : heap s !! a = Some (ODict kvs).

Lemma node_after_evaluate value v s1 :
  ev value s = Res (Ok v) s1 [] ->
  heap s1 !! a = Some (ODict kvs) /\ _lists s1 = _lists s.
Proof.
  intros Hev. destruct (_evaluate_effect fuel value s) as (_ & He).
  fold ev in He. rewrite Hev in He. simpl in He. split.
  - now apply (evolves_dict _ _ _ _ He).
  - now destruct He as (_ & _ & -> & _).
Qed.

Section Bound.
Variables (L : string) (l : nat).
Hypothesis node_list_name : dict_get kvs "list_name" = Some (VStr L).
Hypothesis list_bound : dict_get (_lists s) L = Some (VRef l).

Lemma get_out_of_range index v s1 i xs :
  dict_get kvs "function" = Some (VStr "get") ->
  dict_get kvs "index" = Some index ->
  ev index s = Res (Ok v) s1 [] ->
  py_int v = Ok i ->
  heap s1 !! l = Some (OList xs) ->
  seq_index (length xs) i = None ->
  _handle_list ev (VRef a) s = Res (Raise IndexError) s1 [].
Proof.
  intros Hf Hi Hev Hint Hl Hj.
  rewrite (_handle_list_operation _ _ _ _ _ _ node_at node_list_name Hf), list_bound.
  apply try_except_other; [|discriminate].
  unfold list_operation. eval_string_tests.
  rewrite (bind_ok_nil _ _ _ _ _ (field_ok _ _ _ _ _ node_at Hi)).
  rewrite (bind_ok_nil _ _ _ _ _ Hev).
  rewrite (bind_ok_nil _ _ s1 i s1) by (unfold pure_outcome; now rewrite Hint).
  rewrite (bind_ok_nil _ _ s1 (VRef l) s1) by reflexivity.
  unfold getitem, lift, py_getitem. simpl. now rewrite Hl, Hj.
Qed.

Lemma set_out_of_range index value v s1 i xs :
  dict_get kvs "function" = Some (VStr "set") ->
  dict_get kvs "index" = Some index ->
  dict_get kvs "value" = Some value ->
  ev value s = Res (Ok v) s1 [] ->
  py_int index = Ok i ->
  heap s1 !! l = Some (OList xs) ->
  seq_index (length xs) i = None ->
  _handle_list ev (VRef a) s = Res (Raise IndexError) s1 [].
Proof.
  intros Hf Hi Hv Hev Hint Hl Hj.
  destruct (node_after_evaluate _ _ _ Hev) as (Ha1 & _).
  rewrite (_handle_list_operation _ _ _ _ _ _ node_at node_list_name Hf), list_bound.
  apply try_except_other; [|discriminate].
  unfold list_operation. eval_string_tests.
  rewrite (bind_ok_nil _ _ _ _ _ (field_ok _ _ _ _ _ node_at Hv)).
  rewrite (bind_ok_nil _ _ _ _ _ Hev).
  rewrite (bind_ok_nil _ _ s1 (VRef l) s1) by reflexivity.
  rewrite (bind_ok_nil _ _ _ _ _ (field_ok _ _ _ _ _ Ha1 Hi)).
  rewrite (bind_ok_nil _ _ s1 i s1) by (unfold pure_outcome; now rewrite Hint).
  apply bind_raise.
  unfold setitem, py_setitem. simpl. now rewrite Hl, Hj.
Qed.

(** [remove] when [pop] raises. *)
Lemma remove_raises index i xs e :
  dict_get kvs "function" = Some (VStr "remove") ->
  dict_get kvs "index" = Some index ->
  py_int index = Ok i ->
  heap s !! l = Some (OList xs) ->
  list_pop xs i = Raise e ->
  e <> KeyError ->
  _handle_list ev (VRef a) s = Res (Raise e) s [].
Proof.
  intros Hf Hi Hint Hl Hpop Hne.
  rewrite (_handle_list_operation _ _ _ _ _ _ node_at node_list_name Hf), list_bound.
  apply try_except_other; [|assumption].
  unfold list_operation. eval_string_tests.
  rewrite (bind_ok_nil _ _ s (VRef l) s) by reflexivity.
  rewrite (bind_ok_nil _ _ _ _ _ (list_method_ok _ _ _ _ Hl)).
  rewrite (bind_ok_nil _ _ _ _ _ (field_ok _ _ _ _ _ node_at Hi)).
  rewrite (bind_ok_nil _ _ s i s) by (unfold pure_outcome; now rewrite Hint).
  apply bind_raise.
  unfold call_on_list. now rewrite Hl, Hpop.
Qed.

Lemma remove_out_of_range index i xs :
  dict_get kvs "function" = Some (VStr "remove") ->
  dict_get kvs "index" = Some index ->
  py_int index = Ok i ->
  heap s !! l = Some (OList xs) ->
  fits_ssize_t i = true ->
  seq_index (length xs) i = None ->
  _handle_list ev (VRef a) s = Res (Raise IndexError) s [].
Proof.
  intros Hf Hi Hint Hl Hfit Hj.
  apply (remove_raises index i xs IndexError Hf Hi Hint Hl); [|discriminate].
  unfold list_pop. now rewrite Hfit, Hj.
Qed.

Lemma remove_overflow index i xs :
  dict_get kvs "function" = Some (VStr "remove") ->
  dict_get kvs "index" = Some index ->
  py_int index = Ok i ->
  heap s !! l = Some (OList xs) ->
  fits_ssize_t i = false ->
  _handle_list ev (VRef a) s = Res (Raise OverflowError) s [].
Proof.
  intros Hf Hi Hint Hl Hfit.
  apply (remove_raises index i xs OverflowError Hf Hi Hint Hl); [|discriminate].
  unfold list_pop. now rewrite Hfit.
Qed.

Lemma insert_overflow index value v s1 i xs :
  dict_get kvs "function" = Some (VStr "insert") ->
  dict_get kvs "index" = Some index ->
  dict_get kvs "value" = Some value ->
  py_int index = Ok i ->
  ev value s = Res (Ok v) s1 [] ->
  heap s1 !! l = Some (OList xs) ->
  fits_ssize_t i = false ->
  _handle_list ev (VRef a) s = Res (Raise OverflowError) s1 [].
Proof.
  intros Hf Hi Hv Hint Hev Hl Hfit.
  destruct (after_evaluate s a kvs L node_at fuel l list_bound _ _ _ Hev)
    as (_ & _ & Hl0).
  destruct (Hl0 _ Hl) as (xs0 & Hxs0).
  rewrite (_handle_list_operation _ _ _ _ _ _ node_at node_list_name Hf), list_bound.
  apply try_except_other; [|discriminate].
  unfold list_operation. eval_string_tests.
  rewrite (bind_ok_nil _ _ s (VRef l) s) by reflexivity.
  rewrite (bind_ok_nil _ _ _ _ _ (list_method_ok _ _ _ _ Hxs0)).
  rewrite (bind_ok_nil _ _ _ _ _ (field_ok _ _ _ _ _ node_at Hi)).
  rewrite (bind_ok_nil _ _ s i s) by (unfold pure_outcome; now rewrite Hint).
  rewrite (bind_ok_nil _ _ _ _ _ (field_ok _ _ _ _ _ node_at Hv)).
  rewrite (bind_ok_nil _ _ _ _ _ Hev).
  apply bind_raise.
  unfold call_on_list, list_insert. now rewrite Hl, Hfit.
Qed.

Lemma remove_value_absent value v s1 xs e :
  dict_get kvs "function" = Some (VStr "remove_value") ->
  dict_get kvs "value" = Some value ->
  ev value s = Res (Ok v) s1 [] ->
  heap s1 !! l = Some (OList xs) ->
  list_remove xs v = Raise e ->
  _handle_list ev (VRef a) s = Res (Raise ValueError) s1 [].
Proof.
  intros Hf Hv Hev Hl Hrem.
  destruct (after_evaluate s a kvs L node_at fuel l list_bound _ _ _ Hev)
    as (_ & _ & Hl0).
  destruct (Hl0 _ Hl) as (xs0 & Hxs0).
  rewrite (list_remove_raises _ _ _ Hrem) in Hrem.
  rewrite (_handle_list_operation _ _ _ _ _ _ node_at node_list_name Hf), list_bound.
  apply try_except_other; [|discriminate].
  unfold list_operation. eval_string_tests.
  rewrite (bind_ok_nil _ _ s (VRef l) s) by reflexivity.
  rewrite (bind_ok_nil _ _ _ _ _ (list_method_ok _ _ _ _ Hxs0)).
  rewrite (bind_ok_nil _ _ _ _ _ (field_ok _ _ _ _ _ node_at Hv)).
  rewrite (bind_ok_nil _ _ _ _ _ Hev).
  apply bind_raise.
  unfold call_on_list. now rewrite Hl, Hrem.
Qed.

(** The index of [set], [insert] and [remove] goes through [int] as it
    stands in the node. *)
Lemma index_not_an_integer f index e xs :
  dict_get kvs "function" = Some (VStr f) ->
  In f ["insert"; "remove"] ->
  dict_get kvs "index" = Some index ->
  py_int index = Raise e ->
  heap s !! l = Some (OList xs) ->
  _handle_list ev (VRef a) s = Res (Raise e) s [].
Proof.
  intros Hf Hin Hi Hint Hl.
  rewrite (_handle_list_operation _ _ _ _ _ _ node_at node_list_name Hf), list_bound.
  apply try_except_other; [|now apply (py_int_raises index)].
  unfold list_operation. simpl in Hin.
  destruct Hin as [<- | [<- | []]]; eval_string_tests.
  - rewrite (bind_ok_nil _ _ s (VRef l) s) by reflexivity.
    rewrite (bind_ok_nil _ _ _ _ _ (list_method_ok _ _ _ _ Hl)).
    rewrite (bind_ok_nil _ _ _ _ _ (field_ok _ _ _ _ _ node_at Hi)).
    apply bind_raise. unfold pure_outcome. now rewrite Hint.
  - rewrite (bind_ok_nil _ _ s (VRef l) s) by reflexivity.
    rewrite (bind_ok_nil _ _ _ _ _ (list_method_ok _ _ _ _ Hl)).
    rewrite (bind_ok_nil _ _ _ _ _ (field_ok _ _ _ _ _ node_at Hi)).
    apply bind_raise. unfold pure_outcome. now rewrite Hint.
Qed.

Lemma set_index_not_an_integer index value v s1 e :
  dict_get kvs "function" = Some (VStr "set") ->
  dict_get kvs "index" = Some index ->
  dict_get kvs "value" = Some value ->
  ev value s = Res (Ok v) s1 [] ->
  py_int index = Raise e ->
  _handle_list ev (VRef a) s = Res (Raise e) s1 [].
Proof.
  intros Hf Hi Hv Hev Hint.
  destruct (node_after_evaluate _ _ _ Hev) as (Ha1 & _).
  rewrite (_handle_list_operation _ _ _ _ _ _ node_at node_list_name Hf), list_bound.
  apply try_except_other; [|now apply (py_int_raises index)].
  unfold list_operation. eval_string_tests.
  rewrite (bind_ok_nil _ _ _ _ _ (field_ok _ _ _ _ _ node_at Hv)).
  rewrite (bind_ok_nil _ _ _ _ _ Hev).
  rewrite (bind_ok_nil _ _ s1 (VRef l) s1) by reflexivity.
  rewrite (bind_ok_nil _ _ _ _ _ (field_ok _ _ _ _ _ Ha1 Hi)).
  apply bind_raise. unfold pure_outcome. now rewrite Hint.
Qed.

End Bound.

(** A [list] node without its name or its function. *)
Lemma list_node_without_name_or_function :
  dict_get kvs "list_name" = None \/
  (exists L, dict_get kvs "list_name" = Some (VStr L)) /\ dict_get kvs "function" = None ->
  _handle_list ev (VRef a) s = Res (Raise InterpreterUnboundVariableListError) s [].
Proof.
  intros [Hnone | ((L & HL) & Hnone)]; apply try_except_KeyError.
  - apply (bind_raise _ _ _ _ _ _ (field_missing _ _ _ _ node_at Hnone)).
  - rewrite (bind_reads _ _ _ _ (field_ok _ _ _ _ _ node_at HL)).
    rewrite (bind_reads _ _ s (dict_mem (_lists s) L)) by reflexivity.
    unfold dict_mem. destruct (dict_get (_lists s) L) as [xs|] eqn:E.
    + rewrite (bind_reads _ _ s (Some xs)).
      * apply (bind_raise _ _ _ _ _ _ (field_missing _ _ _ _ node_at Hnone)).
      * rewrite (bind_reads _ _ _ _ (field_ok _ _ _ _ _ node_at HL)).
        rewrite (bind_reads _ _ s xs); [reflexivity|]. simpl. now rewrite E.
    + rewrite (bind_reads _ _ s None) by reflexivity.
      apply (bind_raise _ _ _ _ _ _ (field_missing _ _ _ _ node_at Hnone)).
Qed.

(** A [list] node whose operation lacks the operand it reads first. *)
Lemma list_node_without_operand L f k :
  dict_get kvs "list_name" = Some (VStr L) ->
  dict_get kvs "function" = Some (VStr f) ->
  In (f, k) [("get", "index"); ("set", "value")] ->
  dict_get kvs k = None ->
  _handle_list ev (VRef a) s = Res (Raise InterpreterUnboundVariableListError) s [].
Proof.
  intros HL Hf Hin Hnone.
  rewrite (_handle_list_operation _ _ _ _ _ _ node_at HL Hf).
  apply try_except_KeyError. unfold list_operation. simpl in Hin.
  destruct Hin as [[= <- <-] | [[= <- <-] | []]]; eval_string_tests;
    apply (bind_raise _ _ _ _ _ _ (field_missing _ _ _ _ node_at Hnone)).
Qed.

(** [get] and [set] on a name that is not in [_lists]: the operand is
    evaluated first, then the unbound local is read. *)
Lemma unbound_get_set L f operand v s1 i :
  dict_get kvs "list_name" = Some (VStr L) ->
  dict_get (_lists s) L = None ->
  dict_get kvs "function" = Some (VStr f) ->
  (f = "get" /\ dict_get kvs "index" = Some operand /\ py_int v = Ok i) \/
  (f = "set" /\ dict_get kvs "value" = Some operand) ->
  ev operand s = Res (Ok v) s1 [] ->
  _handle_list ev (VRef a) s = Res (Raise UnboundLocalError) s1 [].
Proof.
  intros HL Hnone Hf Hcase Hev.
  rewrite (_handle_list_operation _ _ _ _ _ _ node_at HL Hf), Hnone.
  apply try_except_other; [|discriminate]. unfold list_operation.
  destruct Hcase as [(-> & Hi & Hint) | (-> & Hv)]; eval_string_tests.
  - rewrite (bind_ok_nil _ _ _ _ _ (field_ok _ _ _ _ _ node_at Hi)).
    rewrite (bind_ok_nil _ _ _ _ _ Hev).
    rewrite (bind_ok_nil _ _ s1 i s1) by (unfold pure_outcome; now rewrite Hint).
    reflexivity.
  - rewrite (bind_ok_nil _ _ _ _ _ (field_ok _ _ _ _ _ node_at Hv)).
    rewrite (bind_ok_nil _ _ _ _ _ Hev). reflexivity.
Qed.

End ListFailures.

(** X10. An index outside the list in [get], [set] or [remove], and a value
    that [remove_value] does not find, end the run with Python's own
    [IndexError] and [ValueError]; an index of [remove] or [insert] that
    does not fit a C [Py_ssize_t] ends it with [OverflowError]. None of
    them is a [KeyError], so [_handle_list] does not turn them into one
    of the interpreter's errors. The list is left as it was. *)
Theorem list_errors_are_not_translated fuel s a kvs L l :
  heap s !! a = Some (ODict kvs) ->
  dict_get kvs "list_name" = Some (VStr L) ->
  dict_get (_lists s) L = Some (VRef l) ->
  let ev := _evaluate fuel in
  (forall index v s1 i xs,
     dict_get kvs "function" = Some (VStr "get") ->
     dict_get kvs "index" = Some index ->
     ev index s = Res (Ok v) s1 [] ->
     py_int v = Ok i ->
     heap s1 !! l = Some (OList xs) ->
     seq_index (length xs) i = None ->
     _handle_list ev (VRef a) s = Res (Raise IndexError) s1 []) /\
  (forall index value v s1 i xs,
     dict_get kvs "function" = Some (VStr "set") ->
     dict_get kvs "index" = Some index ->
     dict_get kvs "value" = Some value ->
     ev value s = Res (Ok v) s1 [] ->
     py_int index = Ok i ->
     heap s1 !! l = Some (OList xs) ->
     seq_index (length xs) i = None ->
     _handle_list ev (VRef a) s = Res (Raise IndexError) s1 []) /\
  (forall index i xs,
     dict_get kvs "function" = Some (VStr "remove") ->
     dict_get kvs "index" = Some index ->
     py_int index = Ok i ->
     heap s !! l = Some (OList xs) ->
     (fits_ssize_t i = true -> seq_index (length xs) i = None ->
      _handle_list ev (VRef a) s = Res (Raise IndexError) s []) /\
     (fits_ssize_t i = false ->
      _handle_list ev (VRef a) s = Res (Raise OverflowError) s [])) /\
  (forall index value v s1 i xs,
     dict_get kvs "function" = Some (VStr "insert") ->
     dict_get kvs "index" = Some index ->
     dict_get kvs "value" = Some value ->
     py_int index = Ok i ->
     ev value s = Res (Ok v) s1 [] ->
     heap s1 !! l = Some (OList xs) ->
     fits_ssize_t i = false ->
     _handle_list ev (VRef a) s = Res (Raise OverflowError) s1 []) /\
  (forall value v s1 xs e,
     dict_get kvs "function" = Some (VStr "remove_value") ->
     dict_get kvs "value" = Some value ->
     ev value s = Res (Ok v) s1 [] ->
     heap s1 !! l = Some (OList xs) ->
     list_remove xs v = Raise e ->
     _handle_list ev (VRef a) s = Res (Raise ValueError) s1 []).
Proof.
  intros Ha HL Hl ev. subst ev. split; [|split; [|split; [|split]]]; intros.
  - eapply get_out_of_range; eauto.
  - eapply set_out_of_range; eauto.
  - split; intros.
    + eapply remove_out_of_range; eauto.
    + eapply remove_overflow; eauto.
  - eapply insert_overflow; eauto.
  - eapply remove_value_absent; eauto.
Qed.

(** [list_errors_are_not_translated] on the list [1 2 3] of
    [list_edge_cases]: [get L 3], [set L 5 7], [remove L -4] and
    [remove_value L 9]; and, with two more nodes in the store, [remove]
    and [insert] at the index 2^63. *)
Lemma list_errors_are_not_translated_witness :
  let s := list_edge_cases in
  let ev := _evaluate 1 in
  let fields_of f (fields : list (string * val)) :=
    ("name", VStr "list") :: ("list_name", VStr "L") :: ("function", VStr f) :: fields in
  let s' := set_heap (heap s ++
                      [ODict (fields_of "remove" [("index", VInt (2 ^ 63))]);
                       ODict (fields_of "insert" [("index", VInt (2 ^ 63));
                                                  ("value", VFloat 7)])]) s in
  _handle_list ev (VRef 1) s = Res (Raise IndexError) s [] /\
  _handle_list ev (VRef 2) s = Res (Raise IndexError) s [] /\
  _handle_list ev (VRef 3) s = Res (Raise IndexError) s [] /\
  _handle_list ev (VRef 4) s = Res (Raise ValueError) s [] /\
  _handle_list ev (VRef 12) s' = Res (Raise OverflowError) s' [] /\
  _handle_list ev (VRef 13) s' = Res (Raise OverflowError) s' [].
Proof.
  intros s ev fields_of s'.
  pose (xs := [VFloat 1; VFloat 2; VFloat 3]).
  split; [|split; [|split; [|split; [|split]]]].
  - destruct (list_errors_are_not_translated 1 s 1%nat
                (fields_of "get" [("index", VFloat 3)]) "L" 0%nat
                eq_refl eq_refl eq_refl) as (H & _).
    exact (H (VFloat 3) (VFloat 3) s 3 xs eq_refl eq_refl eq_refl eq_refl eq_refl eq_refl).
  - destruct (list_errors_are_not_translated 1 s 2%nat
                (fields_of "set" [("index", VInt 5); ("value", VFloat 7)]) "L" 0%nat
                eq_refl eq_refl eq_refl) as (_ & H & _).
    exact (H (VInt 5) (VFloat 7) (VFloat 7) s 5 xs
             eq_refl eq_refl eq_refl eq_refl eq_refl eq_refl eq_refl).
  - destruct (list_errors_are_not_translated 1 s 3%nat
                (fields_of "remove" [("index", VInt (-4))]) "L" 0%nat
                eq_refl eq_refl eq_refl) as (_ & _ & H & _).
    exact (proj1 (H (VInt (-4)) (-4) xs eq_refl eq_refl eq_refl eq_refl) eq_refl eq_refl).
  - destruct (list_errors_are_not_translated 1 s 4%nat
                (fields_of "remove_value" [("value", VFloat 9)]) "L" 0%nat
                eq_refl eq_refl eq_refl) as (_ & _ & _ & _ & H).
    exact (H (VFloat 9) (VFloat 9) s xs ValueError
             eq_refl eq_refl eq_refl eq_refl eq_refl).
  - destruct (list_errors_are_not_translated 1 s' 12%nat
                (fields_of "remove" [("index", VInt (2 ^ 63))]) "L" 0%nat
                eq_refl eq_refl eq_refl) as (_ & _ & H & _).
    exact (proj2 (H (VInt (2 ^ 63)) (2 ^ 63) xs eq_refl eq_refl eq_refl eq_refl) eq_refl).
  - destruct (list_errors_are_not_translated 1 s' 13%nat
                (fields_of "insert" [("index", VInt (2 ^ 63)); ("value", VFloat 7)])
                "L" 0%nat eq_refl eq_refl eq_refl) as (_ & _ & _ & H & _).
    exact (H (VInt (2 ^ 63)) (VFloat 7) (VFloat 7) s' (2 ^ 63) xs
             eq_refl eq_refl eq_refl eq_refl eq_refl eq_refl eq_refl).
Defined.

(** X11. [set], [insert] and [remove] need an index that [int] accepts as it
    stands in the node: when [int] raises on it (a [ValueError] for a
    variable name, a [TypeError] for an expression node), the operation
    ends with that exception and the list is left as it was. *)
Theorem list_index_must_convert fuel s a kvs L l index e :
  heap s !! a = Some (ODict kvs) ->
  dict_get kvs "list_name" = Some (VStr L) ->
  dict_get (_lists s) L = Some (VRef l) ->
  dict_get kvs "index" = Some index ->
  py_int index = Raise e ->
  let ev := _evaluate fuel in
  (forall f xs,
     dict_get kvs "function" = Some (VStr f) ->
     In f ["insert"; "remove"] ->
     heap s !! l = Some (OList xs) ->
     _handle_list ev (VRef a) s = Res (Raise e) s []) /\
  (forall value v s1,
     dict_get kvs "function" = Some (VStr "set") ->
     dict_get kvs "value" = Some value ->
     ev value s = Res (Ok v) s1 [] ->
     _handle_list ev (VRef a) s = Res (Raise e) s1 []).
Proof.
  intros Ha HL Hl Hi Hint ev. subst ev. split; intros.
  - eapply index_not_an_integer; eauto.
  - eapply set_index_not_an_integer; eauto.
Qed.

(** [list_index_must_convert] at [set L :i 7] with the variable [i] set
    to 0. *)
Lemma list_index_must_convert_witness :
  let s := list_edge_cases in
  _handle_list (_evaluate 1) (VRef 5) s = Res (Raise ValueError) s [].
Proof.
  intros s.
  exact (proj2 (list_index_must_convert 1 s 5%nat
                  [("name", VStr "list"); ("list_name", VStr "L"); ("function", VStr "set");
                   ("index", VStr "i"); ("value", VFloat 7)]
                  "L" 0%nat (VStr "i") ValueError eq_refl eq_refl eq_refl eq_refl eq_refl)
           (VFloat 7) (VFloat 7) s eq_refl eq_refl eq_refl).
Defined.

(** X12. A [list] node that lacks [list_name], [function], the [index] of a
    [get] or the [value] of a [set] fails with the unbound-list error,
    whether the list exists or not: the [except KeyError] of
    [_handle_list] takes the [KeyError] of the missing field for a
    missing list. *)
Theorem list_node_missing_field fuel s a kvs :
  heap s !! a = Some (ODict kvs) ->
  dict_get kvs "list_name" = None \/
  (exists L, dict_get kvs "list_name" = Some (VStr L)) /\
  (dict_get kvs "function" = None \/
   exists f k, dict_get kvs "function" = Some (VStr f) /\
               In (f, k) [("get", "index"); ("set", "value")] /\ dict_get kvs k = None) ->
  _handle_list (_evaluate fuel) (VRef a) s =
  Res (Raise InterpreterUnboundVariableListError) s [].
Proof.
  intros Ha [Hnone | ((L & HL) & [Hnone | (f & k & Hf & Hin & Hnone)])].
  - apply (list_node_without_name_or_function fuel s a kvs Ha). now left.
  - apply (list_node_without_name_or_function fuel s a kvs Ha). right. eauto.
  - now apply (list_node_without_operand fuel s a kvs Ha L f k).
Qed.

(** [list_node_missing_field] at a [list] node without any field and at
    [get L] without its index, the list [L] being bound. *)
Lemma list_node_missing_field_witness :
  let s := list_edge_cases in
  _handle_list (_evaluate 1) (VRef 6) s =
    Res (Raise InterpreterUnboundVariableListError) s [] /\
  _handle_list (_evaluate 1) (VRef 7) s =
    Res (Raise InterpreterUnboundVariableListError) s [].
Proof.
  intros s. split.
  - apply (list_node_missing_field 1 s 6%nat [("name", VStr "list")] eq_refl).
    now left.
  - apply (list_node_missing_field 1 s 7%nat
             [("name", VStr "list"); ("list_name", VStr "L"); ("function", VStr "get")]
             eq_refl).
    right. split; [now exists "L"|]. right. exists "get", "index".
    split; [reflexivity|]. split; [now left | reflexivity].
Defined.

(** X13. Every operation on a list name that is not in [_lists] ends with
    Python's [UnboundLocalError], not with the unbound-list error:
    [empty], [len], [insert], [remove] and [remove_value] at once, [get]
    and [set] after their operand has been evaluated. *)
Theorem list_operation_on_unbound_name fuel s a kvs L f :
  heap s !! a = Some (ODict kvs) ->
  dict_get kvs "list_name" = Some (VStr L) ->
  dict_get kvs "function" = Some (VStr f) ->
  dict_get (_lists s) L = None ->
  let ev := _evaluate fuel in
  (In f ["empty"; "len"; "insert"; "remove"; "remove_value"] ->
   _handle_list ev (VRef a) s = Res (Raise UnboundLocalError) s []) /\
  (forall operand v s1 i,
     (f = "get" /\ dict_get kvs "index" = Some operand /\ py_int v = Ok i) \/
     (f = "set" /\ dict_get kvs "value" = Some operand) ->
     ev operand s = Res (Ok v) s1 [] ->
     _handle_list ev (VRef a) s = Res (Raise UnboundLocalError) s1 []).
Proof.
  intros Ha HL Hf Hnone ev. subst ev. split.
  - intros Hin. now apply (unbound_list_operation _ s a kvs L f).
  - intros operand v s1 i Hcase Hev.
    now apply (unbound_get_set fuel s a kvs Ha L f operand v s1 i).
Qed.

(** [list_operation_on_unbound_name] at [len M], [get M 0] and
    [set M 0 7], no list [M] being bound. *)
Lemma list_operation_on_unbound_name_witness :
  let s := list_edge_cases in
  let ev := _evaluate 1 in
  _handle_list ev (VRef 8) s = Res (Raise UnboundLocalError) s [] /\
  _handle_list ev (VRef 9) s = Res (Raise UnboundLocalError) s [] /\
  _handle_list ev (VRef 10) s = Res (Raise UnboundLocalError) s [].
Proof.
  intros s ev.
  pose (fields_of f (fields : list (string * val)) :=
          ("name", VStr "list") :: ("list_name", VStr "M") :: ("function", VStr f) :: fields).
  split; [|split].
  - apply (proj1 (list_operation_on_unbound_name 1 s 8%nat (fields_of "len" []) "M" "len"
                    eq_refl eq_refl eq_refl eq_refl)).
    right. now left.
  - apply (proj2 (list_operation_on_unbound_name 1 s 9%nat
                    (fields_of "get" [("index", VFloat 0)]) "M" "get"
                    eq_refl eq_refl eq_refl eq_refl) (VFloat 0) (VFloat 0) s 0);
      [|reflexivity].
    left. repeat split.
  - apply (proj2 (list_operation_on_unbound_name 1 s 10%nat
                    (fields_of "set" [("index", VInt 0); ("value", VFloat 7)]) "M" "set"
                    eq_refl eq_refl eq_refl eq_refl) (VFloat 7) (VFloat 7) s 0);
      [|reflexivity].
    right. repeat split.
Defined.

(** ** Arithmetic *)

Lemma _evaluate_identifier fuel x s :
  _evaluate (S fuel) (VStr x) s =
  Res (match identifier_value s x with
       | Some v => Ok v
       | None => Raise (InterpreterUnboundVariableError x)
       end) s [].
Proof.
  cbn [_evaluate]. unfold identifier_value.
  destruct (find_argument (_fuctions s) x); [reflexivity|].
  destruct (String.eqb x "true"); [reflexivity|].
  destruct (String.eqb x "false"); [reflexivity|].
  now destruct (dict_get (_variables s) x).
Qed.

(** The evaluation of an arithmetic expression, by induction on it. *)
Lemma _evaluate_arith env s : forall e fuel v,
  represents (heap s) v e ->
  (forall x, In x (vars e) -> identifier_value s x = Some (VFloat (env x))) ->
  (depth e < fuel)%nat ->
  _evaluate fuel v s =
  Res (match value_of env e with
       | Some x => Ok (VFloat x)
       | None => Raise ZeroDivisionError
       end) s [].
Proof.
  induction e as [x|x|e1 IH|op l IHl r IHr]; intros fuel v Hrep Hvars Hfuel;
    (destruct fuel as [|fuel]; [lia|]); cbn [represents] in Hrep.
  - subst v. reflexivity.
  - subst v. rewrite _evaluate_identifier, (Hvars x) by now left. reflexivity.
  - destruct Hrep as (a & kvs & v1 & -> & Ha & Hq & Hop & Hv & Hrep1).
    cbn [_evaluate]. rewrite Ha, Hq.
    assert (H1 := IH fuel v1 Hrep1 Hvars ltac:(simpl in Hfuel; lia)).
    cbn [value_of]. destruct (value_of env e1) as [x|].
    + unfold try_except.
      rewrite (bind_ok_nil _ _ _ _ _ (field_ok _ _ _ _ _ Ha Hop)).
      change (is_binop "neg") with false. eval_string_tests.
      rewrite (bind_ok_nil _ _ _ _ _ (field_ok _ _ _ _ _ Ha Hv)).
      rewrite (bind_ok_nil _ _ _ _ _ H1). reflexivity.
    + apply try_except_other; [|discriminate].
      rewrite (bind_ok_nil _ _ _ _ _ (field_ok _ _ _ _ _ Ha Hop)).
      change (is_binop "neg") with false. eval_string_tests.
      rewrite (bind_ok_nil _ _ _ _ _ (field_ok _ _ _ _ _ Ha Hv)).
      now apply bind_raise.
  - destruct Hrep as (a & kvs & vl & vr & -> & Ha & Hq & Hop & Hl & Hr & Hrepl & Hrepr).
    cbn [_evaluate]. rewrite Ha, Hq.
    assert (H1 := IHl fuel vl Hrepl
                    (fun x Hx => Hvars x (in_or_app _ _ _ (or_introl Hx)))
                    ltac:(simpl in Hfuel; lia)).
    assert (H2 := IHr fuel vr Hrepr
                    (fun x Hx => Hvars x (in_or_app _ _ _ (or_intror Hx)))
                    ltac:(simpl in Hfuel; lia)).
    assert (Hbin : is_binop (op_name op) = true) by now destruct op.
    cbn [value_of].
    destruct (value_of env l) as [x|]; [destruct (value_of env r) as [y|]|].
    + match goal with
      | |- try_except ?m _ s = _ =>
          assert (Hgo : m s = Res (py_binop (op_name op) (VFloat x) (VFloat y)) s [])
      end.
      { rewrite (bind_ok_nil _ _ _ _ _ (field_ok _ _ _ _ _ Ha Hop)).
        cbv beta iota zeta. rewrite Hbin.
        rewrite (bind_ok_nil _ _ _ _ _ (field_ok _ _ _ _ _ Ha Hl)).
        rewrite (bind_ok_nil _ _ _ _ _ H1).
        rewrite (bind_ok_nil _ _ _ _ _ (field_ok _ _ _ _ _ Ha Hr)).
        rewrite (bind_ok_nil _ _ _ _ _ H2). reflexivity. }
      unfold try_except. rewrite Hgo.
      destruct op; cbn [op_name py_binop]; eval_string_tests; try reflexivity.
      now destruct (PrimFloat.eqb y 0).
    + apply try_except_other; [|discriminate].
      rewrite (bind_ok_nil _ _ _ _ _ (field_ok _ _ _ _ _ Ha Hop)).
      cbv beta iota zeta. rewrite Hbin.
      rewrite (bind_ok_nil _ _ _ _ _ (field_ok _ _ _ _ _ Ha Hl)).
      rewrite (bind_ok_nil _ _ _ _ _ H1).
      rewrite (bind_ok_nil _ _ _ _ _ (field_ok _ _ _ _ _ Ha Hr)).
      now apply bind_raise.
    + apply try_except_other; [|discriminate].
      rewrite (bind_ok_nil _ _ _ _ _ (field_ok _ _ _ _ _ Ha Hop)).
      cbv beta iota zeta. rewrite Hbin.
      rewrite (bind_ok_nil _ _ _ _ _ (field_ok _ _ _ _ _ Ha Hl)).
      now apply bind_raise.
Qed.

(** X14. An arithmetic expression over floats evaluates to the float it
    denotes under IEEE arithmetic, operands left to right, or ends with
    Python's [ZeroDivisionError] at a zero divisor; the state stays as it
    is, and a fuel beyond the depth of the expression is enough. *)
Theorem evaluate_arithmetic env s e fuel v :
  represents (heap s) v e ->
  (forall x, In x (vars e) -> identifier_value s x = Some (VFloat (env x))) ->
  (depth e < fuel)%nat ->
  _evaluate fuel v s =
  Res (match value_of env e with
       | Some x => Ok (VFloat x)
       | None => Raise ZeroDivisionError
       end) s [].
Proof. apply _evaluate_arith. Qed.

(** Finds the nodes of a concrete tree for [represents]. *)
Ltac find_nodes :=
  cbn [represents];
  repeat match goal with
         | |- exists _, _ => eexists
         | |- _ /\ _ => split
         | |- _ = _ => reflexivity
         end.

(** [evaluate_arithmetic] at [(:x + 1) * 2], which is 12 when [x] is 5,
    and at [1 / (:x - :x)]. *)
Lemma evaluate_arithmetic_witness :
  let s := arithmetic_examples in
  _evaluate 3 (VRef 1) s = Res (Ok (VFloat 12)) s [] /\
  _evaluate 3 (VRef 3) s = Res (Raise ZeroDivisionError) s [].
Proof.
  intros s. split.
  - apply (evaluate_arithmetic (fun _ => 5%float) s
             (Bin Times (Bin Plus (Var "x") (Num 1)) (Num 2)) 3 (VRef 1)).
    + find_nodes.
    + intros x Hx. simpl in Hx. destruct Hx as [<- | []]. reflexivity.
    + simpl. lia.
  - apply (evaluate_arithmetic (fun _ => 5%float) s
             (Bin Over (Num 1) (Bin Minus (Var "x") (Var "x"))) 3 (VRef 3)).
    + find_nodes.
    + intros x Hx. simpl in Hx. destruct Hx as [<- | [<- | []]]; reflexivity.
    + simpl. lia.
Defined.

(** ** [and] and [or] *)

(** The loop of [all] and [any] over operands that do not decide. *)
Lemma all_any_skip (ev : val -> M val) is_all s l : forall pre done rest fuel,
  heap s !! l = Some (OList (done ++ pre ++ rest)) ->
  Forall (fun e => exists v, ev e s = Res (Ok v) s [] /\ py_truthy (heap s) v = Ok is_all)
    pre ->
  all_any_from (length pre + fuel) is_all ev (VRef l) (length done) s =
  all_any_from fuel is_all ev (VRef l) (length done + length pre) s.
Proof.
  induction pre as [|e pre IH]; intros done rest fuel Hl HF.
  - simpl. now rewrite Nat.add_0_r.
  - inversion HF as [|? ? (v & Hev & Hb) HF']; subst.
    change ((e :: pre) ++ rest)%list with (e :: (pre ++ rest))%list in Hl.
    cbn [length Nat.add all_any_from]. rewrite Hl.
    rewrite list_lookup_middle by reflexivity.
    rewrite (bind_ok_nil _ _ _ _ _ Hev).
    rewrite (bind_ok_nil _ _ s is_all s) by (unfold truthy, lift; now rewrite Hb).
    rewrite eqb_reflx.
    replace (S (length done)) with (length (done ++ [e]))
      by (rewrite length_app; simpl; lia).
    rewrite (IH (done ++ [e])%list rest fuel).
    + rewrite length_app. simpl. f_equal. lia.
    + now rewrite <- app_assoc.
    + exact HF'.
Qed.

(** X15. [and] stops at the first operand that is false and [or] at the first
    that is true: the operands behind it are not evaluated, whatever they
    are. The result is a truth value, never the operand itself; without a
    deciding operand (so also for no operands) [and] is true and [or] is
    false. *)
Theorem and_or_short_circuit fuel s a kvs is_all l pre :
  heap s !! a = Some (ODict kvs) ->
  is_list_query kvs = false ->
  dict_get kvs "op" = Some (VStr (connective is_all)) ->
  dict_get kvs "list" = Some (VRef l) ->
  Forall (fun e => exists v, _evaluate fuel e s = Res (Ok v) s [] /\
                             py_truthy (heap s) v = Ok is_all) pre ->
  (length pre < fuel)%nat ->
  let r := _evaluate (S fuel) (VRef a) s in
  (forall d v post,
     heap s !! l = Some (OList (pre ++ d :: post)) ->
     _evaluate fuel d s = Res (Ok v) s [] ->
     py_truthy (heap s) v = Ok (negb is_all) ->
     r = Res (Ok (VBool (negb is_all))) s []) /\
  (heap s !! l = Some (OList pre) -> r = Res (Ok (VBool is_all)) s []).
Proof.
  intros Ha Hq Hop Hlist HF Hfuel r. subst r.
  assert (Hgo : _evaluate (S fuel) (VRef a) s =
                try_except (all_any_from fuel is_all (_evaluate fuel) (VRef l) 0)
                  (except_KeyError InterpreterInvalidTreeError) s).
  { cbn [_evaluate]. rewrite Ha, Hq. unfold try_except.
    rewrite (bind_ok_nil _ _ _ _ _ (field_ok _ _ _ _ _ Ha Hop)).
    destruct is_all; cbn [connective];
      change (is_binop "and") with false; change (is_binop "or") with false;
      eval_string_tests;
      now rewrite (bind_ok_nil _ _ _ _ _ (field_ok _ _ _ _ _ Ha Hlist)). }
  rewrite Hgo. unfold try_except.
  destruct (fuel - length pre)%nat as [|n] eqn:En; [lia|].
  assert (Hskip : forall rest,
             heap s !! l = Some (OList (pre ++ rest)) ->
             all_any_from fuel is_all (_evaluate fuel) (VRef l) 0 s =
             all_any_from (S n) is_all (_evaluate fuel) (VRef l) (length pre) s).
  { intros rest Hl.
    pose proof (all_any_skip (_evaluate fuel) is_all s l pre [] rest (S n) Hl HF) as H.
    replace (length pre + S n)%nat with fuel in H by lia. exact H. }
  split.
  - intros d v post Hl Hev Hb. rewrite (Hskip _ Hl).
    cbn [all_any_from]. rewrite Hl.
    rewrite (list_lookup_middle pre post d (length pre) eq_refl).
    rewrite (bind_ok_nil _ _ _ _ _ Hev).
    rewrite (bind_ok_nil _ _ s (negb is_all) s) by (unfold truthy, lift; now rewrite Hb).
    now destruct is_all.
  - intros Hl. rewrite (Hskip []) by now rewrite app_nil_r.
    cbn [all_any_from]. rewrite Hl.
    now rewrite (lookup_ge_None_2 pre (length pre)).
Qed.

(** [and_or_short_circuit] at [and [1 0 :nowhere]], which is false
    although no variable [nowhere] exists, and at [or [0 0]]. *)
Lemma and_or_short_circuit_witness :
  let s := connectives in
  _evaluate 4 (VRef 1) s = Res (Ok (VBool false)) s [] /\
  _evaluate 4 (VRef 3) s = Res (Ok (VBool false)) s [].
Proof.
  intros s.
  assert (Hone : exists v, _evaluate 3 (VFloat 1) s = Res (Ok v) s [] /\
                           py_truthy (heap s) v = Ok true)
    by (exists (VFloat 1); split; reflexivity).
  assert (Hzero : exists v, _evaluate 3 (VFloat 0) s = Res (Ok v) s [] /\
                            py_truthy (heap s) v = Ok false)
    by (exists (VFloat 0); split; reflexivity).
  split.
  - apply (proj1 (and_or_short_circuit 3 s 1%nat
                    [("op", VStr "and"); ("list", VRef 0)] true 0%nat [VFloat 1]
                    eq_refl eq_refl eq_refl eq_refl
                    ltac:(constructor; [exact Hone | constructor])
                    ltac:(simpl; lia))
             (VFloat 0) (VFloat 0) [VStr "nowhere"] eq_refl eq_refl eq_refl).
  - apply (proj2 (and_or_short_circuit 3 s 3%nat
                    [("op", VStr "or"); ("list", VRef 2)] false 2%nat [VFloat 0; VFloat 0]
                    eq_refl eq_refl eq_refl eq_refl
                    ltac:(constructor; [exact Hzero | constructor; [exact Hzero | constructor]])
                    ltac:(simpl; lia))
             eq_refl).
Defined.

(** ** What [_evaluate] rejects *)

(** X16. The errors of [_evaluate]: a value that is no float, no string and no
    dict (an integer, a truth value, [None], a list) is an invalid tree;
    an identifier that is no parameter of any function, not [true] or
    [false] and no variable is an unbound variable, reported with its
    name; an expression node without ["op"] is an invalid tree, and one
    whose ["op"] is none of the operators is an invalid command. The
    state stays as it is. *)
Theorem evaluate_errors fuel s :
  (forall v,
     v = VNone \/ (exists b, v = VBool b) \/ (exists z, v = VInt z) \/
     (exists a xs, v = VRef a /\ heap s !! a = Some (OList xs)) ->
     _evaluate (S fuel) v s = Res (Raise InterpreterInvalidTreeError) s []) /\
  (forall x, identifier_value s x = None ->
     _evaluate (S fuel) (VStr x) s = Res (Raise (InterpreterUnboundVariableError x)) s []) /\
  (forall a kvs,
     heap s !! a = Some (ODict kvs) -> is_list_query kvs = false ->
     (dict_get kvs "op" = None ->
      _evaluate (S fuel) (VRef a) s = Res (Raise InterpreterInvalidTreeError) s []) /\
     (forall op, dict_get kvs "op" = Some op ->
        (forall o, op = VStr o -> ~ In o operators) ->
        _evaluate (S fuel) (VRef a) s = Res (Raise InterpreterInvalidCommandError) s [])).
Proof.
  split; [|split].
  - intros v [-> | [(b & ->) | [(z & ->) | (a & xs & -> & Ha)]]]; try reflexivity.
    cbn [_evaluate]. now rewrite Ha.
  - intros x Hx. now rewrite _evaluate_identifier, Hx.
  - intros a kvs Ha Hq. split.
    + intros Hnone. cbn [_evaluate]. rewrite Ha, Hq.
      apply try_except_KeyError. apply bind_raise. now apply (field_missing _ _ kvs).
    + intros op Hop Hun. cbn [_evaluate]. rewrite Ha, Hq.
      apply try_except_other; [|discriminate].
      rewrite (bind_ok_nil _ _ _ _ _ (field_ok _ _ _ _ _ Ha Hop)).
      destruct op as [| | | |o|]; try reflexivity.
      specialize (Hun o eq_refl). unfold is_binop. cbn [existsb].
      repeat match goal with
             | |- context [String.eqb o ?c] =>
                 rewrite (proj2 (String.eqb_neq o c))
                   by (intros ->; apply Hun; vm_compute; tauto)
             end.
      reflexivity.
Qed.

(** [evaluate_errors] at the integer 3, at the identifier [nowhere] and
    at the node with the operator [%] of [connectives]. *)
Lemma evaluate_errors_witness :
  let s := connectives in
  _evaluate 1 (VInt 3) s = Res (Raise InterpreterInvalidTreeError) s [] /\
  _evaluate 1 (VStr "nowhere") s =
    Res (Raise (InterpreterUnboundVariableError "nowhere")) s [] /\
  _evaluate 1 (VRef 4) s = Res (Raise InterpreterInvalidCommandError) s [].
Proof.
  intros s. destruct (evaluate_errors 0 s) as (H1 & H2 & H3). split; [|split].
  - apply H1. right. right. left. now exists 3.
  - now apply H2.
  - apply (proj2 (H3 4%nat [("op", VStr "%"); ("left", VFloat 1); ("right", VFloat 2)]
                    eq_refl eq_refl) (VStr "%") eq_refl).
    intros o [= <-] Hin. simpl in Hin. intuition discriminate.
Defined.

(** ** Trees that are no trees *)

(** X17. A tree that is no dict is an invalid tree for [__init__]; but
    ["tokens"] that are a number, a truth value or [None] pass [__init__]
    and end the iteration with Python's own [TypeError]. An empty list of
    tokens is a run without output. *)
Theorem tree_shape_errors fuel h :
  (forall tree,
     match tree with
     | VRef t => exists xs, h !! t = Some (OList xs)
     | _ => True
     end ->
     run fuel tree h = Res (Raise InterpreterInvalidTreeError) (new_instance h) []) /\
  (forall t kvs tokens,
     h !! t = Some (ODict kvs) ->
     dict_get kvs "tokens" = Some tokens ->
     (is_number tokens \/ tokens = VNone ->
      run (S (S fuel)) (VRef t) h =
      Res (Raise TypeError) (set_commands tokens (new_instance h)) []) /\
     (forall c, tokens = VRef c -> h !! c = Some (OList []) ->
      run (S (S fuel)) (VRef t) h =
      Res (Ok tt) (set_commands tokens (new_instance h)) [])).
Proof.
  split.
  - intros tree Htree. unfold run, __init__, bind, try_except, field, getitem, lift.
    destruct tree as [| | | | |t]; try reflexivity.
    destruct Htree as (xs & Ht). simpl. now rewrite Ht.
  - intros t kvs tokens Ht Htok.
    assert (Hinit : __init__ (VRef t) (new_instance h) =
                    Res (Ok tt) (set_commands tokens (new_instance h)) []).
    { unfold __init__, bind, try_except.
      now rewrite (field_ok (new_instance h) t kvs "tokens" tokens Ht Htok). }
    unfold run. rewrite (bind_ok_nil _ _ _ _ _ Hinit). unfold __iter__. split.
    + intros [Hnum | ->]; [|reflexivity].
      destruct tokens; try contradiction; reflexivity.
    + intros c -> Hc. cbn [_commands set_commands _interpret for_in_from].
      unfold try_except. cbn [heap set_commands new_instance]. now rewrite Hc.
Qed.

(** [tree_shape_errors] at a list in place of the tree, at the tokens 7
    and at no tokens. *)
Lemma tree_shape_errors_witness :
  let h := [OList []; ODict [("tokens", VInt 7)]; ODict [("tokens", VRef 0)]] in
  run 2 (VRef 0) h = Res (Raise InterpreterInvalidTreeError) (new_instance h) [] /\
  run 2 (VRef 1) h = Res (Raise TypeError) (set_commands (VInt 7) (new_instance h)) [] /\
  run 2 (VRef 2) h = Res (Ok tt) (set_commands (VRef 0) (new_instance h)) [].
Proof.
  intros h. destruct (tree_shape_errors 0 h) as (H1 & H2). split; [|split].
  - apply (H1 (VRef 0)). now exists [].
  - apply (proj1 (H2 1%nat [("tokens", VInt 7)] (VInt 7) eq_refl eq_refl)).
    left. exact I.
  - exact (proj2 (H2 2%nat [("tokens", VRef 0)] (VRef 0) eq_refl eq_refl)
             0%nat eq_refl eq_refl).
Defined.

(** ** Parameter lists with repeated names *)

Lemma dict_get_blank ks n :
  dict_get (map (fun k => (k, VStr "")) ks) n =
  if existsb (String.eqb n) ks then Some (VStr "") else None.
Proof.
  induction ks as [|k ks IH]; simpl; [reflexivity|].
  rewrite (String.eqb_sym n k). destruct (String.eqb k n); [reflexivity | exact IH].
Qed.

Lemma distinct_from_equiv seen seen' names :
  (forall n, existsb (String.eqb n) seen = existsb (String.eqb n) seen') ->
  distinct_from seen names = distinct_from seen' names.
Proof.
  revert seen seen'. induction names as [|n names IH]; intros seen seen' H; simpl.
  - reflexivity.
  - rewrite (H n). destruct (existsb (String.eqb n) seen'); [now apply IH|].
    f_equal. apply IH. intros m. simpl. now rewrite (H m).
Qed.

(** The loop of [_handle_func_def] over any list of names. *)
Lemma for_each_set_argument_any f cmds names : forall s ks,
  dict_get (_fuctions s) f = Some (FuncData (map (fun k => (k, VStr "")) ks) cmds) ->
  for_each (map VStr names) (fun argument => set_argument (VStr f) argument (VStr "")) s =
  Res (Ok tt)
    (set_fuctions
       (dict_set (_fuctions s) f
          (FuncData (map (fun k => (k, VStr "")) (ks ++ distinct_from ks names)) cmds)) s) [].
Proof.
  induction names as [|n names IH]; intros s ks Hfd.
  - cbn [map for_each distinct_from]. rewrite app_nil_r.
    now rewrite (set_fuctions_same _ _ _ Hfd).
  - cbn [map for_each distinct_from].
    rewrite (bind_ok_nil _ _ _ _ _ (set_argument_ok _ _ _ _ _ Hfd)).
    cbn [fd_arguments fd_commands].
    pose proof (dict_get_blank ks n) as Hn.
    destruct (existsb (String.eqb n) ks) eqn:E.
    + rewrite (dict_set_same _ _ _ Hn). rewrite (set_fuctions_same _ _ _ Hfd).
      now apply IH.
    + rewrite (dict_set_fresh _ _ _ Hn).
      change [(n, VStr "")] with (map (fun k => (k, VStr "")) [n]). rewrite <- map_app.
      rewrite (IH _ (ks ++ [n])%list) by apply dict_get_set_eq.
      cbn [_fuctions set_fuctions]. rewrite dict_set_set, <- app_assoc.
      cbn [app].
      rewrite (distinct_from_equiv (ks ++ [n]) (n :: ks) names); [reflexivity|]. intros m. rewrite existsb_app. simpl.
      rewrite orb_false_r. apply orb_comm.
Qed.

(** What a [func_def] leaves in the function table. *)
Lemma func_def_entry fuel s a kvs f l names body :
  heap s !! a = Some (ODict kvs) ->
  dict_get kvs "name" = Some (VStr "func_def") ->
  dict_get kvs "func_name" = Some (VStr f) ->
  dict_get kvs "arguments" = Some (VRef l) ->
  dict_get kvs "commands" = Some body ->
  heap s !! l = Some (OList (map VStr names)) ->
  let r := dispatch (_interpret fuel) (_evaluate fuel) (VRef a) s in
  res r = Ok tt /\ yields r = [] /\
  dict_get (_fuctions (fin r)) f =
    Some (FuncData (map (fun n => (n, VStr "")) (distinct_from [] names)) body) /\
  (forall g, g <> f -> dict_get (_fuctions (fin r)) g = dict_get (_fuctions s) g) /\
  _variables (fin r) = _variables s /\ _lists (fin r) = _lists s.
Proof.
  intros Ha Hn Hf Hl Hb Hnames r. subst r. unfold dispatch.
  rewrite (bind_ok_nil _ _ _ _ _ (field_ok _ _ _ _ _ Ha Hn)). eval_string_tests.
  unfold _handle_func_def.
  rewrite (bind_ok_nil _ _ _ _ _ (field_ok _ _ _ _ _ Ha Hf)).
  rewrite (bind_ok_nil _ _ _ _ _ (field_ok _ _ _ _ _ Ha Hl)).
  rewrite (bind_ok_nil _ _ _ _ _ (field_ok _ _ _ _ _ Ha Hb)).
  set (empty := VRef (length (heap s))).
  set (s1 := set_heap (heap s ++ [OList []])%list s).
  rewrite (bind_ok_nil _ _ s empty s1) by reflexivity.
  set (s2 := set_fuctions (dict_set (_fuctions s1) f (FuncData [] empty)) s1).
  rewrite (bind_ok_nil _ _ s1 tt s2) by reflexivity.
  rewrite (bind_ok_nil _ _ s2 (map VStr names) s2).
  2: { unfold list_items. simpl. rewrite lookup_app_l by (eapply lookup_lt_Some; eauto).
       now rewrite Hnames. }
  assert (Hfd2 : dict_get (_fuctions s2) f = Some (FuncData (map (fun k => (k, VStr "")) [])
                                                     empty))
    by apply dict_get_set_eq.
  rewrite (bind_ok_nil _ _ _ _ _ (for_each_set_argument_any f empty names s2 [] Hfd2)).
  set (s3 := set_fuctions _ s2).
  assert (Hfd3 : dict_get (_fuctions s3) f =
                 Some (FuncData (map (fun k => (k, VStr "")) ([] ++ distinct_from [] names))
                         empty))
    by apply dict_get_set_eq.
  unfold set_function_commands.
  rewrite (bind_ok_nil _ _ _ _ _ (get_function_ok _ _ _ Hfd3)).
  simpl. repeat split.
  - apply dict_get_set_eq.
  - intros g Hg. now rewrite !dict_get_set_ne by congruence.
Qed.

(** X18. A [func_def] registers each name of its parameter list once, at its
    first occurrence, with the empty string as its value, together with
    the body, replacing any earlier entry of that function name; the
    variables and the lists stay as they are and nothing is yielded. The
    number of arguments a call must supply is therefore the number of
    distinct names. *)
Theorem func_def_registers_distinct_names fuel s a kvs f l names body :
  heap s !! a = Some (ODict kvs) ->
  dict_get kvs "name" = Some (VStr "func_def") ->
  dict_get kvs "func_name" = Some (VStr f) ->
  dict_get kvs "arguments" = Some (VRef l) ->
  dict_get kvs "commands" = Some body ->
  heap s !! l = Some (OList (map VStr names)) ->
  let r := dispatch (_interpret fuel) (_evaluate fuel) (VRef a) s in
  res r = Ok tt /\ yields r = [] /\
  dict_get (_fuctions (fin r)) f =
    Some (FuncData (map (fun n => (n, VStr "")) (distinct_from [] names)) body) /\
  (forall g, g <> f -> dict_get (_fuctions (fin r)) g = dict_get (_fuctions s) g) /\
  _variables (fin r) = _variables s /\ _lists (fin r) = _lists s.
Proof. apply func_def_entry. Qed.

(** [func_def_registers_distinct_names] at [to f :a :b :a end]. *)
Lemma func_def_registers_distinct_names_witness :
  let s := loaded (func_def "f" ["a"; "b"; "a"] []) in
  let r := dispatch (_interpret 1) (_evaluate 1) (VRef 2) s in
  dict_get (_fuctions (fin r)) "f" =
    Some (FuncData [("a", VStr ""); ("b", VStr "")] (VRef 1)).
Proof.
  intros s r.
  apply (func_def_registers_distinct_names 1 s 2%nat
           [("name", VStr "func_def"); ("func_name", VStr "f"); ("arguments", VRef 0);
            ("commands", VRef 1)]
           "f" 0%nat ["a"; "b"; "a"] (VRef 1) eq_refl eq_refl eq_refl eq_refl eq_refl eq_refl).
Defined.

(** ** What a run never takes away *)





































(** ** List operations one after the other *)

Lemma seq_index_lt n i j : seq_index n i = Some j -> (j < n)%nat.
Proof.
  unfold seq_index. cbv zeta. destruct (Z.ltb_spec i 0); cbv iota;
    match goal with
    | |- context [Z.leb 0 ?x && Z.ltb ?x ?y] =>
        destruct (Z.leb_spec 0 x); destruct (Z.ltb_spec x y)
    end; simpl; try discriminate; intros [= <-]; lia.
Qed.

(** X20. What [set] writes, [get] reads: after [set L i v] a [get] whose index
    evaluates to an integer for the same position returns [v]; negative
    indices count from the end, so -1 and the length less one are the
    same position. *)
Theorem set_then_get fuel s a1 a2 kvs1 kvs2 L l index value v s1 i xs j index' v' i' :
  heap s !! a1 = Some (ODict kvs1) ->
  dict_get kvs1 "list_name" = Some (VStr L) ->
  dict_get kvs1 "function" = Some (VStr "set") ->
  dict_get kvs1 "index" = Some index ->
  dict_get kvs1 "value" = Some value ->
  heap s !! a2 = Some (ODict kvs2) ->
  dict_get kvs2 "list_name" = Some (VStr L) ->
  dict_get kvs2 "function" = Some (VStr "get") ->
  dict_get kvs2 "index" = Some index' ->
  dict_get (_lists s) L = Some (VRef l) ->
  _evaluate fuel value s = Res (Ok v) s1 [] ->
  py_int index = Ok i ->
  heap s1 !! l = Some (OList xs) ->
  seq_index (length xs) i = Some j ->
  let s2 := with_list s1 l (<[j := v]> xs) in
  _evaluate fuel index' s2 = Res (Ok v') s2 [] ->
  py_int v' = Ok i' ->
  seq_index (length xs) i' = Some j ->
  _handle_list (_evaluate fuel) (VRef a1) s = Res (Ok VNone) s2 [] /\
  _handle_list (_evaluate fuel) (VRef a2) s2 = Res (Ok v) s2 [].
Proof.
  intros Ha1 HL1 Hf1 Hi1 Hv1 Ha2 HL2 Hf2 Hi2 Hbound Hev Hint Hl Hj s2 Hev' Hint' Hj'.
  split.
  - now apply (set_reads_index_directly s a1 kvs1 L Ha1 HL1 fuel l Hbound index value v s1 i).
  - destruct (node_after_evaluate fuel s a2 kvs2 Ha2 value v s1 Hev) as (Ha2' & Hlists).
    assert (Ha2'' : heap s2 !! a2 = Some (ODict kvs2))
      by now apply (with_list_node s1 l _ a2 kvs2 xs).
    assert (Hbound2 : dict_get (_lists s2) L = Some (VRef l)).
    { unfold s2, with_list. cbn [_lists set_heap]. now rewrite Hlists. }
    apply (get_evaluates_index s2 a2 kvs2 L Ha2'' HL2 fuel l Hbound2 index' v' s2 i'
             (<[j := v]> xs) j v Hf2 Hi2 Hev' Hint').
    + apply (with_list_lookup s1 l _ xs Hl).
    + now rewrite length_insert.
    + apply list_lookup_insert_eq. now apply (seq_index_lt _ i).
Qed.

(** [set_then_get] on the list [1 2 3] of [list_edge_cases]: after
    [set L -1 7], [get L 2] is 7. *)
Lemma set_then_get_witness :
  let s := set_heap (heap list_edge_cases ++
                     [ODict [("name", VStr "list"); ("list_name", VStr "L");
                             ("function", VStr "set"); ("index", VInt (-1));
                             ("value", VFloat 7)];
                      ODict [("name", VStr "list"); ("list_name", VStr "L");
                             ("function", VStr "get"); ("index", VFloat 2)]])
             list_edge_cases in
  let s2 := with_list s 0 [VFloat 1; VFloat 2; VFloat 7] in
  _handle_list (_evaluate 1) (VRef 12) s = Res (Ok VNone) s2 [] /\
  _handle_list (_evaluate 1) (VRef 13) s2 = Res (Ok (VFloat 7)) s2 [].
Proof.
  intros s s2.
  exact (set_then_get 1 s 12%nat 13%nat
           [("name", VStr "list"); ("list_name", VStr "L"); ("function", VStr "set");
            ("index", VInt (-1)); ("value", VFloat 7)]
           [("name", VStr "list"); ("list_name", VStr "L"); ("function", VStr "get");
            ("index", VFloat 2)]
           "L" 0%nat (VInt (-1)) (VFloat 7) (VFloat 7) s (-1)
           [VFloat 1; VFloat 2; VFloat 3] 2%nat (VFloat 2) (VFloat 2) 2
           eq_refl eq_refl eq_refl eq_refl eq_refl eq_refl eq_refl eq_refl eq_refl eq_refl
           eq_refl eq_refl eq_refl eq_refl eq_refl eq_refl eq_refl).
Defined.

Lemma inserted_length xs i v : length (inserted xs i v) = S (length xs).
Proof.
  unfold inserted. rewrite length_app. cbn [length].
  rewrite length_take, length_drop. lia.
Qed.

Lemma inserted_beyond xs i v :
  Z.of_nat (length xs) <= i -> inserted xs i v = (xs ++ [v])%list.
Proof.
  intros Hi. unfold inserted.
  destruct (Z.ltb_spec i 0) as [H|_]; [lia|].
  rewrite Z.min_r by lia. rewrite Nat2Z.id, firstn_all, drop_all. reflexivity.
Qed.

Lemma inserted_before xs i v :
  i <= - Z.of_nat (length xs) -> inserted xs i v = v :: xs.
Proof.
  intros Hi. unfold inserted.
  destruct (Z.ltb_spec i 0) as [_|H].
  - rewrite Z.max_l by lia. reflexivity.
  - assert (i = 0) as -> by lia. assert (length xs = 0)%nat as Hn by lia.
    rewrite Hn. reflexivity.
Qed.

Lemma inserted_at xs i v j :
  seq_index (length xs) i = Some j ->
  inserted xs i v = (take j xs ++ v :: drop j xs)%list.
Proof.
  unfold seq_index, inserted. cbv zeta. destruct (Z.ltb_spec i 0); cbv iota.
  - destruct (Z.leb_spec 0 (i + Z.of_nat (length xs)));
      destruct (Z.ltb_spec (i + Z.of_nat (length xs)) (Z.of_nat (length xs)));
      simpl; try discriminate.
    intros [= <-]. now rewrite Z.max_r by lia.
  - destruct (Z.leb_spec 0 i); destruct (Z.ltb_spec i (Z.of_nat (length xs)));
      simpl; try discriminate.
    intros [= <-]. now rewrite Z.min_l by lia.
Qed.

(** X21. [insert] does not ask its index to lie in the list, unlike [set]
    and [remove]. With an index that fits a C [Py_ssize_t] it always
    succeeds: it puts the value in front of the element the index points
    at, appends it when the index is at or beyond the end, and puts it
    first when the index is before the beginning; the list is one longer
    in each case. With an index that does not fit it ends with
    [OverflowError] and the list is left as it was. *)
Theorem insert_clamps_its_index fuel s a kvs L l index value v s1 i xs :
  heap s !! a = Some (ODict kvs) ->
  dict_get kvs "list_name" = Some (VStr L) ->
  dict_get kvs "function" = Some (VStr "insert") ->
  dict_get kvs "index" = Some index ->
  dict_get kvs "value" = Some value ->
  dict_get (_lists s) L = Some (VRef l) ->
  py_int index = Ok i ->
  _evaluate fuel value s = Res (Ok v) s1 [] ->
  heap s1 !! l = Some (OList xs) ->
  (fits_ssize_t i = true ->
   exists xs',
     _handle_list (_evaluate fuel) (VRef a) s = Res (Ok VNone) (with_list s1 l xs') [] /\
     length xs' = S (length xs) /\
     (forall j, seq_index (length xs) i = Some j ->
                xs' = (take j xs ++ v :: drop j xs)%list) /\
     (Z.of_nat (length xs) <= i -> xs' = (xs ++ [v])%list) /\
     (i <= - Z.of_nat (length xs) -> xs' = v :: xs)) /\
  (fits_ssize_t i = false ->
   _handle_list (_evaluate fuel) (VRef a) s = Res (Raise OverflowError) s1 []).
Proof.
  intros Ha HL Hf Hi Hv Hbound Hint Hev Hl. split.
  - intros Hfit. exists (inserted xs i v).
    split; [|split; [|split; [|split]]].
    + apply (insert_reads_index_directly s a kvs L Ha HL fuel l Hbound index value v s1 i
               xs); try assumption.
      unfold list_insert. now rewrite Hfit.
    + apply inserted_length.
    + intros j. apply inserted_at.
    + apply inserted_beyond.
    + apply inserted_before.
  - intros Hfit.
    now apply (insert_overflow fuel s a kvs Ha L l HL Hbound index value v s1 i xs).
Qed.

(** [insert_clamps_its_index] on the list [1 2 3] of [list_edge_cases],
    at [insert L 100 7] and at [insert L 2^63 7]. *)
Lemma insert_clamps_its_index_witness :
  let node i := ODict [("name", VStr "list"); ("list_name", VStr "L");
                       ("function", VStr "insert"); ("index", VInt i);
                       ("value", VFloat 7)] in
  let s := set_heap (heap list_edge_cases ++ [node 100; node (2 ^ 63)]) list_edge_cases in
  (exists xs',
     _handle_list (_evaluate 1) (VRef 12) s = Res (Ok VNone) (with_list s 0 xs') [] /\
     xs' = [VFloat 1; VFloat 2; VFloat 3; VFloat 7]) /\
  _handle_list (_evaluate 1) (VRef 13) s = Res (Raise OverflowError) s [].
Proof.
  intros node s. split.
  - destruct (proj1 (insert_clamps_its_index 1 s 12%nat
                       [("name", VStr "list"); ("list_name", VStr "L");
                        ("function", VStr "insert"); ("index", VInt 100);
                        ("value", VFloat 7)]
                       "L" 0%nat (VInt 100) (VFloat 7) (VFloat 7) s 100
                       [VFloat 1; VFloat 2; VFloat 3]
                       eq_refl eq_refl eq_refl eq_refl eq_refl eq_refl eq_refl eq_refl
                       eq_refl) eq_refl)
      as (xs' & Hrun & _ & _ & Hend & _).
    exists xs'. split; [exact Hrun|]. apply Hend. simpl. lia.
  - exact (proj2 (insert_clamps_its_index 1 s 13%nat
                    [("name", VStr "list"); ("list_name", VStr "L");
                     ("function", VStr "insert"); ("index", VInt (2 ^ 63));
                     ("value", VFloat 7)]
                    "L" 0%nat (VInt (2 ^ 63)) (VFloat 7) (VFloat 7) s (2 ^ 63)
                    [VFloat 1; VFloat 2; VFloat 3]
                    eq_refl eq_refl eq_refl eq_refl eq_refl eq_refl eq_refl eq_refl
                    eq_refl) eq_refl).
Defined.

(** ** Comparisons *)

(** X22. A comparison of two arithmetic expressions evaluates to the
    truth value of the IEEE comparison of the floats they denote, left
    operand first: [>] and [>=] are [<] and [<=] with the operands
    exchanged, and [<>] is the negation of [=], so a NaN is unequal to
    itself. A zero divisor in an operand is a [ZeroDivisionError]. The
    state stays as it is. *)
Theorem evaluate_comparison env s c l r fuel a kvs vl vr :
  heap s !! a = Some (ODict kvs) ->
  is_list_query kvs = false ->
  dict_get kvs "op" = Some (VStr (relation_name c)) ->
  dict_get kvs "left" = Some vl ->
  dict_get kvs "right" = Some vr ->
  represents (heap s) vl l ->
  represents (heap s) vr r ->
  (forall x, In x (vars l ++ vars r) -> identifier_value s x = Some (VFloat (env x))) ->
  (depth l < fuel)%nat ->
  (depth r < fuel)%nat ->
  _evaluate (S fuel) (VRef a) s =
  Res (match value_of env l, value_of env r with
       | Some x, Some y => Ok (VBool (holds c x y))
       | _, _ => Raise ZeroDivisionError
       end) s [].
Proof.
  intros Ha Hq Hop Hl Hr Hrepl Hrepr Hvars Hdl Hdr.
  assert (H1 := _evaluate_arith env s l fuel vl Hrepl
                  (fun x Hx => Hvars x (in_or_app _ _ _ (or_introl Hx))) Hdl).
  assert (H2 := _evaluate_arith env s r fuel vr Hrepr
                  (fun x Hx => Hvars x (in_or_app _ _ _ (or_intror Hx))) Hdr).
  cbn [_evaluate]. rewrite Ha, Hq.
  destruct (value_of env l) as [x|]; [destruct (value_of env r) as [y|]|].
  - unfold try_except.
    rewrite (bind_ok_nil _ _ _ _ _ (field_ok _ _ _ _ _ Ha Hop)).
    destruct c; cbn [relation_name holds];
      repeat match goal with
             | |- context [is_binop ?o] =>
                 let b := eval vm_compute in (is_binop o) in change (is_binop o) with b
             end;
      eval_string_tests;
      rewrite (bind_ok_nil _ _ _ _ _ (field_ok _ _ _ _ _ Ha Hl));
      rewrite (bind_ok_nil _ _ _ _ _ H1);
      rewrite (bind_ok_nil _ _ _ _ _ (field_ok _ _ _ _ _ Ha Hr));
      rewrite (bind_ok_nil _ _ _ _ _ H2);
      reflexivity.
  - apply try_except_other; [|discriminate].
    rewrite (bind_ok_nil _ _ _ _ _ (field_ok _ _ _ _ _ Ha Hop)).
    destruct c; cbn [relation_name];
      repeat match goal with
             | |- context [is_binop ?o] =>
                 let b := eval vm_compute in (is_binop o) in change (is_binop o) with b
             end;
      eval_string_tests;
      rewrite (bind_ok_nil _ _ _ _ _ (field_ok _ _ _ _ _ Ha Hl));
      rewrite (bind_ok_nil _ _ _ _ _ H1);
      rewrite (bind_ok_nil _ _ _ _ _ (field_ok _ _ _ _ _ Ha Hr));
      now apply bind_raise.
  - apply try_except_other; [|discriminate].
    rewrite (bind_ok_nil _ _ _ _ _ (field_ok _ _ _ _ _ Ha Hop)).
    destruct c; cbn [relation_name];
      repeat match goal with
             | |- context [is_binop ?o] =>
                 let b := eval vm_compute in (is_binop o) in change (is_binop o) with b
             end;
      eval_string_tests;
      rewrite (bind_ok_nil _ _ _ _ _ (field_ok _ _ _ _ _ Ha Hl));
      now apply bind_raise.
Qed.

(** [evaluate_comparison] at [:x + 1 > 5], true when [x] is 5, and at
    [:x / 0 = 1]. *)
Lemma evaluate_comparison_witness :
  let s := comparisons in
  _evaluate 3 (VRef 1) s = Res (Ok (VBool true)) s [] /\
  _evaluate 3 (VRef 3) s = Res (Raise ZeroDivisionError) s [].
Proof.
  intros s. split.
  - apply (evaluate_comparison (fun _ => 5%float) s Greater
             (Bin Plus (Var "x") (Num 1)) (Num 5) 2 1%nat
             [("op", VStr ">"); ("left", VRef 0); ("right", VFloat 5)]
             (VRef 0) (VFloat 5) eq_refl eq_refl eq_refl eq_refl eq_refl).
    + find_nodes.
    + find_nodes.
    + intros x Hx. simpl in Hx. destruct Hx as [<- | []]. reflexivity.
    + simpl. lia.
    + simpl. lia.
  - apply (evaluate_comparison (fun _ => 5%float) s Equal
             (Bin Over (Var "x") (Num 0)) (Num 1) 2 3%nat
             [("op", VStr "="); ("left", VRef 2); ("right", VFloat 1)]
             (VRef 2) (VFloat 1) eq_refl eq_refl eq_refl eq_refl eq_refl).
    + find_nodes.
    + find_nodes.
    + intros x Hx. simpl in Hx. destruct Hx as [<- | []]. reflexivity.
    + simpl. lia.
    + simpl. lia.
Defined.

(** ** The errors of [func_call] (C3) *)

(** C3 as stated fails: the [func_def] node declares [f] with the two
    names [a] and [a], the [func_call] node supplies one argument, and the
    call, run in the state the definition leaves, runs the body instead of
    failing with [InterpreterInvalidFunctionArgumentsError]. *)
Lemma call_with_fewer_arguments_than_names :
  let s0 := loaded repeated_name in
  let s := repeated_name_defined in
  let r := dispatch (_interpret 3) (_evaluate 3) (VRef 5) s in
  heap s0 !! 3%nat =
    Some (ODict [("name", VStr "func_def"); ("func_name", VStr "f");
                 ("arguments", VRef 0); ("commands", VRef 2)]) /\
  heap s0 !! 0%nat = Some (OList [VStr "a"; VStr "a"]) /\
  dispatch (_interpret 0) (_evaluate 0) (VRef 3) s0 = Res (Ok tt) s [] /\
  heap s !! 5%nat =
    Some (ODict [("name", VStr "func_call"); ("func_name", VStr "f");
                 ("arguments", VRef 4)]) /\
  heap s !! 4%nat = Some (OList [VFloat 1]) /\
  res r = Ok tt /\
  yields r = [YFresh [("name", VStr "forward"); ("value", VFloat 1)]].
Proof. vm_compute. repeat split. Qed.

(** C3, amended. For a [func_call] node with function name [f]: when [f]
    is not in the function table the call fails with
    [InterpreterUndefinedFunctionError f]; when it is, and the number of
    supplied arguments differs from the number of parameters of the table
    entry, it fails with [InterpreterInvalidFunctionArgumentsError]
    carrying that number of parameters and the number supplied, in this
    order; after a [func_def] of [f] that number of parameters is the
    number of distinct names declared, a name declared twice counting
    once; and when the numbers agree, the arguments have been bound and
    the interpretation of the body raises [e], the call raises
    [InterpreterFunctionExecutionError f e], which keeps [e] as its cause,
    after the yields of the body up to the failure. *)
Theorem func_call_errors fuel s a kvs f args :
  heap s !! a = Some (ODict kvs) ->
  dict_get kvs "name" = Some (VStr "func_call") ->
  dict_get kvs "func_name" = Some (VStr f) ->
  dict_get kvs "arguments" = Some args ->
  let interp := _interpret fuel in
  let ev := _evaluate fuel in
  let call := dispatch interp ev (VRef a) s in
  (dict_get (_fuctions s) f = None ->
   call = Res (Raise (InterpreterUndefinedFunctionError (VStr f))) s []) /\
  (forall fd received,
     dict_get (_fuctions s) f = Some fd ->
     py_len (heap s) args = Ok received ->
     received <> Z.of_nat (length (fd_arguments fd)) ->
     call = Res (Raise (InterpreterInvalidFunctionArgumentsError (VStr f)
                          (Z.of_nat (length (fd_arguments fd))) received)) s []) /\
  (forall s0 d kvs_d l names body received,
     heap s0 !! d = Some (ODict kvs_d) ->
     dict_get kvs_d "name" = Some (VStr "func_def") ->
     dict_get kvs_d "func_name" = Some (VStr f) ->
     dict_get kvs_d "arguments" = Some (VRef l) ->
     dict_get kvs_d "commands" = Some body ->
     heap s0 !! l = Some (OList (map VStr names)) ->
     s = fin (dispatch interp ev (VRef d) s0) ->
     py_len (heap s) args = Ok received ->
     received <> Z.of_nat (length (distinct_from [] names)) ->
     call = Res (Raise (InterpreterInvalidFunctionArgumentsError (VStr f)
                          (Z.of_nat (length (distinct_from [] names))) received)) s []) /\
  (forall fd received s1 ys1 fd1 e s2 ys2,
     dict_get (_fuctions s) f = Some fd ->
     py_len (heap s) args = Ok received ->
     received = Z.of_nat (length (fd_arguments fd)) ->
     bind_arguments ev (VStr f) args (map fst (fd_arguments fd)) (Z.to_nat received) s =
       Res (Ok tt) s1 ys1 ->
     dict_get (_fuctions s1) f = Some fd1 ->
     interp (fd_commands fd1) s1 = Res (Raise e) s2 ys2 ->
     call = Res (Raise (InterpreterFunctionExecutionError (VStr f) e)) s2 (ys1 ++ ys2)).
Proof.
  intros Ha Hn Hf Hargs interp ev call.
  destruct (_handle_func_call_errors fuel s a kvs f args Ha Hn Hf Hargs)
    as (Hundefined & Harity & Hwrap).
  split; [exact Hundefined|]. split; [exact Harity|]. split; [|exact Hwrap].
  intros s0 d kvs_d l names body received Hd Hnd Hfd Hl Hb Hnames Hs Hlen Hne.
  destruct (func_def_entry fuel s0 d kvs_d f l names body Hd Hnd Hfd Hl Hb Hnames)
    as (_ & _ & Hentry & _).
  fold interp ev in Hentry. rewrite <- Hs in Hentry.
  pose proof (Harity _ received Hentry Hlen) as H.
  cbn [fd_arguments] in H. rewrite length_map in H. now apply H.
Qed.

(** [func_call_errors] at the three calls of [calls], the function [f]
    having been defined with the one parameter [a]. *)
Lemma func_call_errors_witness :
  let call a := dispatch (_interpret 3) (_evaluate 3) (VRef a) f_defined in
  res (call 5%nat) = Raise (InterpreterUndefinedFunctionError (VStr "g")) /\
  res (call 7%nat) = Raise (InterpreterInvalidFunctionArgumentsError (VStr "f") 1 2) /\
  call 7%nat =
    Res (Raise (InterpreterInvalidFunctionArgumentsError (VStr "f") 1 2)) f_defined [] /\
  res (call 9%nat) =
    Raise (InterpreterFunctionExecutionError (VStr "f") InterpreterInvalidTreeError).
Proof.
  intros call. subst call. split; [|split; [|split]].
  - destruct (func_call_errors 3 f_defined 5%nat
                [("name", VStr "func_call"); ("func_name", VStr "g"); ("arguments", VRef 4)]
                "g" (VRef 4) eq_refl eq_refl eq_refl eq_refl) as (H & _).
    now rewrite (H eq_refl).
  - destruct (func_call_errors 3 f_defined 7%nat
                [("name", VStr "func_call"); ("func_name", VStr "f"); ("arguments", VRef 6)]
                "f" (VRef 6) eq_refl eq_refl eq_refl eq_refl) as (_ & H & _).
    rewrite (H (FuncData [("a", VStr "")] (VRef 2)) 2 eq_refl eq_refl); [reflexivity|].
    discriminate.
  - destruct (func_call_errors 3 f_defined 7%nat
                [("name", VStr "func_call"); ("func_name", VStr "f"); ("arguments", VRef 6)]
                "f" (VRef 6) eq_refl eq_refl eq_refl eq_refl) as (_ & _ & H & _).
    apply (H (loaded calls) 3%nat
             [("name", VStr "func_def"); ("func_name", VStr "f"); ("arguments", VRef 0);
              ("commands", VRef 2)]
             0%nat ["a"] (VRef 2) 2 eq_refl eq_refl eq_refl eq_refl eq_refl eq_refl
             eq_refl eq_refl).
    discriminate.
  - destruct (func_call_errors 3 f_defined 9%nat
                [("name", VStr "func_call"); ("func_name", VStr "f"); ("arguments", VRef 8)]
                "f" (VRef 8) eq_refl eq_refl eq_refl eq_refl) as (_ & _ & _ & H).
    set (s1 := set_fuctions [("f", FuncData [("a", VFloat 1)] (VRef 2))] f_defined).
    rewrite (H (FuncData [("a", VStr "")] (VRef 2)) 1 s1 []
               (FuncData [("a", VFloat 1)] (VRef 2)) InterpreterInvalidTreeError s1 []
               eq_refl eq_refl eq_refl eq_refl eq_refl eq_refl).
    reflexivity.
Defined.

(** ** Nodes that lack a field (C9) *)



Section LaterFields.
Variables (fuel : nat) (s : state) (a : nat) (kvs : list (string * val)).
Let interp := _interpret fuel.
Let ev := _evaluate fuel.
Hypothesis node_at : heap s !! a = Some (ODict kvs).






Variable L : string.
Hypothesis node_list_name : dict_get kvs "list_name" = Some (VStr L).




End LaterFields.


